(** * Rock-Paper-Scissors-Lizard-Spock servers: model and properties

    Shallow embedding of
      - hw3/spock_server.c    (multi-player server, up to MAX_PLAYERS)
      - hw5/Wu/spock_server.c (two-player server, local player + one client)

    C arrays are lists read with [!!!] and written with [<[i:=x]>];
    an access outside a fixed-size array is undefined behaviour in C and
    is reported as [None] / [Undefined] by the model.  [int] values are
    kept in [Z] with 32-bit wrap-around at the increments.  Socket input
    is an explicit trace of [select]/[recv] results; socket output and
    console output are accumulated in the state.  No program installs
    a handler for SIGPIPE or passes MSG_NOSIGNAL, so a [send] on a
    connection the peer has reset terminates the process; for the
    multi-player server, whose QUIT loop sends on the very channel
    that has just failed, the trace says in which iteration and at
    which call that happens; the other programs are described for the
    runs in which their [send] calls return.  The text [perror] writes
    depends on [errno] and is left out. *)

From Stdlib Require Import ZArith Ascii String DecimalString.
From stdpp Require Import base tactics option list strings sorting.

(** ** The part of libc the servers use *)

Module CLib.

Definition NUL : ascii := Ascii.zero.

(** [s[i]] for a NUL-terminated / zero-filled character array. *)
Definition char_at (s : string) (i : nat) : ascii :=
  match String.get i s with
  | Some c => c
  | None => NUL
  end.

Definition uchar (c : ascii) : Z := Z.of_N (N_of_ascii c).

Definition str_tail (s : string) : string :=
  match s with
  | EmptyString => EmptyString
  | String _ s' => s'
  end.

(** [strncmp(s1, s2, n)]: at most [n] characters are compared, and the
    comparison stops at the first NUL. *)
Fixpoint strncmp (s1 s2 : string) (n : nat) : Z :=
  match n with
  | O => 0
  | S n' =>
      let c1 := char_at s1 0 in
      let c2 := char_at s2 0 in
      if negb (Ascii.eqb c1 c2) then (uchar c1 - uchar c2)%Z
      else if Ascii.eqb c1 NUL then 0%Z
      else strncmp (str_tail s1) (str_tail s2) n'
  end.

(** The newline character and string. *)
Definition LF : ascii := ascii_of_nat 10.
Definition nl : string := String LF EmptyString.

(** The characters of a C string: everything before the first NUL. *)
Fixpoint cstr (s : string) : string :=
  match s with
  | EmptyString => EmptyString
  | String c s' => if Ascii.eqb c NUL then EmptyString else String c (cstr s')
  end.

(** [snprintf(buf, size, ...)] keeps at most [size - 1] characters. *)
Definition snprintf (size : nat) (formatted : string) : string :=
  String.substring 0 (size - 1) formatted.

(** [%d] *)
Definition fmt_d (z : Z) : string := NilZero.string_of_int (Z.to_int z).

(** [toupper] in the C locale. *)
Definition toupper (c : ascii) : ascii :=
  let n := N_of_ascii c in
  if ((97 <=? n) && (n <=? 122))%N then ascii_of_N (n - 32) else c.

(** A 32-bit [int] after an arithmetic step (two's complement). *)
Definition wrap_int (z : Z) : Z :=
  ((z + 2147483648) mod 4294967296 - 2147483648)%Z.

(** [s + n] for a C string with at least [n] characters. *)
Fixpoint str_drop (n : nat) (s : string) : string :=
  match n with
  | O => s
  | S n' => str_drop n' (str_tail s)
  end.

(** The C string left in [s] after [p = strchr(s, c); if (p) *p = 0;]:
    the characters before the first [c]. *)
Fixpoint cut_at (c : ascii) (s : string) : string :=
  match s with
  | EmptyString => EmptyString
  | String a s' => if Ascii.eqb a c then EmptyString else String a (cut_at c s')
  end.

(** [strchr(s, c) != NULL]; the terminating NUL is part of the string. *)
Fixpoint strchr (s : string) (c : ascii) : bool :=
  match s with
  | EmptyString => Ascii.eqb c NUL
  | String a s' =>
      if Ascii.eqb a NUL then Ascii.eqb c NUL
      else Ascii.eqb a c || strchr s' c
  end.

End CLib.

(** ** Moves: the enumeration both servers declare *)

Inductive Move : Type :=
  | MOVE_ROCK
  | MOVE_PAPER
  | MOVE_SCISSORS
  | MOVE_LIZARD
  | MOVE_SPOCK
  | MOVE_INVALID.

#[global] Instance Move_eq_dec : EqDecision Move.
Proof. solve_decision. Defined.

#[global] Instance Move_inhabited : Inhabited Move := populate MOVE_INVALID.

(** [m1 == m2] on the enumeration. *)
Definition move_eqb (m1 m2 : Move) : bool := bool_decide (m1 = m2).

(** The five playable moves. *)
Definition playable : list Move :=
  [MOVE_ROCK; MOVE_PAPER; MOVE_SCISSORS; MOVE_LIZARD; MOVE_SPOCK].

(** ** hw3/spock_server.c *)

Module Hw3.

Definition MAX_PLAYERS : nat := 5.
Definition BUF_SIZE : nat := 1024.

Definition char_to_move (c : ascii) : Move :=
  if Ascii.eqb c "R" || Ascii.eqb c "r" then MOVE_ROCK
  else if Ascii.eqb c "P" || Ascii.eqb c "p" then MOVE_PAPER
  else if Ascii.eqb c "S" || Ascii.eqb c "s" then MOVE_SCISSORS
  else if Ascii.eqb c "L" || Ascii.eqb c "l" then MOVE_LIZARD
  else if Ascii.eqb c "K" || Ascii.eqb c "k" then MOVE_SPOCK
  else MOVE_INVALID.

Definition move_to_string (m : Move) : string :=
  match m with
  | MOVE_ROCK => "Rock"
  | MOVE_PAPER => "Paper"
  | MOVE_SCISSORS => "Scissors"
  | MOVE_LIZARD => "Lizard"
  | MOVE_SPOCK => "Spock"
  | MOVE_INVALID => "Invalid"
  end.

Definition beats (m1 m2 : Move) : bool :=
  (move_eqb m1 MOVE_PAPER && (move_eqb m2 MOVE_ROCK || move_eqb m2 MOVE_SPOCK))
  || (move_eqb m1 MOVE_SCISSORS && (move_eqb m2 MOVE_PAPER || move_eqb m2 MOVE_LIZARD))
  || (move_eqb m1 MOVE_SPOCK && (move_eqb m2 MOVE_SCISSORS || move_eqb m2 MOVE_ROCK))
  || (move_eqb m1 MOVE_ROCK && (move_eqb m2 MOVE_SCISSORS || move_eqb m2 MOVE_LIZARD))
  || (move_eqb m1 MOVE_LIZARD && (move_eqb m2 MOVE_SPOCK || move_eqb m2 MOVE_PAPER)).

(** The inner [for (j ...)] loop of [determine_multiplayer_winners],
    over the remaining indices [js]; the result is
    [(i_is_beaten, i_beats_any)].  [break] returns at once. *)
Fixpoint scan_opponents (moves : list Move) (i : nat) (js : list nat)
    (i_beats_any : bool) : bool * bool :=
  match js with
  | [] => (false, i_beats_any)
  | j :: js' =>
      if bool_decide (i = j) || move_eqb (moves !!! j) MOVE_INVALID
      then scan_opponents moves i js' i_beats_any
      else if beats (moves !!! j) (moves !!! i) then (true, i_beats_any)
      else if beats (moves !!! i) (moves !!! j)
           then scan_opponents moves i js' true
           else scan_opponents moves i js' i_beats_any
  end.

(** One iteration of the first [for (i ...)] loop. *)
Definition mark_dominant (moves : list Move) (numPlayers : nat)
    (isDominant : list bool) (i : nat) : list bool :=
  if move_eqb (moves !!! i) MOVE_INVALID then isDominant
  else
    let '(i_is_beaten, i_beats_any) :=
      scan_opponents moves i (seq 0 numPlayers) false in
    if negb i_is_beaten && i_beats_any then <[i := true]> isDominant
    else isDominant.

(** One iteration of the second loop: [winners[count++] = i]. *)
Definition collect_winner (isDominant : list bool) (winners : list nat)
    (i : nat) : list nat :=
  if (isDominant !!! i : bool) then winners ++ [i] else winners.

(** [determine_multiplayer_winners(moves, numPlayers, winners, &n)]:
    the result is the first [n] entries of [winners].  [isDominant]
    has [MAX_PLAYERS] entries and [moves] has [length moves]; the
    loops index both up to [numPlayers - 1], so a larger [numPlayers]
    leaves the arrays and the result is [None]. *)
Definition determine_multiplayer_winners (moves : list Move)
    (numPlayers : nat) : option (list nat) :=
  if bool_decide (numPlayers ≤ MAX_PLAYERS ∧ numPlayers ≤ length moves) then
    let isDominant :=
      foldl (mark_dominant moves numPlayers)
            (replicate MAX_PLAYERS false) (seq 0 numPlayers) in
    Some (foldl (collect_winner isDominant) [] (seq 0 numPlayers))
  else None.

(** *** The game session *)

(** What [recv] returns on a readable channel: [n <= 0], or the [n]
    bytes received (at most [BUF_SIZE - 1]; the rest of [buffer] is
    zero). *)
Inductive RecvResult : Type :=
  | RecvFail
  | RecvData (buffer : string).

(** One return of [select]: an error, or for each player index
    whether its descriptor is set and what [recv] yields on it.  A
    descriptor that is set but not read in this pass (the pass was
    left with [break]) is simply not consumed.

    An iteration of [while (1)] runs at most one of the three [send]
    loops (RESET, QUIT, RESULT).  Every [send] is called with flags 0
    and SIGPIPE keeps its default disposition, so a call on a
    connection that the peer has reset, typically the one whose [recv]
    has just failed, raises the signal and the process is terminated
    inside the loop.  [SelectReady ready] is an iteration in which
    every [send] returns (with whatever result: it is not looked at);
    [SelectReadyPipe ready k] is one in which the call for player [k]
    of the loop raises SIGPIPE, the calls for the players before [k]
    having returned. *)
Inductive SelectResult : Type :=
  | SelectError
  | SelectReady (ready : list (option RecvResult))
  | SelectReadyPipe (ready : list (option RecvResult)) (k : nat).

(** State that lives across rounds: [scores], and the two output
    streams ([send] calls as (player index, bytes), [printf] calls). *)
Record Game : Type := mkGame {
  scores : list Z;
  sent : list (nat * string);
  console : list string
}.

(** The locals of one iteration of [while (1)]. *)
Record Round : Type := mkRound {
  moves : list Move;
  moves_received : nat;
  round_over : bool;
  someone_quit : bool;
  someone_reset : bool
}.

Definition printf (line : string) (g : Game) : Game :=
  mkGame (scores g) (sent g) (console g ++ [line]).

(** The calls of
    [for (k = 0; k < numPlayers; k++) send(client_fds[k], msg, ...)]
    when the loop runs to its end. *)
Definition broadcast (numPlayers : nat) (msg : string) : list (nat * string) :=
  (λ k, (k, msg)) <$> seq 0 numPlayers.

(** The [send] loop when every call returns; the results of [send] are
    not looked at, so a call that fails with an error code changes
    nothing.  A call that raises SIGPIPE ends the process inside the
    loop: see [killed_at]. *)
Definition send_all (numPlayers : nat) (msg : string) (g : Game) : Game :=
  mkGame (scores g) (sent g ++ broadcast numPlayers msg) (console g).

(** The state in which the process is terminated when, in the [send]
    loop that has led to [g], the call for player [k] raises SIGPIPE:
    the loop has made [numPlayers] calls in [g], of which only the
    first [k] have taken place; the ones for the players [k],
    ..., [numPlayers - 1] are taken back.  Everything the program did
    before the loop (scores, console) stands. *)
Definition killed_at (numPlayers k : nat) (g : Game) : Game :=
  mkGame (scores g) (take (length (sent g) - (numPlayers - k)) (sent g)) (console g).

(** [for (k = 0; k < numPlayers; k++) scores[k] = 0;] *)
Definition zero_scores (numPlayers : nat) (g : Game) : Game :=
  mkGame (foldl (λ sc k, <[k := 0%Z]> sc) (scores g) (seq 0 numPlayers))
         (sent g) (console g).

Definition player_no (i : nat) : string := CLib.fmt_d (Z.of_nat i + 1).

(** The body of [for (i ...)] for a readable channel [i]; the boolean
    tells whether the loop is left with [break]. *)
Definition serve_player (numPlayers i : nat) (res : RecvResult)
    (g : Game) (r : Round) : Game * Round * bool :=
  match res with
  | RecvFail =>
      (printf ("[Server] Player " +:+ player_no i +:+ " disconnected. Ending game." +:+ CLib.nl) g,
       mkRound (moves r) (moves_received r) true true (someone_reset r),
       true)
  | RecvData buffer =>
      if (CLib.strncmp buffer "QUIT" 4 =? 0)%Z then
        (printf ("[Server] Player " +:+ player_no i +:+ " requested QUIT." +:+ CLib.nl) g,
         mkRound (moves r) (moves_received r) true true (someone_reset r),
         true)
      else if (CLib.strncmp buffer "RESET" 5 =? 0)%Z then
        (send_all numPlayers "RESET"
           (zero_scores numPlayers
              (printf ("[Server] Player " +:+ player_no i +:+ " requested RESET." +:+ CLib.nl) g)),
         mkRound (moves r) (moves_received r) true (someone_quit r) true,
         true)
      else
        let '(g', r') :=
          if (CLib.strncmp buffer "MOVE:" 5 =? 0)%Z then
            let c := CLib.char_at buffer 5 in
            let m := char_to_move c in
            if negb (move_eqb m MOVE_INVALID) && move_eqb (moves r !!! i) MOVE_INVALID
            then
              (printf ("[Server] Player " +:+ player_no i +:+ " => "
                         +:+ move_to_string m +:+ CLib.nl) g,
               mkRound (<[i := m]> (moves r)) (S (moves_received r))
                       (round_over r) (someone_quit r) (someone_reset r))
            else (g, r)
          else
            (printf ("[Server] Player " +:+ player_no i +:+ " sent unknown: "
                       +:+ CLib.cstr buffer +:+ CLib.nl) g,
             r)
        in (g', r', round_over r')
  end.

(** [for (i = 0; i < numPlayers; i++)] after one [select], over the
    remaining indices [todo]. *)
Fixpoint poll (numPlayers : nat) (ready : list (option RecvResult))
    (todo : list nat) (g : Game) (r : Round) : Game * Round :=
  match todo with
  | [] => (g, r)
  | i :: todo' =>
      match ready !! i with
      | Some (Some res) =>
          let '(g', r', brk) := serve_player numPlayers i res g r in
          if brk : bool then (g', r') else poll numPlayers ready todo' g' r'
      | _ => poll numPlayers ready todo' g r
      end
  end.

(** [scores[winners[w]]++] for every winner. *)
Definition award (winners : list nat) (sc : list Z) : list Z :=
  foldl (λ sc w, alter (λ v, CLib.wrap_int (v + 1)) w sc) sc winners.

(** The three loops that build a comma-separated part of the RESULT
    message: [snprintf(temp, size, "%s...", i == 0 ? "" : ",", ...)]
    followed by [strcat(part, temp)]. *)
Definition join_part (size : nat) (count : nat) (field : nat → string) : string :=
  foldl (λ part i,
           part +:+ CLib.snprintf size ((if bool_decide (i = 0) then "" else ",") +:+ field i))
        "" (seq 0 count).

Definition result_msg (numPlayers : nat) (winners : list nat)
    (mv : list Move) (sc : list Z) : string :=
  let moves_part := join_part 32 numPlayers (λ i, move_to_string (mv !!! i)) in
  let scores_part := join_part 32 numPlayers (λ i, CLib.fmt_d (sc !!! i)) in
  let winners_part :=
    join_part 16 (length winners) (λ i, CLib.fmt_d (Z.of_nat (winners !!! i) + 1)) in
  CLib.snprintf BUF_SIZE
    ("RESULT:" +:+ winners_part +:+ ":" +:+ moves_part +:+ ":" +:+ scores_part).

(** The [if (moves_received == numPlayers)] block: the winners are
    determined and credited (each credit with its [printf]), then the
    RESULT message is built from the moves and the new scores and sent
    to every player. *)
Definition resolve (numPlayers : nat) (g : Game) (r : Round) : option Game :=
  winners ← determine_multiplayer_winners (moves r) numPlayers;
  let g1 :=
    if bool_decide (length winners = 0)
    then printf ("[Server] Round ends in a tie." +:+ CLib.nl) g
    else
      mkGame (award winners (scores g)) (sent g)
             (console g ++ ["[Server] Dominant move(s): "]
                ++ ((λ w, "Player " +:+ player_no w +:+ " ") <$> winners)
                ++ [CLib.nl])
  in
  Some (send_all numPlayers
          (CLib.cstr (result_msg numPlayers winners (moves r) (scores g1))) g1).

(** The locals at the top of a round; [moves] holds the slots
    [0 .. numPlayers - 1], the only ones the program initialises and
    reads. *)
Definition new_round (numPlayers : nat) : Round :=
  mkRound (replicate numPlayers MOVE_INVALID) 0 false false false.

Inductive Outcome : Type :=
  | Waiting (g : Game) (r : Round)   (* blocked in [select]: no more input *)
  | Returned (g : Game)              (* [select] failed: [return] *)
  | Ended (g : Game)                 (* left [while (1)] after the QUIT broadcast *)
  | Killed (g : Game)                (* terminated by SIGPIPE inside a [send] loop *)
  | Spins                            (* rounds resolve for ever without input *)
  | Undefined.                       (* an array was indexed out of bounds *)

(** [while (1)] from a call of [select] on, in round state [r].  After
    each pass over the players the condition of the collecting loop is
    tested; when it fails the round is decided and the next round,
    which starts with [moves_received = 0 < numPlayers], calls [select]
    again.  In an iteration [SelectReadyPipe ready k] the [send] loop
    that the iteration runs, if it runs one, is cut at the call for
    player [k]: the process dies there, before the [printf] that
    follows the QUIT loop and before any further round. *)
Fixpoint rounds (numPlayers : nat) (trace : list SelectResult)
    (g : Game) (r : Round) : Outcome :=
  match trace with
  | [] => Waiting g r
  | SelectError :: _ => Returned g
  | SelectReady ready :: trace' =>
      let '(g1, r1) := poll numPlayers ready (seq 0 numPlayers) g r in
      if bool_decide (moves_received r1 < numPlayers) && negb (round_over r1)
      then rounds numPlayers trace' g1 r1
      else if someone_quit r1
      then Ended (printf ("[Server] Game session ended." +:+ CLib.nl)
                    (send_all numPlayers "QUIT" g1))
      else if someone_reset r1
      then rounds numPlayers trace' g1 (new_round numPlayers)
      else if bool_decide (moves_received r1 = numPlayers)
      then match resolve numPlayers g1 r1 with
           | Some g2 => rounds numPlayers trace' g2 (new_round numPlayers)
           | None => Undefined
           end
      else rounds numPlayers trace' g1 (new_round numPlayers)
  | SelectReadyPipe ready k :: trace' =>
      let '(g1, r1) := poll numPlayers ready (seq 0 numPlayers) g r in
      if bool_decide (moves_received r1 < numPlayers) && negb (round_over r1)
      then rounds numPlayers trace' g1 r1
      else if someone_quit r1
      then if bool_decide (k < numPlayers)
           then Killed (killed_at numPlayers k (send_all numPlayers "QUIT" g1))
           else Ended (printf ("[Server] Game session ended." +:+ CLib.nl)
                         (send_all numPlayers "QUIT" g1))
      else if someone_reset r1
      then if bool_decide (k < numPlayers)
           then Killed (killed_at numPlayers k g1)
           else rounds numPlayers trace' g1 (new_round numPlayers)
      else if bool_decide (moves_received r1 = numPlayers)
      then match resolve numPlayers g1 r1 with
           | Some g2 =>
               if bool_decide (k < numPlayers)
               then Killed (killed_at numPlayers k g2)
               else rounds numPlayers trace' g2 (new_round numPlayers)
           | None => Undefined
           end
      else rounds numPlayers trace' g1 (new_round numPlayers)
  end.

Definition initial_game : Game := mkGame (replicate MAX_PLAYERS 0%Z) [] [].

(** [handle_game(client_fds, numPlayers)] on the input [trace]; channel
    [k] of the model is the descriptor [client_fds[k]].  With more than
    [MAX_PLAYERS] players the first round already writes outside
    [moves]; with no player the collecting loop is never entered. *)
Definition handle_game (numPlayers : nat) (trace : list SelectResult) : Outcome :=
  if bool_decide (MAX_PLAYERS < numPlayers) then Undefined
  else if bool_decide (numPlayers = 0) then Spins
  else rounds numPlayers trace initial_game (new_round numPlayers).

(** *** [main] *)

(** What the operating system answers to [main]: the result of
    [start_server], the results of the successive [accept] calls, and
    the input seen by [handle_game]. *)
Record Env : Type := mkEnv {
  start_server_result : Z → Z;
  accept_results : list Z;
  game_input : list SelectResult
}.

(** Observable run of [main]: lines written to [stderr] and [stdout],
    the descriptors returned by [accept], the session if one was
    started (with its number of players), and the exit status ([None]
    when there is none: the process has not exited, or it was
    terminated by a signal, which the session then shows as
    [Killed]). *)
Record Run : Type := mkRun {
  stderr : list string;
  stdout : list string;
  accepted : list Z;
  session : option (Z * Outcome);
  exit_status : option Z
}.

Inductive Accepting : Type :=
  | AcceptBlocked    (* [accept] has not returned *)
  | AcceptFailed     (* [accept] returned a negative descriptor *)
  | AcceptDone.      (* [numPlayers] clients are connected *)

(** [while (connected_count < numPlayers)] over the number of
    connections still [missing]; [client_fds] holds the
    [connected_count] descriptors accepted so far and [out] the lines
    printed. *)
Fixpoint accept_loop (numPlayers : Z) (missing : nat) (results : list Z)
    (client_fds : list Z) (out : list string) : Accepting * list Z * list string :=
  match missing with
  | O => (AcceptDone, client_fds, out)
  | S missing' =>
      match results with
      | [] => (AcceptBlocked, client_fds, out)
      | cfd :: results' =>
          if (cfd <? 0)%Z then (AcceptFailed, client_fds, out)
          else
            let client_fds := client_fds ++ [cfd] in
            accept_loop numPlayers missing' results' client_fds
              (out ++ ["[Server] New client connected (fd=" +:+ CLib.fmt_d cfd
                         +:+ "). [" +:+ CLib.fmt_d (Z.of_nat (length client_fds))
                         +:+ "/" +:+ CLib.fmt_d numPlayers +:+ "]" +:+ CLib.nl])
      end
  end.

Section Main.

(** [atoi] of the C library. *)
Variable atoi : string → Z.

Definition usage (prog : string) : list string :=
  ["Usage: " +:+ prog +:+ " <port> <numPlayers>" +:+ CLib.nl;
   "Example: " +:+ prog +:+ " 5555 3" +:+ CLib.nl].

Definition main (argv : list string) (env : Env) : Run :=
  if negb (bool_decide (length argv = 3)) then
    mkRun (usage (argv !!! 0)) [] [] None (Some 1%Z)
  else
    let port := atoi (argv !!! 1) in
    let numPlayers := atoi (argv !!! 2) in
    if (numPlayers <? 1)%Z || (numPlayers >? Z.of_nat MAX_PLAYERS)%Z then
      mkRun ["numPlayers must be between 1 and "
               +:+ CLib.fmt_d (Z.of_nat MAX_PLAYERS) +:+ "." +:+ CLib.nl]
            [] [] None (Some 1%Z)
    else
      let server_fd := start_server_result env port in
      if (server_fd <? 0)%Z then
        mkRun ["Error: could not start server on port "
                 +:+ CLib.fmt_d port +:+ "." +:+ CLib.nl]
              [] [] None (Some 1%Z)
      else
        let listening :=
          "[Server] Listening on port " +:+ CLib.fmt_d port +:+ ", expecting "
            +:+ CLib.fmt_d numPlayers +:+ " clients..." +:+ CLib.nl in
        match accept_loop numPlayers (Z.to_nat numPlayers) (accept_results env)
                [] [listening] with
        | (AcceptBlocked, client_fds, out) => mkRun [] out client_fds None None
        | (AcceptFailed, client_fds, out) => mkRun [] out client_fds None (Some 1%Z)
        | (AcceptDone, client_fds, out) =>
            let outcome := handle_game (Z.to_nat numPlayers) (game_input env) in
            mkRun [] out client_fds (Some (numPlayers, outcome))
                  (match outcome with
                   | Returned _ | Ended _ => Some 0%Z
                   | _ => None
                   end)
        end.

End Main.

End Hw3.

(** ** hw5/Wu/spock_server.c *)

Module Hw5.

Definition BUF_SIZE : nat := 1024.

Definition char_to_move (c : ascii) : Move :=
  let c := CLib.toupper c in
  if Ascii.eqb c "R" then MOVE_ROCK
  else if Ascii.eqb c "P" then MOVE_PAPER
  else if Ascii.eqb c "S" then MOVE_SCISSORS
  else if Ascii.eqb c "L" then MOVE_LIZARD
  else if Ascii.eqb c "K" then MOVE_SPOCK
  else MOVE_INVALID.

Definition move_to_char (m : Move) : ascii :=
  match m with
  | MOVE_ROCK => "R"
  | MOVE_PAPER => "P"
  | MOVE_SCISSORS => "S"
  | MOVE_LIZARD => "L"
  | MOVE_SPOCK => "K"
  | MOVE_INVALID => "X"
  end.

Definition beats (m1 m2 : Move) : bool :=
  if move_eqb m1 MOVE_ROCK && (move_eqb m2 MOVE_SCISSORS || move_eqb m2 MOVE_LIZARD) then true
  else if move_eqb m1 MOVE_PAPER && (move_eqb m2 MOVE_ROCK || move_eqb m2 MOVE_SPOCK) then true
  else if move_eqb m1 MOVE_SCISSORS && (move_eqb m2 MOVE_PAPER || move_eqb m2 MOVE_LIZARD) then true
  else if move_eqb m1 MOVE_LIZARD && (move_eqb m2 MOVE_PAPER || move_eqb m2 MOVE_SPOCK) then true
  else if move_eqb m1 MOVE_SPOCK && (move_eqb m2 MOVE_ROCK || move_eqb m2 MOVE_SCISSORS) then true
  else false.

(** What [recv] returns on the client socket. *)
Inductive RecvResult : Type :=
  | RecvFail
  | RecvData (buf : string).

(** The input of one iteration of the game loop: the result of
    [select] (failure, or which of stdin and the client socket are
    readable), the first character of the line the local player typed,
    and what the client answers. *)
Inductive Wake : Type :=
  | SelectError
  | SelectReady (stdin_ready client_ready : bool).

Record Iter : Type := mkIter {
  wake : Wake;
  typed : ascii;
  reply : RecvResult
}.

Record State : Type := mkState {
  scores : list Z;
  round : Z;
  sent : list string;
  console : list string
}.

Definition send (msg : string) (st : State) : State :=
  mkState (scores st) (round st) (sent st ++ [CLib.cstr msg]) (console st).

Definition printf (line : string) (st : State) : State :=
  mkState (scores st) (round st) (sent st) (console st ++ [line]).

Definition set_scores (sc : list Z) (st : State) : State :=
  mkState sc (round st) (sent st) (console st).

(** [round++] *)
Definition next_round (st : State) : State :=
  mkState (scores st) (CLib.wrap_int (round st + 1)) (sent st) (console st).

(** Lines 212-215: the two-player rule. *)
Definition award (m1 m2 : Move) (sc : list Z) : list Z :=
  let w1 := beats m1 m2 in
  let w2 := beats m2 m1 in
  if w1 && negb w2 then alter (λ v, CLib.wrap_int (v + 1)) 0 sc
  else if w2 && negb w1 then alter (λ v, CLib.wrap_int (v + 1)) 1 sc
  else sc.

Definition result_info (m1 m2 : Move) (sc : list Z) : string :=
  CLib.snprintf BUF_SIZE
    ("RESULT:" +:+ String (move_to_char m1) ":" +:+ String (move_to_char m2) ":"
       +:+ CLib.fmt_d (sc !!! 0) +:+ ":" +:+ CLib.fmt_d (sc !!! 1)).

(** The body of [while (1)]; the boolean tells whether the loop goes
    on ([continue] or the end of the body) or is left with [break]. *)
Definition loop_body (it : Iter) (st : State) : State * bool :=
  let st :=
    send (CLib.snprintf BUF_SIZE
            ("INFO:Starting Round " +:+ CLib.fmt_d (round st) +:+ ". Score P1:"
               +:+ CLib.fmt_d (scores st !!! 0) +:+ " P2:" +:+ CLib.fmt_d (scores st !!! 1)
               +:+ CLib.nl +:+ CLib.nl)) st in
  let st := printf "Enter move (R/P/S/L/K), T=reset, Q=quit: " st in
  match wake it with
  | SelectError => (st, false)
  | SelectReady stdin_ready client_ready =>
      if stdin_ready then
        let c := typed it in
        if Ascii.eqb c "Q" then
          (printf ("[Server] You quit." +:+ CLib.nl) (send "QUIT" st), false)
        else if Ascii.eqb c "T" then
          (printf ("[Server] Scores reset." +:+ CLib.nl +:+ CLib.nl)
             (send "RESET" (set_scores (<[1 := 0%Z]> (<[0 := 0%Z]> (scores st))) st)),
           true)
        else
          let m1 := char_to_move c in
          if move_eqb m1 MOVE_INVALID then
            (printf ("Invalid input. Try again." +:+ CLib.nl +:+ CLib.nl) st, true)
          else
            let st :=
              send (CLib.snprintf BUF_SIZE
                      ("INFO:Player1 has made a choice. Your turn." +:+ CLib.nl)) st in
            match reply it with
            | RecvFail => (printf ("[Server] Player2 disconnected." +:+ CLib.nl) st, false)
            | RecvData buf =>
                if (CLib.strncmp buf "QUIT" 4 =? 0)%Z then
                  (printf ("[Server] Player2 quit." +:+ CLib.nl) st, false)
                else if (CLib.strncmp buf "RESET" 5 =? 0)%Z then
                  (printf ("[Server] Scores reset by Player2." +:+ CLib.nl +:+ CLib.nl)
                     (set_scores (<[1 := 0%Z]> (<[0 := 0%Z]> (scores st))) st),
                   true)
                else
                  let m2 :=
                    if (CLib.strncmp buf "MOVE:" 5 =? 0)%Z
                    then char_to_move (CLib.char_at buf 5)
                    else MOVE_INVALID in
                  if move_eqb m2 MOVE_INVALID then
                    (printf ("[Server] Invalid move from Player2." +:+ CLib.nl +:+ CLib.nl) st,
                     true)
                  else
                    let st := set_scores (award m1 m2 (scores st)) st in
                    let info := result_info m1 m2 (scores st) in
                    let st := send info st in
                    let st := printf ("[Server] " +:+ CLib.cstr info +:+ CLib.nl +:+ CLib.nl) st in
                    (next_round st, true)
            end
      else (next_round st, true)
  end.

(** [while (1)] over the iterations the input provides; the boolean
    tells whether the loop was left. *)
Fixpoint game_loop (input : list Iter) (st : State) : State * bool :=
  match input with
  | [] => (st, false)
  | it :: input' =>
      let '(st', go_on) := loop_body it st in
      if go_on : bool then game_loop input' st' else (st', true)
  end.

Definition initial_state : State := mkState [0%Z; 0%Z] 1 [] [].

End Hw5.

(** ** hw3/spock_client.c *)

Module Hw3Client.

Definition BUF_SIZE : nat := 1024.

Inductive RecvResult : Type :=
  | RecvFail
  | RecvData (buffer : string).

Inductive Wake : Type :=
  | SelectError
  | SelectReady (sock_ready stdin_ready : bool).

(** The input of one iteration of the client loop: the result of
    [select], what [recv] yields on the socket, and what [fgets] puts
    into the buffer ([None] when it returns NULL). *)
Record Iter : Type := mkIter {
  wake : Wake;
  reply : RecvResult;
  line : option string
}.

Record State : Type := mkState {
  prompt_needed : bool;
  local_score : Z;
  sent : list string;
  console : list string
}.

Definition printf (text : string) (st : State) : State :=
  mkState (prompt_needed st) (local_score st) (sent st) (console st ++ [text]).

Definition send (msg : string) (st : State) : State :=
  mkState (prompt_needed st) (local_score st) (sent st ++ [msg]) (console st).

Definition set_prompt (b : bool) (st : State) : State :=
  mkState b (local_score st) (sent st) (console st).

Definition menu : string :=
  "Enter command:" +:+ CLib.nl
  +:+ "  R: Rock      P: Paper" +:+ CLib.nl
  +:+ "  S: Scissors  L: Lizard" +:+ CLib.nl
  +:+ "  K: Spock     T: Reset" +:+ CLib.nl
  +:+ "  Q: Quit      M: Show local score" +:+ CLib.nl
  +:+ "Your command: ".

(** Block 1 of the loop body: a message of the server; the boolean is
    [false] when the loop is left with [break]. *)
Definition on_server (res : RecvResult) (st : State) : State * bool :=
  match res with
  | RecvFail => (printf ("[Client] Server closed connection." +:+ CLib.nl) st, false)
  | RecvData buffer =>
      if (CLib.strncmp buffer "QUIT" 4 =? 0)%Z then
        (printf ("[Client] Server signaled QUIT. Exiting..." +:+ CLib.nl) st, false)
      else if (CLib.strncmp buffer "RESET" 5 =? 0)%Z then
        (mkState true 0 (sent st)
           (console st ++ ["[Client] Scores have been reset (server broadcast)." +:+ CLib.nl]),
         true)
      else if (CLib.strncmp buffer "RESULT:" 7 =? 0)%Z then
        (set_prompt true
           (printf ("[Client] Round Result => " +:+ CLib.cstr (CLib.str_drop 7 buffer)
                      +:+ CLib.nl) st),
         true)
      else
        (printf ("[Client] Server says: " +:+ CLib.cstr buffer +:+ CLib.nl) st, true)
  end.

(** Block 2 of the loop body: a line typed by the user. *)
Definition on_keyboard (input : option string) (st : State) : State * bool :=
  match input with
  | None => (printf ("[Client] Error reading input or EOF." +:+ CLib.nl) st, false)
  | Some typed =>
      let buffer := CLib.cut_at CLib.LF (CLib.cstr typed) in
      if bool_decide (String.length buffer = 0) then (st, true)
      else
        let cmd := CLib.char_at buffer 0 in
        if Ascii.eqb cmd "Q" || Ascii.eqb cmd "q" then
          (printf ("[Client] You chose to quit." +:+ CLib.nl) (send "QUIT" st), false)
        else if Ascii.eqb cmd "T" || Ascii.eqb cmd "t" then
          (set_prompt false (send "RESET" st), true)
        else if Ascii.eqb cmd "M" || Ascii.eqb cmd "m" then
          (printf ("[Client] Local Score = " +:+ CLib.fmt_d (local_score st)
                     +:+ " (not official)" +:+ CLib.nl) st,
           true)
        else
          (set_prompt false
             (send (CLib.cstr (CLib.snprintf BUF_SIZE ("MOVE:" +:+ String cmd ""))) st),
           true)
  end.

(** The body of [while (1)]; the boolean tells whether the loop goes on. *)
Definition loop_body (it : Iter) (st : State) : State * bool :=
  let st :=
    if prompt_needed st
    then printf menu
           (printf (CLib.nl +:+ "--------------------------------------------------"
                      +:+ CLib.nl) st)
    else st in
  match wake it with
  | SelectError => (st, false)
  | SelectReady sock_ready stdin_ready =>
      let '(st, go_on) := if sock_ready then on_server (reply it) st else (st, true) in
      if go_on : bool then
        if stdin_ready then on_keyboard (line it) st else (st, true)
      else (st, false)
  end.

(** [while (1)] over the iterations the input provides; the boolean
    tells whether the loop was left. *)
Fixpoint client_loop (input : list Iter) (st : State) : State * bool :=
  match input with
  | [] => (st, false)
  | it :: input' =>
      let '(st', go_on) := loop_body it st in
      if go_on : bool then client_loop input' st' else (st', true)
  end.

Definition initial_state : State := mkState true 0 [] [].

End Hw3Client.

(** ** hw5/Wu/spock_client.c *)

Module Hw5Client.

Definition BUF_SIZE : nat := 1024.

Inductive RecvResult : Type :=
  | RecvFail
  | RecvData (buffer : string).

Inductive Wake : Type :=
  | SelectError
  | SelectReady (stdin_ready sock_ready : bool).

(** The input of one iteration: the result of [select], the first
    character of the line typed, and what [recv] yields on the socket. *)
Record Iter : Type := mkIter {
  wake : Wake;
  typed : ascii;
  reply : RecvResult
}.

Record State : Type := mkState {
  prompt_needed : bool;
  sent : list string;
  console : list string
}.

Definition printf (text : string) (st : State) : State :=
  mkState (prompt_needed st) (sent st) (console st ++ [text]).

Definition send (msg : string) (st : State) : State :=
  mkState (prompt_needed st) (sent st ++ [msg]) (console st).

Definition set_prompt (b : bool) (st : State) : State :=
  mkState b (sent st) (console st).

(** The keyboard block; the boolean is [false] after [break]. *)
Definition on_keyboard (cmd : ascii) (st : State) : State * bool :=
  if Ascii.eqb cmd "Q" || Ascii.eqb cmd "q" then (send "QUIT" st, false)
  else if Ascii.eqb cmd "T" || Ascii.eqb cmd "t" then (send "RESET" st, true)
  else if CLib.strchr "RrPpSsLlKk" cmd then
    (set_prompt false
       (send (CLib.cstr (CLib.snprintf BUF_SIZE ("MOVE:" +:+ String (CLib.toupper cmd) ""))) st),
     true)
  else
    (printf ("Invalid command. Use R/P/S/L/K, T, or Q." +:+ CLib.nl) st, true).

(** The server block. *)
Definition on_server (res : RecvResult) (st : State) : State * bool :=
  match res with
  | RecvFail => (printf ("[Client] Server disconnected." +:+ CLib.nl) st, false)
  | RecvData buffer =>
      if (CLib.strncmp buffer "QUIT" 4 =? 0)%Z then
        (printf ("[Client] Server signaled QUIT. Exiting..." +:+ CLib.nl) st, false)
      else if (CLib.strncmp buffer "RESET" 5 =? 0)%Z then
        (set_prompt true (printf ("[Client] Game reset by server." +:+ CLib.nl) st), true)
      else if (CLib.strncmp buffer "RESULT:" 7 =? 0)%Z then
        (set_prompt true
           (printf ("[Client] Round Result => " +:+ CLib.cstr (CLib.str_drop 7 buffer)
                      +:+ CLib.nl) st),
         true)
      else if (CLib.strncmp buffer "INFO:" 5 =? 0)%Z then
        (set_prompt true
           (printf ("[Server‑INFO] " +:+ CLib.cstr (CLib.str_drop 5 buffer) +:+ CLib.nl) st),
         true)
      else if (CLib.strncmp buffer "PROMPT" 6 =? 0)%Z then (set_prompt true st, true)
      else
        (printf ("[Client] Unknown message: " +:+ CLib.cstr buffer +:+ CLib.nl) st, true)
  end.

(** The body of [while (1)]: the keyboard is only looked at while a
    move is wanted. *)
Definition loop_body (it : Iter) (st : State) : State * bool :=
  let st0 :=
    if prompt_needed st
    then printf "Enter move (R/P/S/L/K), T=reset, Q=quit: " st
    else st in
  match wake it with
  | SelectError => (st0, false)
  | SelectReady stdin_ready sock_ready =>
      let '(st1, go_on) :=
        if prompt_needed st0 && stdin_ready then on_keyboard (typed it) st0
        else (st0, true) in
      if go_on : bool then
        if sock_ready then on_server (reply it) st1 else (st1, true)
      else (st1, false)
  end.

Fixpoint client_loop (input : list Iter) (st : State) : State * bool :=
  match input with
  | [] => (st, false)
  | it :: input' =>
      let '(st', go_on) := loop_body it st in
      if go_on : bool then client_loop input' st' else (st', true)
  end.

Definition initial_state : State := mkState true [] [].

End Hw5Client.

(** * Specification-side notions *)

(** ** The winner engine of hw3 *)

(** Participant [i] is active when its slot holds a playable move. *)
Definition active (mv : list Move) (i : nat) : Prop :=
  ∃ m, mv !! i = Some m ∧ m ≠ MOVE_INVALID.

(** The dominance rule, as the specification words it: nobody else who
    is active beats [i], and [i] beats somebody else who is active. *)
Definition dominant (mv : list Move) (i : nat) : Prop :=
  active mv i
  ∧ (∀ j, j ≠ i → active mv j → Hw3.beats (mv !!! j) (mv !!! i) = false)
  ∧ (∃ j, j ≠ i ∧ active mv j ∧ Hw3.beats (mv !!! i) (mv !!! j) = true).

(** Boolean form of the two tests of the inner loop, and of the rule. *)
Definition beaten_by (mv : list Move) (i j : nat) : bool :=
  negb (bool_decide (i = j)) && negb (move_eqb (mv !!! j) MOVE_INVALID)
  && Hw3.beats (mv !!! j) (mv !!! i).

Definition wins_over (mv : list Move) (i j : nat) : bool :=
  negb (bool_decide (i = j)) && negb (move_eqb (mv !!! j) MOVE_INVALID)
  && Hw3.beats (mv !!! i) (mv !!! j).

Definition dominantb (mv : list Move) (n i : nat) : bool :=
  negb (move_eqb (mv !!! i) MOVE_INVALID)
  && negb (existsb (beaten_by mv i) (seq 0 n))
  && existsb (wins_over mv i) (seq 0 n).

(** ** The beats relation *)

(** What the specification asks of a beats relation at the moves [a]
    and [b]: exactly one direction holds between distinct moves, no move
    beats itself, and a move beats two of the five and loses to two. *)
Definition tournament_at (beats : Move → Move → bool) (a b : Move) : Prop :=
  (a ≠ b → xorb (beats a b) (beats b a) = true)
  ∧ beats a a = false
  ∧ length (List.filter (beats a) playable) = 2
  ∧ length (List.filter (λ x, beats x a) playable) = 2.

(** ** Inbound messages *)

Fixpoint nul_free (s : string) : bool :=
  match s with
  | EmptyString => true
  | String c s' => negb (Ascii.eqb c CLib.NUL) && nul_free s'
  end.

(** A read that ends the session: [recv] failed or returned 0, or the
    bytes start with QUIT. *)
Definition is_quit (res : Hw3.RecvResult) : Prop :=
  match res with
  | Hw3.RecvFail => True
  | Hw3.RecvData buffer => String.prefix "QUIT" buffer = true
  end.

(** A read whose bytes start with RESET. *)
Definition is_reset (res : Hw3.RecvResult) : Prop :=
  match res with
  | Hw3.RecvFail => False
  | Hw3.RecvData buffer => String.prefix "RESET" buffer = true
  end.

(** The commands of the specification. *)
Inductive Command : Type :=
  | CmdMove (m : Move)
  | CmdReset
  | CmdQuit
  | CmdUnrecognized.

(** The letters of the wire protocol, in either case. *)
Definition letter_move (c : ascii) : option Move :=
  if Ascii.eqb (CLib.toupper c) "R" then Some MOVE_ROCK
  else if Ascii.eqb (CLib.toupper c) "P" then Some MOVE_PAPER
  else if Ascii.eqb (CLib.toupper c) "S" then Some MOVE_SCISSORS
  else if Ascii.eqb (CLib.toupper c) "L" then Some MOVE_LIZARD
  else if Ascii.eqb (CLib.toupper c) "K" then Some MOVE_SPOCK
  else None.

(** The parser in the words of the specification: QUIT and RESET are
    prefixes, a move is MOVE: followed by exactly one letter, anything
    else is unrecognized. *)
Definition spec_parse (input : string) : Command :=
  if String.prefix "QUIT" input then CmdQuit
  else if String.prefix "RESET" input then CmdReset
  else if String.prefix "MOVE:" input && bool_decide (String.length input = 6) then
    match letter_move (CLib.char_at input 5) with
    | Some m => CmdMove m
    | None => CmdUnrecognized
    end
  else CmdUnrecognized.

(** The same, except that a move is MOVE: followed by a letter and then
    by anything. *)
Definition prefix_parse (input : string) : Command :=
  if String.prefix "QUIT" input then CmdQuit
  else if String.prefix "RESET" input then CmdReset
  else if String.prefix "MOVE:" input then
    match letter_move (CLib.char_at input 5) with
    | Some m => CmdMove m
    | None => CmdUnrecognized
    end
  else CmdUnrecognized.

(** The loop body of [handle_game] treats the bytes [buffer] read from
    player [i] as the command [parse buffer]: Quit and Reset end the
    round with their flag, a move is recorded in the free slot of [i]
    and counted, and an unrecognized input changes neither the round
    nor the scores nor what was sent, and does not leave the loop. *)
Definition treated_as (parse : string → Command) (numPlayers i : nat)
    (buffer : string) (g : Hw3.Game) (r : Hw3.Round) : Prop :=
  let '(g', r', brk) := Hw3.serve_player numPlayers i (Hw3.RecvData buffer) g r in
  match parse buffer with
  | CmdQuit =>
      brk = true ∧ Hw3.someone_quit r' = true ∧ Hw3.round_over r' = true
  | CmdReset =>
      brk = true ∧ Hw3.someone_reset r' = true ∧ Hw3.round_over r' = true
  | CmdMove m =>
      brk = false
      ∧ r' = Hw3.mkRound (<[i := m]> (Hw3.moves r)) (S (Hw3.moves_received r))
               false (Hw3.someone_quit r) (Hw3.someone_reset r)
      ∧ Hw3.scores g' = Hw3.scores g ∧ Hw3.sent g' = Hw3.sent g
  | CmdUnrecognized =>
      brk = false ∧ r' = r
      ∧ Hw3.scores g' = Hw3.scores g ∧ Hw3.sent g' = Hw3.sent g
  end.

(** ** Session states *)

(** The state of a session that is collecting moves: no flag is raised
    and the arrays have their declared sizes. *)
Definition collecting (numPlayers : nat) (g : Hw3.Game) (r : Hw3.Round) : Prop :=
  Hw3.round_over r = false
  ∧ Hw3.someone_quit r = false
  ∧ Hw3.someone_reset r = false
  ∧ length (Hw3.scores g) = Hw3.MAX_PLAYERS
  ∧ length (Hw3.moves r) = numPlayers.

(** The state in which [handle_game] waits after the input [trace]. *)
Definition game_after (numPlayers : nat) (trace : list Hw3.SelectResult) : Hw3.Game :=
  match Hw3.handle_game numPlayers trace with
  | Hw3.Waiting g _ => g
  | _ => Hw3.initial_game
  end.

Definition round_after (numPlayers : nat) (trace : list Hw3.SelectResult) : Hw3.Round :=
  match Hw3.handle_game numPlayers trace with
  | Hw3.Waiting _ r => r
  | _ => Hw3.new_round numPlayers
  end.

(** ** Further notions *)

(** The ten letters that stand for a move. *)
Definition is_move_letter (c : ascii) : bool :=
  existsb (Ascii.eqb c) (list_ascii_of_string "RrPpSsLlKk").

(** The slots of a round that hold a move. *)
Definition filled (mv : list Move) : list Move :=
  filter (λ m, m ≠ MOVE_INVALID) mv.

(** The game state an outcome of [handle_game] carries. *)
Definition game_of (outcome : Hw3.Outcome) : option Hw3.Game :=
  match outcome with
  | Hw3.Waiting g _ | Hw3.Returned g | Hw3.Ended g | Hw3.Killed g => Some g
  | Hw3.Spins | Hw3.Undefined => None
  end.

(** The game state at the end of the input, whatever the outcome. *)
Definition game_at_end (numPlayers : nat) (trace : list Hw3.SelectResult) : Hw3.Game :=
  default Hw3.initial_game (game_of (Hw3.handle_game numPlayers trace)).

(** The three kinds of message of the multi-player protocol. *)
Definition protocol_message (msg : string) : Prop :=
  msg = "RESET" ∨ msg = "QUIT" ∨ String.prefix "RESULT:" msg = true.

(** 32-bit [int] values. *)
Definition int_range (z : Z) : Prop := (-2147483648 ≤ z ≤ 2147483647)%Z.

(** A read that is none of the three commands: it is there, and its
    bytes start with neither QUIT nor RESET nor MOVE: . *)
Definition is_noise (res : Hw3.RecvResult) : Prop :=
  match res with
  | Hw3.RecvFail => False
  | Hw3.RecvData buffer =>
      String.prefix "QUIT" buffer = false
      ∧ String.prefix "RESET" buffer = false
      ∧ String.prefix "MOVE:" buffer = false
  end.

(** The messages sent to player [k], in the order of sending. *)
Definition inbox (k : nat) (sent : list (nat * string)) : list string :=
  (filter (λ km, km.1 = k) sent).*2.

(** The command character the multi-player client takes from a typed
    line: the first character before the newline. *)
Definition typed_command (typed : string) : ascii :=
  CLib.char_at (CLib.cut_at CLib.LF (CLib.cstr typed)) 0.

(** The messages the two-player client knows. *)
Definition known_to_hw5_client (msg : string) : Prop :=
  String.prefix "QUIT" msg = true
  ∨ String.prefix "RESET" msg = true
  ∨ String.prefix "RESULT:" msg = true
  ∨ String.prefix "INFO:" msg = true.

(** A RESULT message that reports a complete round: all [numPlayers]
    moves are playable and the winners are those the engine finds. *)
Definition reports_full_round (numPlayers : nat) (msg : string) : Prop :=
  ∃ winners mv sc,
    msg = CLib.cstr (Hw3.result_msg numPlayers winners mv sc)
    ∧ length mv = numPlayers
    ∧ Forall (λ m, m ≠ MOVE_INVALID) mv
    ∧ Hw3.determine_multiplayer_winners mv numPlayers = Some winners.

Definition sound_message (numPlayers : nat) (msg : string) : Prop :=
  msg = "RESET" ∨ msg = "QUIT" ∨ reports_full_round numPlayers msg.

(** * Properties *)

Lemma filter_ext_in {A} (P1 P2 : A → Prop)
    `{!∀ x, Decision (P1 x), !∀ x, Decision (P2 x)} (l : list A) :
  (∀ x, x ∈ l → P1 x ↔ P2 x) → filter P1 l = filter P2 l.
Proof.
  induction l as [|a l IH]; intros Hall; [done|].
  rewrite !filter_cons.
  assert (P1 a ↔ P2 a) as Ha by (apply Hall; left).
  rewrite IH by (intros x Hx; apply Hall; by right).
  destruct (decide (P1 a)), (decide (P2 a)); tauto || done.
Qed.

Lemma filter_seq_sorted (P : nat → Prop) `{!∀ x, Decision (P x)} start n :
  StronglySorted lt (filter P (seq start n)).
Proof.
  revert start. induction n as [|n IH]; intros start.
  - constructor.
  - cbn [seq]. rewrite filter_cons. destruct (decide _); [|apply IH].
    constructor; [apply IH|].
    apply Forall_forall. intros x [_ Hx%elem_of_seq]%list_elem_of_filter. lia.
Qed.

Section Winners.

Variable mv : list Move.

Lemma scan_opponents_spec i js any :
  (Hw3.scan_opponents mv i js any).1 = existsb (beaten_by mv i) js
  ∧ ((Hw3.scan_opponents mv i js any).1 = false →
     (Hw3.scan_opponents mv i js any).2 = any || existsb (wins_over mv i) js).
Proof.
  revert any. induction js as [|j js IH]; intros any; simpl.
  - split; [done | by rewrite orb_false_r].
  - unfold beaten_by at 1, wins_over at 1.
    destruct (bool_decide (i = j)); simpl; [apply IH|].
    destruct (move_eqb (mv !!! j) MOVE_INVALID); simpl; [apply IH|].
    destruct (Hw3.beats (mv !!! j) (mv !!! i)); simpl; [done|].
    destruct (Hw3.beats (mv !!! i) (mv !!! j)); simpl.
    + destruct (IH true) as [-> IH2]. split; [done|].
      intros H. rewrite (IH2 H). by rewrite orb_true_r.
    + apply IH.
Qed.

Lemma mark_dominant_spec n flags i :
  Hw3.mark_dominant mv n flags i
  = if dominantb mv n i then <[i := true]> flags else flags.
Proof.
  unfold Hw3.mark_dominant, dominantb.
  destruct (move_eqb (mv !!! i) MOVE_INVALID); simpl; [done|].
  destruct (scan_opponents_spec i (seq 0 n) false) as [H1 H2].
  destruct (Hw3.scan_opponents mv i (seq 0 n) false) as [b a]; simpl in *.
  rewrite <- H1. destruct b; simpl; [done|]. by rewrite H2.
Qed.

(** The flags after the first [k] iterations of the marking loop. *)
Lemma marked_lookup cap n k i :
  k ≤ cap → i < cap →
  foldl (Hw3.mark_dominant mv n) (replicate cap false) (seq 0 k) !! i
  = Some (bool_decide (i < k) && dominantb mv n i).
Proof.
  intros Hk Hi. induction k as [|k IH].
  - cbn [seq foldl]. rewrite lookup_replicate_2 by done.
    by rewrite bool_decide_eq_false_2 by lia.
  - rewrite seq_S, foldl_snoc, mark_dominant_spec. cbn [Nat.add].
    specialize (IH ltac:(lia)).
    destruct (decide (i = k)) as [->|Hne].
    + rewrite bool_decide_eq_true_2 by lia. cbn [andb].
      destruct (dominantb mv n k) eqn:Hd.
      * apply list_lookup_insert_eq. by eapply lookup_lt_Some.
      * rewrite IH. by rewrite andb_false_r.
    + assert (bool_decide (i < S k) = bool_decide (i < k)) as ->.
      { apply bool_decide_ext. lia. }
      destruct (dominantb mv n k); [|done].
      by rewrite list_lookup_insert_ne.
Qed.

Lemma collect_winner_filter flags todo acc :
  foldl (Hw3.collect_winner flags) acc todo
  = acc ++ filter (λ i, flags !!! i = true) todo.
Proof.
  revert acc. induction todo as [|i todo IH]; intros acc; simpl.
  - by rewrite app_nil_r.
  - rewrite IH. unfold Hw3.collect_winner. rewrite filter_cons.
    destruct (flags !!! i) eqn:E.
    + rewrite decide_True by done. by rewrite <- app_assoc.
    + rewrite decide_False by done. done.
Qed.

(** The result of the engine in closed form. *)
Lemma winners_closed_form n :
  n ≤ Hw3.MAX_PLAYERS → n ≤ length mv →
  Hw3.determine_multiplayer_winners mv n
  = Some (filter (λ i, dominantb mv n i = true) (seq 0 n)).
Proof.
  intros Hn Hlen. unfold Hw3.determine_multiplayer_winners.
  rewrite bool_decide_eq_true_2 by done. f_equal.
  rewrite collect_winner_filter. cbn [app].
  apply filter_ext_in. intros i Hi%elem_of_seq.
  assert (i < Hw3.MAX_PLAYERS) as Hi' by lia.
  rewrite (list_lookup_total_correct _ _ _ (marked_lookup _ n n i Hn Hi')).
  rewrite bool_decide_eq_true_2 by lia. done.
Qed.

Lemma active_alt j :
  active mv j ↔ j < length mv ∧ mv !!! j ≠ MOVE_INVALID.
Proof.
  unfold active. split.
  - intros (m & Hm & Hne). split; [by eapply lookup_lt_Some|].
    by rewrite (list_lookup_total_correct _ _ _ Hm).
  - intros [Hlt Hne]. exists (mv !!! j). split; [|done].
    by apply list_lookup_lookup_total_lt.
Qed.

Lemma beaten_by_true i j :
  beaten_by mv i j = true
  ↔ j ≠ i ∧ mv !!! j ≠ MOVE_INVALID ∧ Hw3.beats (mv !!! j) (mv !!! i) = true.
Proof.
  unfold beaten_by, move_eqb.
  rewrite !andb_true_iff, !negb_true_iff, !bool_decide_eq_false.
  intuition congruence.
Qed.

Lemma wins_over_true i j :
  wins_over mv i j = true
  ↔ j ≠ i ∧ mv !!! j ≠ MOVE_INVALID ∧ Hw3.beats (mv !!! i) (mv !!! j) = true.
Proof.
  unfold wins_over, move_eqb.
  rewrite !andb_true_iff, !negb_true_iff, !bool_decide_eq_false.
  intuition congruence.
Qed.

Lemma dominantb_spec i :
  i < length mv → dominantb mv (length mv) i = true ↔ dominant mv i.
Proof.
  intros Hi. unfold dominantb, dominant, move_eqb.
  rewrite !andb_true_iff, !negb_true_iff, bool_decide_eq_false.
  rewrite existsb_exists, active_alt. split.
  - intros [[Hact Hnone] (j & Hj & Hw)]. split; [done|]. split.
    + intros j' Hne [Hlt Hval]%active_alt.
      destruct (Hw3.beats (mv !!! j') (mv !!! i)) eqn:Hb; [|done].
      assert (existsb (beaten_by mv i) (seq 0 (length mv)) = true) as Hex; [|congruence].
      apply existsb_exists. exists j'. split; [apply in_seq; lia|].
      by apply beaten_by_true.
    + apply in_seq in Hj. apply wins_over_true in Hw as (? & ? & ?).
      exists j. rewrite active_alt. repeat split; [done|lia|done|done].
  - intros ([_ Hact] & Hnone & (j & Hne & [Hlt Hval]%active_alt & Hb)).
    split; [split; [done|]|].
    + apply not_true_is_false. intros (j' & Hj' & Hw)%existsb_exists.
      apply in_seq in Hj'. apply beaten_by_true in Hw as (? & ? & Hw).
      rewrite Hnone in Hw; [done|done|]. apply active_alt. split; [lia|done].
    + exists j. split; [apply in_seq; lia|]. by apply wins_over_true.
Qed.

End Winners.

(** Beyond the capacity of [isDominant] the engine has no defined
    result. *)
Lemma winners_capacity (mv : list Move) (numPlayers : nat) :
  Hw3.MAX_PLAYERS < numPlayers → Hw3.determine_multiplayer_winners mv numPlayers = None.
Proof.
  intros Hcap. unfold Hw3.determine_multiplayer_winners.
  rewrite bool_decide_eq_false_2; [done|lia].
Qed.

(** C1. For a move vector of [numPlayers] entries (unset entries are
    [MOVE_INVALID] and take no part), [determine_multiplayer_winners]
    returns the dominant participants in ascending order: exactly the
    indices whose move no other active participant beats and which beat
    the move of some other active participant.  In particular nobody
    wins when all active participants play the same move, nor on
    Rock, Paper, Scissors.  [numPlayers ≤ MAX_PLAYERS] is the capacity
    of the arrays of the program. *)
Theorem winners_are_dominant (mv : list Move) (numPlayers : nat) :
  length mv = numPlayers →
  numPlayers ≤ Hw3.MAX_PLAYERS →
  ∃ winners,
    Hw3.determine_multiplayer_winners mv numPlayers = Some winners
    ∧ StronglySorted lt winners
    ∧ (∀ i, i ∈ winners ↔ dominant mv i)
    ∧ ((∀ i j, active mv i → active mv j → mv !!! i = mv !!! j) → winners = [])
    ∧ Hw3.determine_multiplayer_winners [MOVE_ROCK; MOVE_PAPER; MOVE_SCISSORS] 3
      = Some [].
Proof.
  intros Hlen Hcap. subst numPlayers.
  eexists. split; [by apply winners_closed_form|].
  assert (∀ i, i ∈ filter (λ i, dominantb mv (length mv) i = true) (seq 0 (length mv))
               ↔ dominant mv i) as Hmem.
  { intros i. rewrite list_elem_of_filter, elem_of_seq. split.
    - intros [Hd Hi]. apply dominantb_spec; [lia|done].
    - intros Hd. assert (i < length mv) as Hi.
      { destruct Hd as [(m & Hm & _) _]. by eapply lookup_lt_Some. }
      split; [by apply dominantb_spec|lia]. }
  split; [|split; [done|split; [|done]]].
  - apply filter_seq_sorted.
  - intros Hsame.
    destruct (filter _ _) as [|i rest] eqn:E; [done|].
    assert (dominant mv i) as (Hi & _ & (j & _ & Hj & Hb)).
    { apply Hmem. left. }
    rewrite (Hsame i j Hi Hj) in Hb.
    by destruct (mv !!! j).
Qed.

Lemma winners_are_dominant_witness :
  ∃ winners,
    Hw3.determine_multiplayer_winners
      [MOVE_SPOCK; MOVE_INVALID; MOVE_ROCK; MOVE_SPOCK; MOVE_SCISSORS] 5 = Some winners
    ∧ StronglySorted lt winners
    ∧ (∀ i, i ∈ winners
            ↔ dominant [MOVE_SPOCK; MOVE_INVALID; MOVE_ROCK; MOVE_SPOCK; MOVE_SCISSORS] i)
    ∧ ((∀ i j,
          active [MOVE_SPOCK; MOVE_INVALID; MOVE_ROCK; MOVE_SPOCK; MOVE_SCISSORS] i →
          active [MOVE_SPOCK; MOVE_INVALID; MOVE_ROCK; MOVE_SPOCK; MOVE_SCISSORS] j →
          [MOVE_SPOCK; MOVE_INVALID; MOVE_ROCK; MOVE_SPOCK; MOVE_SCISSORS] !!! i
          = [MOVE_SPOCK; MOVE_INVALID; MOVE_ROCK; MOVE_SPOCK; MOVE_SCISSORS] !!! j) →
       winners = [])
    ∧ Hw3.determine_multiplayer_winners [MOVE_ROCK; MOVE_PAPER; MOVE_SCISSORS] 3
      = Some [].
Proof.
  apply (winners_are_dominant
           [MOVE_SPOCK; MOVE_INVALID; MOVE_ROCK; MOVE_SPOCK; MOVE_SCISSORS] 5).
  - reflexivity.
  - unfold Hw3.MAX_PLAYERS. lia.
Defined.

(** ** The beats relation *)

(** C2. Over the five moves, [beats] is a tournament in both servers:
    between two distinct moves exactly one direction holds, no move
    beats itself, and every move beats exactly two moves and is beaten
    by exactly two. *)
Theorem beats_is_tournament (a b : Move) :
  a ≠ MOVE_INVALID → b ≠ MOVE_INVALID →
  tournament_at Hw3.beats a b ∧ tournament_at Hw5.beats a b.
Proof.
  intros Ha Hb. unfold tournament_at.
  destruct a, b; try done; repeat split; try done; intros []; done.
Qed.

Lemma beats_is_tournament_witness :
  tournament_at Hw3.beats MOVE_LIZARD MOVE_SPOCK
  ∧ tournament_at Hw5.beats MOVE_LIZARD MOVE_SPOCK.
Proof.
  apply (beats_is_tournament MOVE_LIZARD MOVE_SPOCK); discriminate.
Defined.

(** ** Two players *)

(** C4. With two participants the engine of hw3 is the classical
    two-player rule: the winners are [[i]] exactly when the move of [i]
    beats the move of [1 - i], and nobody wins otherwise.  The scores
    it awards are those the two-player server of hw5 awards from
    [beats(m1, m2)] and [beats(m2, m1)]. *)
Theorem two_players_classical (m0 m1 : Move) :
  ∃ winners,
    Hw3.determine_multiplayer_winners [m0; m1] 2 = Some winners
    ∧ (winners = [0] ↔ Hw3.beats m0 m1 = true)
    ∧ (winners = [1] ↔ Hw3.beats m1 m0 = true)
    ∧ (winners = [] ↔ Hw3.beats m0 m1 = false ∧ Hw3.beats m1 m0 = false)
    ∧ (winners = [0] ∨ winners = [1] ∨ winners = [])
    ∧ Hw5.beats m0 m1 = Hw3.beats m0 m1
    ∧ Hw5.beats m1 m0 = Hw3.beats m1 m0
    ∧ ∀ s0 s1 : Z, Hw3.award winners [s0; s1] = Hw5.award m0 m1 [s0; s1].
Proof.
  destruct m0, m1; eexists; (split; [reflexivity|]);
    repeat split; try done; auto; intros []; done.
Qed.

(** ** A resolved round *)

(** C3. Three participants, moves Rock, Rock, Scissors, all scores zero:
    the winners are the participants 1 and 2 (indices 0 and 1), their
    scores become 1, and the message sent to every participant, one
    [send] per channel in index order and nothing else, is
    RESULT:1,2:Rock,Rock,Scissors:1,1,0 .  The same from the start of a
    session when the three moves arrive one after the other. *)
Theorem rock_rock_scissors (sent0 : list (nat * string)) (console0 : list string) :
  Hw3.determine_multiplayer_winners [MOVE_ROCK; MOVE_ROCK; MOVE_SCISSORS] 3
  = Some [0; 1]
  ∧ (∃ g,
       Hw3.resolve 3
         (Hw3.mkGame (replicate Hw3.MAX_PLAYERS 0%Z) sent0 console0)
         (Hw3.mkRound [MOVE_ROCK; MOVE_ROCK; MOVE_SCISSORS] 3 false false false)
       = Some g
       ∧ take 3 (Hw3.scores g) = [1%Z; 1%Z; 0%Z]
       ∧ Hw3.sent g
         = sent0 ++ [(0, "RESULT:1,2:Rock,Rock,Scissors:1,1,0");
                     (1, "RESULT:1,2:Rock,Rock,Scissors:1,1,0");
                     (2, "RESULT:1,2:Rock,Rock,Scissors:1,1,0")])
  ∧ (∃ g r,
       Hw3.handle_game 3
         [Hw3.SelectReady [None; Some (Hw3.RecvData "MOVE:R"); None];
          Hw3.SelectReady [None; None; Some (Hw3.RecvData "MOVE:S")];
          Hw3.SelectReady [Some (Hw3.RecvData "MOVE:R"); None; None]]
       = Hw3.Waiting g r
       ∧ take 3 (Hw3.scores g) = [1%Z; 1%Z; 0%Z]
       ∧ Hw3.sent g
         = [(0, "RESULT:1,2:Rock,Rock,Scissors:1,1,0");
            (1, "RESULT:1,2:Rock,Rock,Scissors:1,1,0");
            (2, "RESULT:1,2:Rock,Rock,Scissors:1,1,0")]).
Proof.
  split; [reflexivity|]. split.
  - eexists. split; [reflexivity|]. split; reflexivity.
  - do 2 eexists. split; [vm_compute; reflexivity|]. split; reflexivity.
Qed.

(** ** Inbound messages *)

Lemma uchar_inj c1 c2 : CLib.uchar c1 = CLib.uchar c2 → c1 = c2.
Proof.
  unfold CLib.uchar. intros H%(inj Z.of_N).
  rewrite <- (ascii_N_embedding c1), <- (ascii_N_embedding c2). by rewrite H.
Qed.

(** [strncmp] against a literal is a prefix test. *)
Lemma strncmp_prefix lit s :
  nul_free lit = true →
  (CLib.strncmp s lit (String.length lit) =? 0)%Z = String.prefix lit s.
Proof.
  revert s. induction lit as [|a lit IH]; intros s Hnul.
  - by destruct s.
  - cbn [nul_free] in Hnul. apply andb_true_iff in Hnul as [Ha Hnul].
    apply negb_true_iff, Ascii.eqb_neq in Ha.
    cbn [String.length CLib.strncmp].
    destruct s as [|c s]; cbn [CLib.char_at String.get CLib.str_tail String.prefix].
    + destruct (Ascii.eqb_spec CLib.NUL a) as [Heq|Hne]; [congruence|]. cbn [negb].
      apply Z.eqb_neq. intros H. apply Hne, uchar_inj. lia.
    + destruct (Ascii.eqb_spec c a) as [->|Hne]; cbn [negb].
      * destruct (Ascii.eqb_spec a CLib.NUL) as [Heq|_]; [congruence|].
        destruct (ascii_dec a a); [|done]. by apply IH.
      * destruct (ascii_dec a c) as [->|_]; [done|].
        apply Z.eqb_neq. intros H. apply Hne, uchar_inj. lia.
Qed.

Lemma strncmp_QUIT b :
  (CLib.strncmp b "QUIT" 4 =? 0)%Z = String.prefix "QUIT" b.
Proof. exact (strncmp_prefix "QUIT" b eq_refl). Qed.

Lemma strncmp_RESET b :
  (CLib.strncmp b "RESET" 5 =? 0)%Z = String.prefix "RESET" b.
Proof. exact (strncmp_prefix "RESET" b eq_refl). Qed.

Lemma strncmp_MOVE b :
  (CLib.strncmp b "MOVE:" 5 =? 0)%Z = String.prefix "MOVE:" b.
Proof. exact (strncmp_prefix "MOVE:" b eq_refl). Qed.

Lemma prefix_head a lit s :
  String.prefix (String a lit) s = true → ∃ s', s = String a s'.
Proof.
  destruct s as [|c s]; [done|]. cbn [String.prefix].
  destruct (ascii_dec a c) as [->|]; [eauto|done].
Qed.

Lemma quit_not_reset b :
  String.prefix "QUIT" b = true → String.prefix "RESET" b = false.
Proof. intros [s' ->]%prefix_head. reflexivity. Qed.

Lemma move_not_quit b :
  String.prefix "MOVE:" b = true → String.prefix "QUIT" b = false.
Proof. intros [s' ->]%prefix_head. reflexivity. Qed.

Lemma move_not_reset b :
  String.prefix "MOVE:" b = true → String.prefix "RESET" b = false.
Proof. intros [s' ->]%prefix_head. reflexivity. Qed.

(** ** One channel of one pass *)

Lemma serve_quit n i res g r :
  is_quit res →
  ∃ g' r',
    Hw3.serve_player n i res g r = (g', r', true)
    ∧ Hw3.someone_quit r' = true ∧ Hw3.round_over r' = true
    ∧ Hw3.sent g' = Hw3.sent g ∧ Hw3.scores g' = Hw3.scores g.
Proof.
  destruct res as [|b]; cbn [is_quit Hw3.serve_player]; intros Hq.
  - by do 2 eexists.
  - rewrite strncmp_QUIT, Hq. by do 2 eexists.
Qed.

Lemma serve_reset n i res g r :
  ¬ is_quit res → is_reset res →
  ∃ g' r',
    Hw3.serve_player n i res g r = (g', r', true)
    ∧ Hw3.someone_reset r' = true ∧ Hw3.round_over r' = true
    ∧ Hw3.someone_quit r' = Hw3.someone_quit r
    ∧ Hw3.sent g' = Hw3.sent g ++ Hw3.broadcast n "RESET"
    ∧ Hw3.scores g' = foldl (λ sc k, <[k := 0%Z]> sc) (Hw3.scores g) (seq 0 n).
Proof.
  destruct res as [|b]; cbn [is_quit is_reset Hw3.serve_player]; intros Hq Hr; [done|].
  rewrite strncmp_QUIT, strncmp_RESET, Hr.
  destruct (String.prefix "QUIT" b); [done|]. by do 2 eexists.
Qed.

Lemma serve_other n i res g r :
  ¬ is_quit res → ¬ is_reset res →
  ∃ g' r',
    Hw3.serve_player n i res g r = (g', r', Hw3.round_over r)
    ∧ Hw3.round_over r' = Hw3.round_over r
    ∧ Hw3.someone_quit r' = Hw3.someone_quit r
    ∧ Hw3.someone_reset r' = Hw3.someone_reset r
    ∧ Hw3.sent g' = Hw3.sent g ∧ Hw3.scores g' = Hw3.scores g.
Proof.
  destruct res as [|b]; cbn [is_quit is_reset Hw3.serve_player]; intros Hq Hr; [done|].
  rewrite strncmp_QUIT, strncmp_RESET, strncmp_MOVE.
  destruct (String.prefix "QUIT" b); [done|].
  destruct (String.prefix "RESET" b); [done|].
  destruct (String.prefix "MOVE:" b); [|by do 2 eexists].
  destruct (_ && _); by do 2 eexists.
Qed.

Lemma is_quit_dec res : is_quit res ∨ ¬ is_quit res.
Proof.
  destruct res as [|b]; cbn [is_quit]; [by left|].
  destruct (String.prefix "QUIT" b); [by left | by right].
Qed.

Lemma is_reset_dec res : is_reset res ∨ ¬ is_reset res.
Proof.
  destruct res as [|b]; cbn [is_reset]; [tauto|].
  destruct (String.prefix "RESET" b); [by left | by right].
Qed.


(** ** One pass over the players *)

Lemma poll_quit n ready before i after res g r :
  Hw3.round_over r = false →
  ready !! i = Some (Some res) → is_quit res →
  (∀ j res', j ∈ before → ready !! j = Some (Some res') → ¬ is_reset res') →
  ∃ g' r',
    Hw3.poll n ready (before ++ i :: after) g r = (g', r')
    ∧ Hw3.someone_quit r' = true ∧ Hw3.round_over r' = true
    ∧ Hw3.sent g' = Hw3.sent g ∧ Hw3.scores g' = Hw3.scores g.
Proof.
  intros Hover Hi Hq. revert g r Hover.
  induction before as [|j before IH]; intros g r Hover Hbefore; cbn [app Hw3.poll].
  - rewrite Hi. destruct (serve_quit n i res g r Hq) as (g' & r' & -> & ?).
    by exists g', r'.
  - assert (∀ j' res', j' ∈ before → ready !! j' = Some (Some res') → ¬ is_reset res')
      as Hbefore' by (intros ????; eapply Hbefore; [by right|done]).
    destruct (ready !! j) as [[res'|]|] eqn:Hj; [|by apply IH..].
    destruct (is_quit_dec res') as [Hq'|Hq'].
    + destruct (serve_quit n j res' g r Hq') as (g' & r' & -> & ?).
      by exists g', r'.
    + destruct (serve_other n j res' g r Hq') as (g' & r' & -> & Ho & _ & _ & Hs & Hsc).
      { eapply Hbefore; [by left|done]. }
      rewrite Hover. rewrite <- Hs, <- Hsc. apply IH; [congruence|done].
Qed.


Lemma zero_scores_length (sc : list Z) todo :
  length (foldl (λ sc k, <[k := 0%Z]> sc) sc todo) = length sc.
Proof.
  revert sc. induction todo as [|k todo IH]; intros sc; [done|].
  cbn [foldl]. by rewrite IH, length_insert.
Qed.


Lemma serve_frame n i res g r g' r' brk :
  Hw3.serve_player n i res g r = (g', r', brk) →
  length (Hw3.scores g') = length (Hw3.scores g)
  ∧ length (Hw3.moves r') = length (Hw3.moves r)
  ∧ brk = Hw3.round_over r'
  ∧ (Hw3.round_over r' = false →
     Hw3.someone_quit r' = Hw3.someone_quit r
     ∧ Hw3.someone_reset r' = Hw3.someone_reset r).
Proof.
  destruct res as [|b]; cbn [Hw3.serve_player].
  - by intros [= <- <- <-].
  - destruct (_ =? _)%Z; [by intros [= <- <- <-]|].
    destruct (_ =? _)%Z.
    { intros [= <- <- <-]. cbn. by rewrite zero_scores_length. }
    destruct (_ =? _)%Z; [|by intros [= <- <- <-]].
    destruct (_ && _); intros [= <- <- <-]; cbn; [|done].
    by rewrite length_insert.
Qed.

Lemma poll_frame n ready todo g r g' r' :
  Hw3.poll n ready todo g r = (g', r') →
  length (Hw3.scores g') = length (Hw3.scores g)
  ∧ length (Hw3.moves r') = length (Hw3.moves r)
  ∧ (Hw3.round_over r' = false →
     Hw3.someone_quit r' = Hw3.someone_quit r
     ∧ Hw3.someone_reset r' = Hw3.someone_reset r).
Proof.
  revert g r. induction todo as [|i todo IH]; intros g r; cbn [Hw3.poll].
  - by intros [= <- <-].
  - destruct (ready !! i) as [[res|]|]; [|apply IH..].
    destruct (Hw3.serve_player n i res g r) as [[g1 r1] brk] eqn:E.
    apply serve_frame in E as (Hsc & Hmv & -> & Hflags).
    destruct (Hw3.round_over r1) eqn:Hover.
    + intros [= <- <-]. rewrite Hover. by repeat split.
    + intros (? & ? & Hf)%IH. destruct (Hflags eq_refl) as [? ?].
      split; [congruence|]. split; [congruence|].
      intros Hf'. destruct (Hf Hf'). split; congruence.
Qed.

Lemma award_length winners (sc : list Z) :
  length (Hw3.award winners sc) = length sc.
Proof.
  unfold Hw3.award. revert sc.
  induction winners as [|w winners IH]; intros sc; [done|].
  cbn [foldl]. by rewrite IH, length_alter.
Qed.

Lemma resolve_length n g r g' :
  Hw3.resolve n g r = Some g' → length (Hw3.scores g') = length (Hw3.scores g).
Proof.
  unfold Hw3.resolve.
  destruct (Hw3.determine_multiplayer_winners (Hw3.moves r) n) as [winners|]; [|done].
  cbn [mbind option_bind]. intros [= <-]. cbn [Hw3.send_all Hw3.scores].
  destruct (bool_decide _); [done|].
  cbn [Hw3.scores]. by rewrite award_length.
Qed.

Lemma resolve_sent n g r g' :
  Hw3.resolve n g r = Some g' →
  ∃ winners,
    Hw3.determine_multiplayer_winners (Hw3.moves r) n = Some winners
    ∧ Hw3.sent g'
      = Hw3.sent g
          ++ Hw3.broadcast n (CLib.cstr (Hw3.result_msg n winners (Hw3.moves r) (Hw3.scores g'))).
Proof.
  unfold Hw3.resolve.
  destruct (Hw3.determine_multiplayer_winners (Hw3.moves r) n) as [winners|]; [|done].
  cbn [mbind option_bind]. intros [= <-]. exists winners. split; [done|].
  cbn [Hw3.send_all Hw3.sent Hw3.scores]. by destruct (bool_decide _).
Qed.

Lemma new_round_collecting n g :
  length (Hw3.scores g) = Hw3.MAX_PLAYERS → collecting n g (Hw3.new_round n).
Proof.
  intros Hlen. repeat split; [done|]. cbn. by rewrite length_replicate.
Qed.

(** A session that waits for input is collecting moves. *)
Lemma rounds_collecting n trace g r g' r' :
  collecting n g r → Hw3.rounds n trace g r = Hw3.Waiting g' r' → collecting n g' r'.
Proof.
  revert g r. induction trace as [|[|ready|ready k] trace IH]; intros g r Hc; cbn [Hw3.rounds].
  - by intros [= <- <-].
  - done.
  - destruct Hc as (Hover & Hq & Hr & Hsc & Hmv).
    destruct (Hw3.poll n ready (seq 0 n) g r) as [g1 r1] eqn:E.
    apply poll_frame in E as (Hsc1 & Hmv1 & Hflags).
    destruct (bool_decide (Hw3.moves_received r1 < n) && negb (Hw3.round_over r1)) eqn:Hgo.
    { apply andb_true_iff in Hgo as [_ Hgo%negb_true_iff].
      destruct (Hflags Hgo). apply IH. repeat split; congruence. }
    clear Hgo Hflags.
    destruct (Hw3.someone_quit r1); [done|].
    assert (collecting n g1 (Hw3.new_round n)) as Hnew
      by (apply new_round_collecting; congruence).
    destruct (Hw3.someone_reset r1); [by apply IH|].
    destruct (bool_decide (Hw3.moves_received r1 = n)); [|by apply IH].
    destruct (Hw3.resolve n g1 r1) as [g2|] eqn:Hres; [|done].
    apply IH, new_round_collecting. apply resolve_length in Hres. congruence.
  - destruct Hc as (Hover & Hq & Hr & Hsc & Hmv).
    destruct (Hw3.poll n ready (seq 0 n) g r) as [g1 r1] eqn:E.
    apply poll_frame in E as (Hsc1 & Hmv1 & Hflags).
    destruct (bool_decide (Hw3.moves_received r1 < n) && negb (Hw3.round_over r1)) eqn:Hgo.
    { apply andb_true_iff in Hgo as [_ Hgo%negb_true_iff].
      destruct (Hflags Hgo). apply IH. repeat split; congruence. }
    clear Hgo Hflags.
    destruct (Hw3.someone_quit r1); [by destruct (bool_decide (k < n))|].
    assert (collecting n g1 (Hw3.new_round n)) as Hnew
      by (apply new_round_collecting; congruence).
    destruct (Hw3.someone_reset r1); [destruct (bool_decide (k < n)); [done|by apply IH]|].
    destruct (bool_decide (Hw3.moves_received r1 = n)); [|by apply IH].
    destruct (Hw3.resolve n g1 r1) as [g2|] eqn:Hres; [|done].
    destruct (bool_decide (k < n)); [done|].
    apply IH, new_round_collecting. apply resolve_length in Hres. congruence.
Qed.

Lemma handle_game_collecting n trace g r :
  Hw3.handle_game n trace = Hw3.Waiting g r → collecting n g r ∧ 0 < n ≤ Hw3.MAX_PLAYERS.
Proof.
  unfold Hw3.handle_game. do 2 (case_bool_decide; [done|]).
  intros Hrun. split; [|lia]. eapply rounds_collecting; [|done].
  by apply new_round_collecting.
Qed.

(** Input that arrives later is served from the state reached so far. *)
Lemma rounds_app n trace1 trace2 g r :
  Hw3.rounds n (trace1 ++ trace2) g r
  = match Hw3.rounds n trace1 g r with
    | Hw3.Waiting g' r' => Hw3.rounds n trace2 g' r'
    | outcome => outcome
    end.
Proof.
  revert g r. induction trace1 as [|[|ready|ready k] trace1 IH]; intros g r;
    cbn [app Hw3.rounds]; [done..| |].
  - destruct (Hw3.poll n ready (seq 0 n) g r) as [g1 r1].
    repeat (destruct (_ : bool); try done).
    by destruct (Hw3.resolve n g1 r1).
  - destruct (Hw3.poll n ready (seq 0 n) g r) as [g1 r1].
    destruct (_ && _); [done|].
    destruct (Hw3.someone_quit r1); [by destruct (bool_decide (k < n))|].
    destruct (Hw3.someone_reset r1); [by destruct (bool_decide (k < n))|].
    destruct (bool_decide (Hw3.moves_received r1 = n)); [|done].
    destruct (Hw3.resolve n g1 r1); [|done].
    by destruct (bool_decide (k < n)).
Qed.

Lemma handle_game_app n trace1 trace2 g r :
  Hw3.handle_game n trace1 = Hw3.Waiting g r →
  Hw3.handle_game n (trace1 ++ trace2) = Hw3.rounds n trace2 g r.
Proof.
  unfold Hw3.handle_game. do 2 (case_bool_decide; [done|]).
  intros Hrun. by rewrite rounds_app, Hrun.
Qed.

Lemma seq_split_at n i : i < n → seq 0 n = seq 0 i ++ i :: seq (S i) (n - S i).
Proof.
  intros Hi. replace n with (i + S (n - S i)) at 1 by lia.
  by rewrite seq_app.
Qed.

(** ** What a participant is sent *)

Lemma inbox_fmap_seq k msg a len :
  inbox k ((λ j, (j, msg)) <$> seq a len)
  = if bool_decide (a ≤ k < a + len) then [msg] else [].
Proof.
  unfold inbox. revert a. induction len as [|len IH]; intros a.
  - cbn. by rewrite bool_decide_eq_false_2 by lia.
  - cbn [seq fmap list_fmap]. rewrite filter_cons. cbn [fst].
    change (list_fmap ?A ?B ?f ?l) with (f <$> l) in *.
    destruct (decide (a = k)) as [->|Hne].
    + rewrite fmap_cons, IH. cbn [snd].
      rewrite bool_decide_eq_false_2 by lia. by rewrite bool_decide_eq_true_2 by lia.
    + rewrite IH. case_bool_decide; [by rewrite bool_decide_eq_true_2 by lia|].
      by rewrite bool_decide_eq_false_2 by lia.
Qed.

Lemma inbox_broadcast k n msg : k < n → inbox k (Hw3.broadcast n msg) = [msg].
Proof.
  intros Hk. unfold Hw3.broadcast.
  rewrite inbox_fmap_seq. by rewrite bool_decide_eq_true_2 by lia.
Qed.

Lemma inbox_app k sent1 sent2 : inbox k (sent1 ++ sent2) = inbox k sent1 ++ inbox k sent2.
Proof. unfold inbox. by rewrite filter_app, fmap_app. Qed.

Lemma broadcast_take n k msg :
  k ≤ n → take k (Hw3.broadcast n msg) = (λ j, (j, msg)) <$> seq 0 k.
Proof.
  intros Hk. unfold Hw3.broadcast. rewrite <- fmap_take, take_seq.
  by replace (k `min` n) with k by lia.
Qed.

(** The process killed at the call for player [k] has made the calls
    for the players before [k]. *)
Lemma killed_at_sent n k g (before : list (nat * string)) msg :
  k ≤ n → Hw3.sent g = before ++ Hw3.broadcast n msg →
  Hw3.sent (Hw3.killed_at n k g) = before ++ ((λ j, (j, msg)) <$> seq 0 k).
Proof.
  intros Hk Hsent. cbn [Hw3.killed_at Hw3.sent]. rewrite Hsent, length_app.
  unfold Hw3.broadcast at 1. rewrite length_fmap, length_seq.
  replace (length before + n - (n - k)) with (length before + k) by lia.
  by rewrite take_app_add, broadcast_take.
Qed.

(** ** Quit and disconnection *)

(** C5. When a pass over the channels reads QUIT, a zero-length read or
    a read error on the channel of a participant [i] (no channel before
    [i] in that pass carries RESET, which would end the pass first), the
    round is over whatever was collected before and in that pass, also
    when the pass completes the moves of the round, and the program
    enters the QUIT loop; no RESULT is sent.

    When every [send] of that loop returns, the session ends as
    announced: one QUIT per channel in index order, nothing else, scores
    untouched, and [handle_game] comes back.

    But the loop calls [send] with flags 0 on every channel, the one
    that has just failed included, and SIGPIPE is left at its default:
    when the call for participant [cut] raises it, as it does on a
    channel whose [recv] has just reported a reset, the process is
    terminated there.  QUIT has then been sent to the participants
    before [cut] only, the participants from [cut] on are sent nothing,
    and [handle_game] does not come back. *)
Theorem quit_ends_session (numPlayers : nat)
    (before : list Hw3.SelectResult) (ready : list (option Hw3.RecvResult))
    (after : list Hw3.SelectResult) (g : Hw3.Game) (r : Hw3.Round)
    (i : nat) (res : Hw3.RecvResult) :
  Hw3.handle_game numPlayers before = Hw3.Waiting g r →
  i < numPlayers →
  ready !! i = Some (Some res) →
  is_quit res →
  (∀ j res', j < i → ready !! j = Some (Some res') → ¬ is_reset res') →
  (∃ g',
     Hw3.handle_game numPlayers (before ++ Hw3.SelectReady ready :: after) = Hw3.Ended g'
     ∧ Hw3.sent g' = Hw3.sent g ++ ((λ k, (k, "QUIT")) <$> seq 0 numPlayers)
     ∧ (∀ k, k < numPlayers → inbox k (Hw3.sent g') = inbox k (Hw3.sent g) ++ ["QUIT"])
     ∧ Hw3.scores g' = Hw3.scores g)
  ∧ (∀ cut, cut < numPlayers →
     ∃ g',
       Hw3.handle_game numPlayers (before ++ Hw3.SelectReadyPipe ready cut :: after)
       = Hw3.Killed g'
       ∧ Hw3.sent g' = Hw3.sent g ++ ((λ k, (k, "QUIT")) <$> seq 0 cut)
       ∧ (∀ k, k < cut → inbox k (Hw3.sent g') = inbox k (Hw3.sent g) ++ ["QUIT"])
       ∧ (∀ k, cut ≤ k → inbox k (Hw3.sent g') = inbox k (Hw3.sent g))
       ∧ Hw3.scores g' = Hw3.scores g).
Proof.
  intros Hrun Hi Hready Hq Hbefore.
  destruct (handle_game_collecting _ _ _ _ Hrun) as [(Hover & _) _].
  destruct (poll_quit numPlayers ready (seq 0 i) i (seq (S i) (numPlayers - S i))
              res g r Hover Hready Hq)
    as (g1 & r1 & Hpoll & Hq1 & Hover1 & Hsent & Hscores).
  { intros j res' Hj%elem_of_seq. apply Hbefore. lia. }
  rewrite <- (seq_split_at numPlayers i Hi) in Hpoll.
  split.
  - rewrite (handle_game_app _ _ _ _ _ Hrun). cbn [Hw3.rounds].
    rewrite Hpoll, Hover1, Hq1, andb_false_r.
    eexists. split; [done|].
    cbn [Hw3.send_all Hw3.printf Hw3.sent Hw3.scores]. rewrite Hsent, Hscores.
    split; [done|]. split; [|done].
    intros k Hk. unfold Hw3.broadcast. rewrite inbox_app, inbox_fmap_seq.
    by rewrite bool_decide_eq_true_2 by lia.
  - intros cut Hcut.
    rewrite (handle_game_app _ _ _ _ _ Hrun). cbn [Hw3.rounds].
    rewrite Hpoll, Hover1, Hq1, andb_false_r.
    rewrite bool_decide_eq_true_2 by done.
    eexists. split; [done|].
    assert (Hw3.sent (Hw3.killed_at numPlayers cut (Hw3.send_all numPlayers "QUIT" g1))
            = Hw3.sent g ++ ((λ k, (k, "QUIT")) <$> seq 0 cut)) as Hkilled.
    { apply killed_at_sent; [lia|]. cbn. by rewrite Hsent. }
    split; [done|]. rewrite Hkilled. split; [|split; [|done]].
    + intros k Hk. rewrite inbox_app, inbox_fmap_seq.
      by rewrite bool_decide_eq_true_2 by lia.
    + intros k Hk. rewrite inbox_app, inbox_fmap_seq.
      rewrite bool_decide_eq_false_2 by lia. apply app_nil_r.
Qed.

Lemma quit_ends_session_witness :
  (∃ g',
     Hw3.handle_game 3
       ([Hw3.SelectReady [Some (Hw3.RecvData "MOVE:R"); Some (Hw3.RecvData "MOVE:R");
                          Some (Hw3.RecvData "MOVE:S")]]
          ++ Hw3.SelectReady [Some Hw3.RecvFail; None; None] :: [])
     = Hw3.Ended g'
     ∧ Hw3.sent g'
       = [(0, "RESULT:1,2:Rock,Rock,Scissors:1,1,0");
          (1, "RESULT:1,2:Rock,Rock,Scissors:1,1,0");
          (2, "RESULT:1,2:Rock,Rock,Scissors:1,1,0")]
           ++ [(0, "QUIT"); (1, "QUIT"); (2, "QUIT")])
  ∧ (∃ g',
       Hw3.handle_game 3
         ([Hw3.SelectReady [Some (Hw3.RecvData "MOVE:R"); Some (Hw3.RecvData "MOVE:R");
                            Some (Hw3.RecvData "MOVE:S")]]
            ++ Hw3.SelectReadyPipe [Some Hw3.RecvFail; None; None] 0 :: [])
       = Hw3.Killed g'
       ∧ Hw3.sent g'
         = [(0, "RESULT:1,2:Rock,Rock,Scissors:1,1,0");
            (1, "RESULT:1,2:Rock,Rock,Scissors:1,1,0");
            (2, "RESULT:1,2:Rock,Rock,Scissors:1,1,0")]
             ++ []
       ∧ (∀ k, 0 ≤ k → inbox k (Hw3.sent g') =
                        inbox k [(0, "RESULT:1,2:Rock,Rock,Scissors:1,1,0");
                                 (1, "RESULT:1,2:Rock,Rock,Scissors:1,1,0");
                                 (2, "RESULT:1,2:Rock,Rock,Scissors:1,1,0")])).
Proof.
  destruct (quit_ends_session 3
              [Hw3.SelectReady [Some (Hw3.RecvData "MOVE:R"); Some (Hw3.RecvData "MOVE:R");
                                Some (Hw3.RecvData "MOVE:S")]]
              [Some Hw3.RecvFail; None; None] []
              (game_after 3
                 [Hw3.SelectReady [Some (Hw3.RecvData "MOVE:R"); Some (Hw3.RecvData "MOVE:R");
                                   Some (Hw3.RecvData "MOVE:S")]])
              (round_after 3
                 [Hw3.SelectReady [Some (Hw3.RecvData "MOVE:R"); Some (Hw3.RecvData "MOVE:R");
                                   Some (Hw3.RecvData "MOVE:S")]])
              0 Hw3.RecvFail) as [Hended Hkilled].
  - vm_compute. reflexivity.
  - lia.
  - reflexivity.
  - exact I.
  - intros j res' Hj. lia.
  - split.
    + destruct Hended as (g' & Hrun & Hsent & _). exists g'. split; [exact Hrun|exact Hsent].
    + destruct (Hkilled 0 ltac:(lia)) as (g' & Hrun & Hsent & _ & Hinbox & _).
      exists g'. split; [exact Hrun|]. split; [exact Hsent|exact Hinbox].
Defined.

(** ** Reset *)



(** ** The parser *)

Lemma letter_move_char_to_move c :
  letter_move c
  = if move_eqb (Hw3.char_to_move c) MOVE_INVALID then None
    else Some (Hw3.char_to_move c).
Proof. destruct c as [[] [] [] [] [] [] [] []]; reflexivity. Qed.

(** C8, as stated, fails: MOVE:Rock is not MOVE: followed by exactly one
    letter, so the parser of the specification calls it unrecognized,
    but the server records Rock for the sender and counts the move. *)
Lemma exactly_one_letter_counterexample :
  spec_parse "MOVE:Rock" = CmdUnrecognized
  ∧ Hw3.moves_received
      (Hw3.serve_player 2 0 (Hw3.RecvData "MOVE:Rock")
         Hw3.initial_game (Hw3.new_round 2)).1.2 = 1
  ∧ ¬ treated_as spec_parse 2 0 "MOVE:Rock" Hw3.initial_game (Hw3.new_round 2).
Proof.
  split; [reflexivity|]. split; [reflexivity|].
  vm_compute. intros (_ & Hround & _). discriminate.
Qed.

(** C8, amended. One read is treated as follows: bytes that start with
    QUIT are Quit; bytes that start with RESET are Reset; bytes that
    start with MOVE: and have one of the letters R, P, S, L, K (either
    case) as their sixth byte are that move, whatever follows the
    letter; every other input is neither counted as a move nor ends the
    round.  (The move is recorded when the slot of the sender is free.) *)
Theorem parser_prefix_rule (numPlayers i : nat) (buffer : string)
    (g : Hw3.Game) (r : Hw3.Round) :
  Hw3.round_over r = false →
  Hw3.moves r !!! i = MOVE_INVALID →
  treated_as prefix_parse numPlayers i buffer g r.
Proof.
  intros Hover Hfree. unfold treated_as, prefix_parse. cbn [Hw3.serve_player].
  rewrite strncmp_QUIT, strncmp_RESET, strncmp_MOVE.
  destruct (String.prefix "QUIT" buffer); [done|].
  destruct (String.prefix "RESET" buffer); [done|].
  destruct (String.prefix "MOVE:" buffer); [|by rewrite Hover].
  rewrite letter_move_char_to_move, Hfree.
  destruct (move_eqb (Hw3.char_to_move (CLib.char_at buffer 5)) MOVE_INVALID);
    cbn; rewrite Hover; [done|].
  by destruct r; simplify_eq/=.
Qed.

Lemma parser_prefix_rule_witness :
  treated_as prefix_parse 2 0 "MOVE:Rock" Hw3.initial_game (Hw3.new_round 2).
Proof.
  apply (parser_prefix_rule 2 0 "MOVE:Rock" Hw3.initial_game (Hw3.new_round 2));
    reflexivity.
Defined.

(** ** Duplicate moves *)

Lemma serve_player_keeps_move n i j res g r m0 :
  Hw3.moves r !! i = Some m0 → m0 ≠ MOVE_INVALID →
  Hw3.moves (Hw3.serve_player n j res g r).1.2 !! i = Some m0.
Proof.
  intros Hm Hne. destruct res as [|b]; cbn [Hw3.serve_player]; [done|].
  repeat (destruct (_ =? _)%Z; [done|]); try done.
  destruct (_ =? _)%Z; [|done].
  destruct (negb _ && move_eqb (Hw3.moves r !!! j) MOVE_INVALID) eqn:E; [|done].
  cbn. apply andb_true_iff in E as [_ E]. unfold move_eqb in E.
  apply bool_decide_eq_true in E.
  rewrite list_lookup_insert_ne; [done|]. intros ->.
  by rewrite (list_lookup_total_correct _ _ _ Hm) in E.
Qed.

Lemma poll_keeps_move n ready todo i g r m0 :
  Hw3.moves r !! i = Some m0 → m0 ≠ MOVE_INVALID →
  Hw3.moves (Hw3.poll n ready todo g r).2 !! i = Some m0.
Proof.
  intros Hm Hne. revert g r Hm.
  induction todo as [|j todo IH]; intros g r Hm; cbn [Hw3.poll]; [done|].
  destruct (ready !! j) as [[res|]|]; [|by apply IH..].
  pose proof (serve_player_keeps_move n i j res g r m0 Hm Hne) as Hkeep.
  destruct (Hw3.serve_player n j res g r) as [[g1 r1] brk].
  destruct brk; [done|]. by apply IH.
Qed.

(** C9. Once participant [i] has a move recorded in a round, a further
    MOVE command from [i] changes nothing: its recorded move, the number
    of moves received and the scores (the whole state) stay as they are,
    and the recorded move survives every pass over the channels. *)
Theorem first_move_retained (numPlayers i : nat) (g : Hw3.Game) (r : Hw3.Round)
    (m0 : Move) :
  Hw3.moves r !! i = Some m0 →
  m0 ≠ MOVE_INVALID →
  (∀ buffer, String.prefix "MOVE:" buffer = true →
     Hw3.serve_player numPlayers i (Hw3.RecvData buffer) g r = (g, r, Hw3.round_over r))
  ∧ (∀ ready todo, Hw3.moves (Hw3.poll numPlayers ready todo g r).2 !! i = Some m0).
Proof.
  intros Hm Hne. split; [|intros; by apply poll_keeps_move].
  intros buffer Hmove. cbn [Hw3.serve_player].
  rewrite strncmp_QUIT, strncmp_RESET, strncmp_MOVE.
  rewrite (move_not_quit _ Hmove), (move_not_reset _ Hmove), Hmove.
  rewrite (list_lookup_total_correct _ _ _ Hm).
  assert (move_eqb m0 MOVE_INVALID = false) as ->
    by (by apply bool_decide_eq_false).
  by rewrite andb_false_r.
Qed.

Lemma first_move_retained_witness :
  (∀ buffer, String.prefix "MOVE:" buffer = true →
     Hw3.serve_player 3 1 (Hw3.RecvData buffer) Hw3.initial_game
       (Hw3.mkRound [MOVE_INVALID; MOVE_LIZARD; MOVE_INVALID] 1 false false false)
     = (Hw3.initial_game,
        Hw3.mkRound [MOVE_INVALID; MOVE_LIZARD; MOVE_INVALID] 1 false false false,
        false))
  ∧ (∀ ready todo,
       Hw3.moves
         (Hw3.poll 3 ready todo Hw3.initial_game
            (Hw3.mkRound [MOVE_INVALID; MOVE_LIZARD; MOVE_INVALID] 1 false false false)).2
       !! 1 = Some MOVE_LIZARD).
Proof.
  apply (first_move_retained 3 1 Hw3.initial_game
           (Hw3.mkRound [MOVE_INVALID; MOVE_LIZARD; MOVE_INVALID] 1 false false false)
           MOVE_LIZARD).
  - reflexivity.
  - discriminate.
Defined.

(** ** The command line of hw3 *)

Lemma resolve_defined n g r :
  n ≤ Hw3.MAX_PLAYERS → n ≤ length (Hw3.moves r) → is_Some (Hw3.resolve n g r).
Proof.
  intros Hcap Hlen. unfold Hw3.resolve, Hw3.determine_multiplayer_winners.
  rewrite bool_decide_eq_true_2 by done. by eexists.
Qed.

(** With at most [MAX_PLAYERS] players the session stays inside its
    arrays, and it never runs without reading input. *)
Lemma rounds_defined n trace g r :
  n ≤ Hw3.MAX_PLAYERS → collecting n g r →
  Hw3.rounds n trace g r ≠ Hw3.Undefined ∧ Hw3.rounds n trace g r ≠ Hw3.Spins.
Proof.
  intros Hcap. revert g r.
  induction trace as [|[|ready|ready k] trace IH]; intros g r Hc; cbn [Hw3.rounds];
    [done..| |].
  - destruct Hc as (Hover & Hq & Hr & Hsc & Hmv).
    destruct (Hw3.poll n ready (seq 0 n) g r) as [g1 r1] eqn:E.
    apply poll_frame in E as (Hsc1 & Hmv1 & Hflags).
    destruct (bool_decide (Hw3.moves_received r1 < n) && negb (Hw3.round_over r1)) eqn:Hgo.
    { apply andb_true_iff in Hgo as [_ Hgo%negb_true_iff].
      destruct (Hflags Hgo). apply IH. repeat split; congruence. }
    clear Hgo Hflags.
    destruct (Hw3.someone_quit r1); [done|].
    assert (collecting n g1 (Hw3.new_round n)) as Hnew
      by (apply new_round_collecting; congruence).
    destruct (Hw3.someone_reset r1); [by apply IH|].
    destruct (bool_decide (Hw3.moves_received r1 = n)); [|by apply IH].
    destruct (resolve_defined n g1 r1) as [g2 Hres]; [done|lia|].
    rewrite Hres. apply IH, new_round_collecting.
    apply resolve_length in Hres. congruence.
  - destruct Hc as (Hover & Hq & Hr & Hsc & Hmv).
    destruct (Hw3.poll n ready (seq 0 n) g r) as [g1 r1] eqn:E.
    apply poll_frame in E as (Hsc1 & Hmv1 & Hflags).
    destruct (bool_decide (Hw3.moves_received r1 < n) && negb (Hw3.round_over r1)) eqn:Hgo.
    { apply andb_true_iff in Hgo as [_ Hgo%negb_true_iff].
      destruct (Hflags Hgo). apply IH. repeat split; congruence. }
    clear Hgo Hflags.
    destruct (Hw3.someone_quit r1); [by destruct (bool_decide (k < n))|].
    assert (collecting n g1 (Hw3.new_round n)) as Hnew
      by (apply new_round_collecting; congruence).
    destruct (Hw3.someone_reset r1); [destruct (bool_decide (k < n)); [done|by apply IH]|].
    destruct (bool_decide (Hw3.moves_received r1 = n)); [|by apply IH].
    destruct (resolve_defined n g1 r1) as [g2 Hres]; [done|lia|].
    rewrite Hres. destruct (bool_decide (k < n)); [done|].
    apply IH, new_round_collecting.
    apply resolve_length in Hres. congruence.
Qed.

(** C10. [main] lets a session start only with 1 to 5 players: when the
    value of the numPlayers argument is below 1 or above 5 the process
    writes an error, exits with status 1, calls [accept] not once and
    starts no session; hence every session that starts has between 1 and
    5 participants (and then stays inside the arrays of the program). *)
Theorem numPlayers_is_checked (atoi : string → Z) (argv : list string) (env : Hw3.Env) :
  ((atoi (argv !!! 2%nat) < 1 ∨ 5 < atoi (argv !!! 2%nat))%Z →
   Hw3.exit_status (Hw3.main atoi argv env) = Some 1%Z
   ∧ Hw3.stderr (Hw3.main atoi argv env) ≠ []
   ∧ (length argv = 3 →
      Hw3.stderr (Hw3.main atoi argv env)
      = ["numPlayers must be between 1 and 5." +:+ CLib.nl])
   ∧ Hw3.accepted (Hw3.main atoi argv env) = []
   ∧ Hw3.session (Hw3.main atoi argv env) = None)
  ∧ (∀ numPlayers outcome,
       Hw3.session (Hw3.main atoi argv env) = Some (numPlayers, outcome) →
       (1 ≤ numPlayers ≤ 5)%Z ∧ outcome ≠ Hw3.Undefined ∧ outcome ≠ Hw3.Spins).
Proof.
  unfold Hw3.main. split.
  - intros Hrange. case_bool_decide as Hargc; cbn [negb].
    + assert ((atoi (argv !!! 2%nat) <? 1)%Z
              || (atoi (argv !!! 2%nat) >? Z.of_nat Hw3.MAX_PLAYERS)%Z = true) as ->.
      { apply orb_true_iff. rewrite Z.ltb_lt, Z.gtb_gt. unfold Hw3.MAX_PLAYERS. lia. }
      by repeat split.
    + by repeat split.
  - intros numPlayers outcome. case_bool_decide as Hargc; cbn [negb]; [|done].
    destruct (_ || _) eqn:Hrange; [done|].
    apply orb_false_iff in Hrange as [Hlo%Z.ltb_ge Hhi].
    rewrite Z.gtb_ltb in Hhi. apply Z.ltb_ge in Hhi. unfold Hw3.MAX_PLAYERS in Hhi.
    destruct (_ <? 0)%Z; [done|].
    destruct (Hw3.accept_loop _ _ _ _ _) as [[[] ?] ?]; [done..|].
    cbn. intros [= <- <-]. split; [lia|].
    unfold Hw3.handle_game.
    rewrite bool_decide_eq_false_2 by (unfold Hw3.MAX_PLAYERS; lia).
    rewrite bool_decide_eq_false_2 by lia.
    apply rounds_defined; [unfold Hw3.MAX_PLAYERS; lia|].
    by apply new_round_collecting.
Qed.

Lemma numPlayers_is_checked_witness :
  Hw3.exit_status
    (Hw3.main (λ s, if String.eqb s "6" then 6%Z else 5555%Z)
       ["spock_server"; "5555"; "6"] (Hw3.mkEnv (λ _, 3%Z) [4%Z; 5%Z] []))
  = Some 1%Z
  ∧ Hw3.accepted
      (Hw3.main (λ s, if String.eqb s "6" then 6%Z else 5555%Z)
         ["spock_server"; "5555"; "6"] (Hw3.mkEnv (λ _, 3%Z) [4%Z; 5%Z] []))
    = [].
Proof.
  destruct (numPlayers_is_checked (λ s, if String.eqb s "6" then 6%Z else 5555%Z)
              ["spock_server"; "5555"; "6"] (Hw3.mkEnv (λ _, 3%Z) [4%Z; 5%Z] []))
    as [Hout _].
  destruct Hout as (Hexit & _ & _ & Hacc & _); [right; reflexivity|].
  exact (conj Hexit Hacc).
Defined.

(** ** The round counter of hw5 *)

(** C7 fails on the code.  In an iteration in which [select] reports only
    the client socket as readable, nothing is read and no RESULT is
    sent, yet the end of the loop body is reached and [round] is
    incremented. *)
Theorem round_counts_idle_iteration (st : Hw5.State) (c : ascii) (rep : Hw5.RecvResult) :
  Hw5.loop_body (Hw5.mkIter (Hw5.SelectReady false true) c rep) st
  = (Hw5.mkState (Hw5.scores st) (CLib.wrap_int (Hw5.round st + 1))
       (Hw5.sent st
          ++ [CLib.cstr
                (CLib.snprintf Hw5.BUF_SIZE
                   ("INFO:Starting Round " +:+ CLib.fmt_d (Hw5.round st) +:+ ". Score P1:"
                      +:+ CLib.fmt_d (Hw5.scores st !!! 0) +:+ " P2:"
                      +:+ CLib.fmt_d (Hw5.scores st !!! 1) +:+ CLib.nl +:+ CLib.nl))])
       (Hw5.console st ++ ["Enter move (R/P/S/L/K), T=reset, Q=quit: "]),
     true)
  ∧ Hw5.game_loop
      [Hw5.mkIter (Hw5.SelectReady false true) "R" (Hw5.RecvData "MOVE:S")]
      Hw5.initial_state
    = (Hw5.mkState [0%Z; 0%Z] 2
         ["INFO:Starting Round 1. Score P1:0 P2:0" +:+ CLib.nl +:+ CLib.nl]
         ["Enter move (R/P/S/L/K), T=reset, Q=quit: "],
       false).
Proof. split; reflexivity. Qed.

(** When the local player's input is readable the counter behaves as
    intended: it stays, or it advances by one right after a RESULT was
    sent. *)
Lemma round_follows_result_when_stdin_ready
    (client_ready : bool) (c : ascii) (rep : Hw5.RecvResult) (st : Hw5.State) :
  let st' := (Hw5.loop_body (Hw5.mkIter (Hw5.SelectReady true client_ready) c rep) st).1 in
  Hw5.round st' = Hw5.round st
  ∨ (Hw5.round st' = CLib.wrap_int (Hw5.round st + 1)
     ∧ ∃ m1 m2, last (Hw5.sent st') = Some (CLib.cstr (Hw5.result_info m1 m2 (Hw5.scores st')))).
Proof.
  cbn [Hw5.loop_body Hw5.wake Hw5.typed Hw5.reply].
  destruct (Ascii.eqb c "Q"); [by left|].
  destruct (Ascii.eqb c "T"); [by left|].
  destruct (move_eqb (Hw5.char_to_move c) MOVE_INVALID); [by left|].
  destruct rep as [|buf]; [by left|].
  destruct (_ =? _)%Z; [by left|].
  destruct (_ =? _)%Z; [by left|].
  destruct (move_eqb _ MOVE_INVALID); [by left|].
  right. split; [done|]. do 2 eexists. cbn. by rewrite last_snoc.
Qed.

(** * Further properties of the code *)

(** ** Letters and moves *)

(** X1. Both servers read the same ten letters as moves, in either
    case, and nothing else: the two [char_to_move] functions agree on
    every byte. *)
Theorem char_to_move_letters (c : ascii) :
  Hw5.char_to_move c = Hw3.char_to_move c
  ∧ (Hw3.char_to_move c ≠ MOVE_INVALID ↔ is_move_letter c = true)
  ∧ Hw3.char_to_move (CLib.toupper c) = Hw3.char_to_move c.
Proof.
  destruct c as [[] [] [] [] [] [] [] []]; vm_compute;
    (split; [reflexivity|]); (split; [|reflexivity]);
    split; intros H; congruence.
Qed.

(** X2. The letter the two-player server puts into a RESULT message
    decodes to the move it stands for, with either [char_to_move]; the
    placeholder X of an invalid move decodes to no move. *)
Theorem move_to_char_round_trip (m : Move) :
  Hw5.char_to_move (Hw5.move_to_char m) = m
  ∧ Hw3.char_to_move (Hw5.move_to_char m) = m
  ∧ (is_move_letter (Hw5.move_to_char m) = true ↔ m ≠ MOVE_INVALID).
Proof. destruct m; vm_compute; repeat split; congruence. Qed.

(** ** More on the winner engine *)

Lemma beats_irrefl m : Hw3.beats m m = false.
Proof. by destruct m. Qed.

Lemma beats_total a b :
  a ≠ MOVE_INVALID → b ≠ MOVE_INVALID → a ≠ b →
  Hw3.beats a b = true ∨ Hw3.beats b a = true.
Proof. destruct a, b; intros; try done; vm_compute; auto. Qed.

Lemma winners_membership (mv : list Move) (n : nat) winners i :
  length mv = n → n ≤ Hw3.MAX_PLAYERS →
  Hw3.determine_multiplayer_winners mv n = Some winners →
  i ∈ winners ↔ dominant mv i.
Proof.
  intros <- Hcap. rewrite winners_closed_form by done. intros [= <-].
  rewrite list_elem_of_filter, elem_of_seq. split.
  - intros [Hd Hi]. apply dominantb_spec; [lia|done].
  - intros Hd. assert (i < length mv) as Hi.
    { destruct Hd as [(m & Hm & _) _]. by eapply lookup_lt_Some. }
    split; [by apply dominantb_spec|lia].
Qed.

Lemma active_move (mv : list Move) i : active mv i → mv !!! i ≠ MOVE_INVALID.
Proof. intros (m & Hm & Hne). by rewrite (list_lookup_total_correct _ _ _ Hm). Qed.

(** X3. When a round has winners, they are exactly the participants who
    played one and the same move, that move beats the move of every other
    active participant, and at least one active participant loses. *)
Theorem winners_share_move (mv : list Move) (numPlayers : nat) (winners : list nat) :
  length mv = numPlayers →
  numPlayers ≤ Hw3.MAX_PLAYERS →
  Hw3.determine_multiplayer_winners mv numPlayers = Some winners →
  winners ≠ [] →
  ∃ w,
    w ≠ MOVE_INVALID
    ∧ (∀ i, active mv i → (i ∈ winners ↔ mv !!! i = w))
    ∧ (∀ i, active mv i → i ∉ winners → Hw3.beats w (mv !!! i) = true)
    ∧ (∃ k, active mv k ∧ k ∉ winners).
Proof.
  intros Hlen Hcap Hwin Hne.
  pose proof (λ i, winners_membership mv numPlayers winners i Hlen Hcap Hwin) as Hmem.
  destruct winners as [|i0 rest]; [done|].
  assert (dominant mv i0) as (Hact0 & Hunbeaten & (k & Hk & Hactk & Hbeatk))
    by (apply Hmem; left).
  pose proof (active_move _ _ Hact0) as Hw.
  assert (∀ i, active mv i → mv !!! i ≠ mv !!! i0 →
               Hw3.beats (mv !!! i0) (mv !!! i) = true) as Hbeats.
  { intros i Hact Hdiff.
    destruct (beats_total (mv !!! i0) (mv !!! i)) as [?|Hb];
      [done|by apply active_move|done|done|].
    rewrite Hunbeaten in Hb; [done| |done]. by intros ->. }
  exists (mv !!! i0). split; [done|]. split; [|split].
  - intros i Hact. rewrite Hmem. split.
    + intros (_ & Hunb & _).
      destruct (decide (mv !!! i = mv !!! i0)) as [|Hdiff]; [done|].
      pose proof (Hbeats i Hact Hdiff) as Hb.
      rewrite Hunb in Hb; [done| |done]. by intros ->.
    + intros Heq. split; [done|]. split.
      * intros j Hj Hactj. rewrite Heq.
        destruct (decide (j = i0)) as [->|]; [apply beats_irrefl|by apply Hunbeaten].
      * exists k. rewrite Heq. split; [|done].
        intros ->. by rewrite Heq, beats_irrefl in Hbeatk.
  - intros i Hact Hnot. apply Hbeats; [done|].
    intros Heq. apply Hnot. rewrite Hmem. split; [done|]. split.
    + intros j Hj Hactj. rewrite Heq.
      destruct (decide (j = i0)) as [->|]; [apply beats_irrefl|by apply Hunbeaten].
    + exists k. rewrite Heq. split; [|done].
      intros ->. by rewrite Heq, beats_irrefl in Hbeatk.
  - exists k. split; [done|]. rewrite Hmem. intros (_ & Hunb & _).
    rewrite Hunb in Hbeatk; [done| |done]. by intros ->.
Qed.

Lemma winners_share_move_witness :
  ∃ w,
    w ≠ MOVE_INVALID
    ∧ (∀ i, active [MOVE_LIZARD; MOVE_SPOCK; MOVE_INVALID; MOVE_LIZARD; MOVE_PAPER] i →
            (i ∈ [0; 3]
             ↔ [MOVE_LIZARD; MOVE_SPOCK; MOVE_INVALID; MOVE_LIZARD; MOVE_PAPER] !!! i = w))
    ∧ (∀ i, active [MOVE_LIZARD; MOVE_SPOCK; MOVE_INVALID; MOVE_LIZARD; MOVE_PAPER] i →
            i ∉ [0; 3] →
            Hw3.beats w
              ([MOVE_LIZARD; MOVE_SPOCK; MOVE_INVALID; MOVE_LIZARD; MOVE_PAPER] !!! i) = true)
    ∧ (∃ k, active [MOVE_LIZARD; MOVE_SPOCK; MOVE_INVALID; MOVE_LIZARD; MOVE_PAPER] k
            ∧ k ∉ [0; 3]).
Proof.
  apply (winners_share_move
           [MOVE_LIZARD; MOVE_SPOCK; MOVE_INVALID; MOVE_LIZARD; MOVE_PAPER] 5 [0; 3]).
  - reflexivity.
  - unfold Hw3.MAX_PLAYERS. lia.
  - reflexivity.
  - discriminate.
Defined.

(** X4. A participant without an active opponent never wins: when at
    most one slot holds a move, the round has no winner. *)
Theorem lone_participant_never_wins (mv : list Move) (numPlayers : nat) :
  length mv = numPlayers →
  numPlayers ≤ Hw3.MAX_PLAYERS →
  (∀ i j, active mv i → active mv j → i = j) →
  Hw3.determine_multiplayer_winners mv numPlayers = Some [].
Proof.
  intros <- Hcap Hlone.
  destruct (Hw3.determine_multiplayer_winners mv (length mv)) as [winners|] eqn:Hwin.
  - destruct winners as [|i rest]; [done|].
    assert (dominant mv i) as (Hact & _ & (j & Hj & Hactj & _)).
    { eapply winners_membership; [done..|left]. }
    by destruct Hj, (Hlone j i).
  - rewrite winners_closed_form in Hwin; done.
Qed.

Lemma lone_participant_never_wins_witness :
  Hw3.determine_multiplayer_winners [MOVE_INVALID; MOVE_SPOCK; MOVE_INVALID] 3 = Some [].
Proof.
  apply (lone_participant_never_wins [MOVE_INVALID; MOVE_SPOCK; MOVE_INVALID] 3).
  - reflexivity.
  - unfold Hw3.MAX_PLAYERS. lia.
  - intros i j (mi & Hi & Hmi) (mj & Hj & Hmj).
    destruct i as [|[|[|i]]], j as [|[|[|j]]]; simplify_eq/=; done.
Defined.

(** ** The count of moves *)

Lemma filled_replicate n : filled (replicate n MOVE_INVALID) = [].
Proof.
  unfold filled. induction n as [|n IH]; [done|].
  cbn [replicate]. by rewrite filter_cons_False by (by intros []).
Qed.

Lemma filled_insert (mv : list Move) i m :
  mv !! i = Some MOVE_INVALID → m ≠ MOVE_INVALID →
  length (filled (<[i := m]> mv)) = S (length (filled mv)).
Proof.
  unfold filled. revert i. induction mv as [|a mv IH]; intros [|i] Hi Hm; try done.
  - injection Hi as ->. change (<[0 := m]> (MOVE_INVALID :: mv)) with (m :: mv).
    rewrite filter_cons_True by done. by rewrite filter_cons_False by (by intros []).
  - change (<[S i := m]> (a :: mv)) with (a :: <[i := m]> mv).
    rewrite !filter_cons. specialize (IH i Hi Hm).
    destruct (decide (a ≠ MOVE_INVALID)); cbn [length]; by rewrite IH.
Qed.

Lemma serve_player_counted n i res g r :
  i < length (Hw3.moves r) →
  Hw3.moves_received r = length (filled (Hw3.moves r)) →
  Hw3.moves_received (Hw3.serve_player n i res g r).1.2
  = length (filled (Hw3.moves (Hw3.serve_player n i res g r).1.2)).
Proof.
  intros Hi Hcount. destruct res as [|b]; cbn [Hw3.serve_player]; [done|].
  repeat (destruct (_ =? _)%Z; [done|]); try done.
  destruct (_ =? _)%Z; [|done].
  destruct (negb _ && _) eqn:E; [|done]. cbn.
  apply andb_true_iff in E as [Hm%negb_true_iff Hfree].
  unfold move_eqb in Hm, Hfree.
  apply bool_decide_eq_false in Hm. apply bool_decide_eq_true in Hfree.
  rewrite filled_insert; [by rewrite Hcount| |done].
  rewrite <- Hfree. by apply list_lookup_lookup_total_lt.
Qed.

Lemma poll_counted n ready todo g r :
  Forall (λ i, i < length (Hw3.moves r)) todo →
  Hw3.moves_received r = length (filled (Hw3.moves r)) →
  Hw3.moves_received (Hw3.poll n ready todo g r).2
  = length (filled (Hw3.moves (Hw3.poll n ready todo g r).2)).
Proof.
  revert g r. induction todo as [|i todo IH]; intros g r Htodo Hcount;
    cbn [Hw3.poll]; [done|].
  apply Forall_cons in Htodo as [Hi Htodo].
  destruct (ready !! i) as [[res|]|]; [|by apply IH..].
  pose proof (serve_player_counted n i res g r Hi Hcount) as Hstep.
  destruct (Hw3.serve_player n i res g r) as [[g1 r1] brk] eqn:E.
  apply serve_frame in E as (_ & Hlen & _). cbn in Hstep.
  destruct brk; [done|]. apply IH; [by rewrite Hlen|done].
Qed.

Lemma seq_below n : Forall (λ i, i < n) (seq 0 n).
Proof. apply Forall_forall. intros i Hi%elem_of_seq. lia. Qed.

Lemma rounds_counted n trace g r g' r' :
  collecting n g r →
  Hw3.moves_received r = length (filled (Hw3.moves r)) →
  Hw3.moves_received r < n →
  Hw3.rounds n trace g r = Hw3.Waiting g' r' →
  Hw3.moves_received r' = length (filled (Hw3.moves r')) ∧ Hw3.moves_received r' < n.
Proof.
  revert g r. induction trace as [|[|ready|ready k] trace IH]; intros g r Hc Hcount Hlt;
    cbn [Hw3.rounds].
  - by intros [= <- <-].
  - done.
  - destruct Hc as (Hover & Hq & Hr & Hsc & Hmv).
    pose proof (poll_counted n ready (seq 0 n) g r) as Hcount1.
    rewrite Hmv in Hcount1. specialize (Hcount1 (seq_below n) Hcount).
    destruct (Hw3.poll n ready (seq 0 n) g r) as [g1 r1] eqn:E.
    apply poll_frame in E as (Hsc1 & Hmv1 & Hflags). cbn in Hcount1.
    assert (∀ g2, length (Hw3.scores g2) = Hw3.MAX_PLAYERS →
                  Hw3.rounds n trace g2 (Hw3.new_round n) = Hw3.Waiting g' r' →
                  Hw3.moves_received r' = length (filled (Hw3.moves r'))
                  ∧ Hw3.moves_received r' < n) as Hnew.
    { intros g2 Hg2. apply IH; [by apply new_round_collecting| |cbn; lia].
      cbn. by rewrite filled_replicate. }
    destruct (bool_decide (Hw3.moves_received r1 < n)) eqn:Hlt1; cbn [andb].
    + apply bool_decide_eq_true in Hlt1.
      destruct (Hw3.round_over r1) eqn:Hover1; cbn [negb].
      * destruct (Hw3.someone_quit r1); [done|].
        destruct (Hw3.someone_reset r1); [apply Hnew; congruence|].
        destruct (bool_decide (Hw3.moves_received r1 = n)); [|apply Hnew; congruence].
        destruct (Hw3.resolve n g1 r1) as [g2|] eqn:Hres; [|done].
        apply Hnew. apply resolve_length in Hres. congruence.
      * destruct (Hflags eq_refl). apply IH; [|done..].
        repeat split; congruence.
    + destruct (Hw3.someone_quit r1); [done|].
      destruct (Hw3.someone_reset r1); [apply Hnew; congruence|].
      destruct (bool_decide (Hw3.moves_received r1 = n)); [|apply Hnew; congruence].
      destruct (Hw3.resolve n g1 r1) as [g2|] eqn:Hres; [|done].
      apply Hnew. apply resolve_length in Hres. congruence.
  - destruct Hc as (Hover & Hq & Hr & Hsc & Hmv).
    pose proof (poll_counted n ready (seq 0 n) g r) as Hcount1.
    rewrite Hmv in Hcount1. specialize (Hcount1 (seq_below n) Hcount).
    destruct (Hw3.poll n ready (seq 0 n) g r) as [g1 r1] eqn:E.
    apply poll_frame in E as (Hsc1 & Hmv1 & Hflags). cbn in Hcount1.
    assert (∀ g2, length (Hw3.scores g2) = Hw3.MAX_PLAYERS →
                  Hw3.rounds n trace g2 (Hw3.new_round n) = Hw3.Waiting g' r' →
                  Hw3.moves_received r' = length (filled (Hw3.moves r'))
                  ∧ Hw3.moves_received r' < n) as Hnew.
    { intros g2 Hg2. apply IH; [by apply new_round_collecting| |cbn; lia].
      cbn. by rewrite filled_replicate. }
    destruct (bool_decide (Hw3.moves_received r1 < n)) eqn:Hlt1; cbn [andb].
    + apply bool_decide_eq_true in Hlt1.
      destruct (Hw3.round_over r1) eqn:Hover1; cbn [negb].
      * destruct (Hw3.someone_quit r1); [by destruct (bool_decide (k < n))|].
        destruct (Hw3.someone_reset r1);
          [destruct (bool_decide (k < n)); [done|apply Hnew; congruence]|].
        destruct (bool_decide (Hw3.moves_received r1 = n)); [|apply Hnew; congruence].
        destruct (Hw3.resolve n g1 r1) as [g2|] eqn:Hres; [|done].
        destruct (bool_decide (k < n)); [done|].
        apply Hnew. apply resolve_length in Hres. congruence.
      * destruct (Hflags eq_refl). apply IH; [|done..].
        repeat split; congruence.
    + destruct (Hw3.someone_quit r1); [by destruct (bool_decide (k < n))|].
      destruct (Hw3.someone_reset r1);
        [destruct (bool_decide (k < n)); [done|apply Hnew; congruence]|].
      destruct (bool_decide (Hw3.moves_received r1 = n)); [|apply Hnew; congruence].
      destruct (Hw3.resolve n g1 r1) as [g2|] eqn:Hres; [|done].
      destruct (bool_decide (k < n)); [done|].
      apply Hnew. apply resolve_length in Hres. congruence.
Qed.

Lemma filled_all (mv : list Move) :
  length (filled mv) = length mv → Forall (λ m, m ≠ MOVE_INVALID) mv.
Proof.
  unfold filled. induction mv as [|a mv IH]; [done|].
  rewrite filter_cons. destruct (decide (a ≠ MOVE_INVALID)); cbn [length].
  - intros [=]. constructor; auto.
  - pose proof (length_filter (λ m, m ≠ MOVE_INVALID) mv). lia.
Qed.

Lemma waiting_count_aux n trace g r :
  Hw3.handle_game n trace = Hw3.Waiting g r →
  Hw3.moves_received r = length (filled (Hw3.moves r)) ∧ Hw3.moves_received r < n.
Proof.
  intros Hrun. unfold Hw3.handle_game in Hrun.
  do 2 (case_bool_decide; [done|]).
  apply (rounds_counted n trace Hw3.initial_game (Hw3.new_round n) g r);
    [by apply new_round_collecting| | |done].
  - cbn. by rewrite filled_replicate.
  - cbn. lia.
Qed.

(** X5. While the session waits for input, [moves_received] is the
    number of slots that hold a move and is below [numPlayers]; after
    every pass over the channels it still is the number of filled slots,
    so when it reaches [numPlayers] every participant has a playable
    move. *)
Theorem moves_received_counts_slots (numPlayers : nat)
    (before : list Hw3.SelectResult) (g : Hw3.Game) (r : Hw3.Round)
    (ready : list (option Hw3.RecvResult)) :
  Hw3.handle_game numPlayers before = Hw3.Waiting g r →
  (Hw3.moves_received r = length (filled (Hw3.moves r))
   ∧ Hw3.moves_received r < numPlayers
   ∧ length (Hw3.moves r) = numPlayers)
  ∧ (let r1 := (Hw3.poll numPlayers ready (seq 0 numPlayers) g r).2 in
     Hw3.moves_received r1 = length (filled (Hw3.moves r1))
     ∧ Hw3.moves_received r1 ≤ numPlayers
     ∧ (Hw3.moves_received r1 = numPlayers →
        Forall (λ m, m ≠ MOVE_INVALID) (Hw3.moves r1))).
Proof.
  intros Hrun.
  destruct (handle_game_collecting _ _ _ _ Hrun) as [Hc [Hpos Hcap]].
  assert (Hw3.moves_received r = length (filled (Hw3.moves r))
          ∧ Hw3.moves_received r < numPlayers) as [Hcount Hlt].
  { unfold Hw3.handle_game in Hrun.
    do 2 (case_bool_decide; [done|]).
    apply (rounds_counted numPlayers before Hw3.initial_game
             (Hw3.new_round numPlayers) g r); [by apply new_round_collecting| | |done].
    - cbn. by rewrite filled_replicate.
    - cbn. lia. }
  destruct Hc as (_ & _ & _ & _ & Hmv).
  split; [done|]. cbn zeta.
  pose proof (poll_counted numPlayers ready (seq 0 numPlayers) g r) as Hcount1.
  rewrite Hmv in Hcount1. specialize (Hcount1 (seq_below _) Hcount).
  destruct (Hw3.poll numPlayers ready (seq 0 numPlayers) g r) as [g1 r1] eqn:E.
  apply poll_frame in E as (_ & Hmv1 & _). cbn [snd] in *.
  split; [done|].
  pose proof (length_filter (λ m, m ≠ MOVE_INVALID) (Hw3.moves r1)) as Hle.
  fold (filled (Hw3.moves r1)) in Hle.
  split; [lia|]. intros Hfull. apply filled_all. lia.
Qed.

Lemma moves_received_counts_slots_witness :
  (Hw3.moves_received
     (round_after 3 [Hw3.SelectReady [None; Some (Hw3.RecvData "MOVE:k"); None]])
   = length (filled (Hw3.moves
       (round_after 3 [Hw3.SelectReady [None; Some (Hw3.RecvData "MOVE:k"); None]])))
   ∧ Hw3.moves_received
       (round_after 3 [Hw3.SelectReady [None; Some (Hw3.RecvData "MOVE:k"); None]]) < 3
   ∧ length (Hw3.moves
       (round_after 3 [Hw3.SelectReady [None; Some (Hw3.RecvData "MOVE:k"); None]])) = 3)
  ∧ (let r1 :=
       (Hw3.poll 3 [Some (Hw3.RecvData "MOVE:R"); None; Some (Hw3.RecvData "MOVE:P")]
          (seq 0 3)
          (game_after 3 [Hw3.SelectReady [None; Some (Hw3.RecvData "MOVE:k"); None]])
          (round_after 3 [Hw3.SelectReady [None; Some (Hw3.RecvData "MOVE:k"); None]])).2 in
     Hw3.moves_received r1 = length (filled (Hw3.moves r1))
     ∧ Hw3.moves_received r1 ≤ 3
     ∧ (Hw3.moves_received r1 = 3 → Forall (λ m, m ≠ MOVE_INVALID) (Hw3.moves r1))).
Proof.
  apply (moves_received_counts_slots 3
           [Hw3.SelectReady [None; Some (Hw3.RecvData "MOVE:k"); None]]).
  vm_compute. reflexivity.
Defined.

(** ** The score ledger *)




(** ** What the server sends *)

Lemma prefix_nil s : String.prefix "" s = true.
Proof. by destruct s. Qed.

(** A literal at the head of a formatted text survives [snprintf] into
    a buffer that is longer than the literal. *)
Lemma cstr_snprintf_prefix lit rest size :
  nul_free lit = true → String.length lit < size →
  String.prefix lit (CLib.cstr (CLib.snprintf size (lit +:+ rest))) = true.
Proof.
  unfold CLib.snprintf. revert size.
  induction lit as [|a lit IH]; intros size Hnul Hlen; [apply prefix_nil|].
  cbn [nul_free] in Hnul. apply andb_true_iff in Hnul as [Ha Hnul].
  cbn [String.length] in Hlen.
  destruct size as [|[|size]]; [lia..|].
  change (String a lit +:+ rest) with (String a (lit +:+ rest)).
  change (S (S size) - 1) with (S size).
  cbn [substring CLib.cstr]. apply negb_true_iff in Ha. rewrite Ha.
  cbn [String.prefix]. destruct (ascii_dec a a); [|done].
  specialize (IH (S size) Hnul ltac:(lia)).
  by replace (S size - 1) with size in IH by lia.
Qed.

Lemma result_msg_prefix n winners mv sc :
  String.prefix "RESULT:" (CLib.cstr (Hw3.result_msg n winners mv sc)) = true.
Proof.
  unfold Hw3.result_msg. apply cstr_snprintf_prefix; [done|].
  unfold Hw3.BUF_SIZE. cbn. lia.
Qed.

Lemma poll_sent n ready todo g r :
  Hw3.sent (Hw3.poll n ready todo g r).1 = Hw3.sent g
  ∨ Hw3.sent (Hw3.poll n ready todo g r).1 = Hw3.sent g ++ Hw3.broadcast n "RESET".
Proof.
  revert g r. induction todo as [|i todo IH]; intros g r; cbn [Hw3.poll]; [by left|].
  destruct (ready !! i) as [[res|]|]; [|by apply IH..].
  destruct (is_quit_dec res) as [Hq|Hq].
  { destruct (serve_quit n i res g r Hq) as (g' & r' & -> & _ & _ & Hs & _). by left. }
  destruct (is_reset_dec res) as [Hr|Hr].
  { destruct (serve_reset n i res g r Hq Hr) as (g' & r' & -> & _ & _ & _ & Hs & _).
    by right. }
  destruct (serve_other n i res g r Hq Hr) as (g' & r' & -> & _ & _ & _ & Hs & _).
  destruct (Hw3.round_over r); [by left|]. rewrite <- Hs. apply IH.
Qed.

Lemma serve_player_sent n i res g r g' r' brk :
  Hw3.serve_player n i res g r = (g', r', brk) →
  (Hw3.someone_reset r' = Hw3.someone_reset r ∧ Hw3.sent g' = Hw3.sent g)
  ∨ (Hw3.someone_reset r' = true ∧ brk = true
     ∧ Hw3.sent g' = Hw3.sent g ++ Hw3.broadcast n "RESET").
Proof.
  destruct res as [|b]; cbn [Hw3.serve_player].
  - intros [= <- <- <-]. by left.
  - destruct (_ =? _)%Z; [intros [= <- <- <-]; by left|].
    destruct (_ =? _)%Z; [intros [= <- <- <-]; by right|].
    destruct (_ =? _)%Z; [|intros [= <- <- <-]; by left].
    destruct (_ && _); intros [= <- <- <-]; by left.
Qed.

(** The only [send] loop inside a pass is the RESET one, and
    [someone_reset] tells whether it ran. *)
Lemma poll_reset_sent n ready todo g r g' r' :
  Hw3.poll n ready todo g r = (g', r') →
  Hw3.someone_reset r = false →
  (Hw3.someone_reset r' = false ∧ Hw3.sent g' = Hw3.sent g)
  ∨ (Hw3.someone_reset r' = true ∧ Hw3.sent g' = Hw3.sent g ++ Hw3.broadcast n "RESET").
Proof.
  revert g r. induction todo as [|i todo IH]; intros g r; cbn [Hw3.poll].
  - intros [= <- <-] Hr. by left.
  - destruct (ready !! i) as [[res|]|]; [|apply IH..].
    destruct (Hw3.serve_player n i res g r) as [[g1 r1] brk] eqn:E.
    apply serve_player_sent in E as [[Hr1 Hs1]|(Hr1 & -> & Hs1)].
    + destruct brk.
      * intros [= <- <-] Hr. left. split; congruence.
      * intros Hpoll Hr. rewrite <- Hs1. apply (IH g1 r1 Hpoll). congruence.
    + intros [= <- <-] _. by right.
Qed.

(** The messages sent so far are [msgs], each one sent to every
    player; when the process was killed inside a [send] loop, the
    message [last] of that loop was sent to the players before [cut]
    only. *)
Lemma rounds_broadcasts n trace g r g' msgs :
  collecting n g r →
  Hw3.sent g = msgs ≫= Hw3.broadcast n →
  Forall protocol_message msgs →
  game_of (Hw3.rounds n trace g r) = Some g' →
  ∃ msgs' last cut,
    Forall protocol_message (msgs' ++ last)
    ∧ length last ≤ 1
    ∧ (last ≠ [] → cut < n)
    ∧ Hw3.sent g'
      = (msgs' ≫= Hw3.broadcast n) ++ (last ≫= λ m, (λ j, (j, m)) <$> seq 0 cut)
    ∧ (last = [] ↔ ∀ gk, Hw3.rounds n trace g r ≠ Hw3.Killed gk).
Proof.
  assert (∀ (g0 : Hw3.Game) msgs0,
            Hw3.sent g0 = msgs0 ≫= Hw3.broadcast n → Forall protocol_message msgs0 →
            ∃ msgs' (last : list string) (cut : nat),
              Forall protocol_message (msgs' ++ last)
              ∧ length last ≤ 1
              ∧ (last ≠ [] → cut < n)
              ∧ Hw3.sent g0
                = (msgs' ≫= Hw3.broadcast n) ++ (last ≫= λ m, (λ j, (j, m)) <$> seq 0 cut)
              ∧ last = []) as Hwhole.
  { intros g0 msgs0 Hs Hm. exists msgs0, [], 0.
    rewrite app_nil_r. split; [done|]. split; [cbn; lia|]. split; [done|].
    split; [|done]. rewrite Hs. symmetry. apply app_nil_r. }
  assert (∀ (gx : Hw3.Game) msgs0 msg k,
            k < n → protocol_message msg →
            Hw3.sent gx = (msgs0 ≫= Hw3.broadcast n) ++ Hw3.broadcast n msg →
            Forall protocol_message msgs0 →
            ∃ msgs' (last : list string) (cut : nat),
              Forall protocol_message (msgs' ++ last)
              ∧ length last ≤ 1
              ∧ (last ≠ [] → cut < n)
              ∧ Hw3.sent (Hw3.killed_at n k gx)
                = (msgs' ≫= Hw3.broadcast n) ++ (last ≫= λ m, (λ j, (j, m)) <$> seq 0 cut)
              ∧ last ≠ [])
    as Hcut.
  { intros gx msgs0 msg k Hk Hmsg Hs Hm. exists msgs0, [msg], k.
    split; [apply Forall_app; split; [done|by constructor]|].
    split; [done|]. split; [done|]. split; [|done].
    rewrite (killed_at_sent n k gx (msgs0 ≫= Hw3.broadcast n) msg); [|lia|done].
    by rewrite bind_singleton. }
  revert g r msgs.
  induction trace as [|[|ready|ready k] trace IH]; intros g r msgs Hc Hsent Hmsgs;
    cbn [Hw3.rounds game_of].
  - intros [= <-]. destruct (Hwhole g msgs Hsent Hmsgs) as (m & l & c & ? & ? & ? & ? & ?).
    exists m, l, c. by repeat split.
  - intros [= <-]. destruct (Hwhole g msgs Hsent Hmsgs) as (m & l & c & ? & ? & ? & ? & ?).
    exists m, l, c. by repeat split.
  - destruct Hc as (Hover & Hq & Hr & Hsc & Hmv).
    destruct (Hw3.poll n ready (seq 0 n) g r) as [g1 r1] eqn:E.
    pose proof (poll_reset_sent _ _ _ _ _ _ _ E Hr) as Hpoll.
    apply poll_frame in E as (Hsc1 & Hmv1 & Hflags).
    assert (∃ msgs1, Hw3.sent g1 = msgs1 ≫= Hw3.broadcast n
                     ∧ Forall protocol_message msgs1) as (msgs1 & Hsent1 & Hmsgs1).
    { destruct Hpoll as [[_ ->]|[_ ->]]; [eauto|].
      exists (msgs ++ ["RESET"]). rewrite bind_app, bind_singleton, Hsent.
      split; [done|]. apply Forall_app. split; [done|].
      constructor; [by left|constructor]. }
    destruct (bool_decide (Hw3.moves_received r1 < n) && negb (Hw3.round_over r1)) eqn:Hgo.
    { apply andb_true_iff in Hgo as [_ Hgo%negb_true_iff].
      destruct (Hflags Hgo). eapply IH; [|done..]. repeat split; congruence. }
    clear Hgo Hflags.
    assert (collecting n g1 (Hw3.new_round n)) as Hnew
      by (apply new_round_collecting; congruence).
    destruct (Hw3.someone_quit r1).
    { cbn [game_of]. intros [= <-].
      destruct (Hwhole (Hw3.printf ("[Server] Game session ended." +:+ CLib.nl)
                          (Hw3.send_all n "QUIT" g1)) (msgs1 ++ ["QUIT"]))
        as (m & l & c & ? & ? & ? & ? & ?).
      { cbn. by rewrite bind_app, bind_singleton, Hsent1. }
      { apply Forall_app. split; [done|]. constructor; [right; by left|constructor]. }
      exists m, l, c. by repeat split. }
    destruct (Hw3.someone_reset r1); [by eapply IH|].
    destruct (bool_decide (Hw3.moves_received r1 = n)); [|by eapply IH].
    destruct (Hw3.resolve n g1 r1) as [g2|] eqn:Hres; [|done].
    pose proof (resolve_length _ _ _ _ Hres) as Hlen2.
    apply resolve_sent in Hres as (winners & _ & Hsent2).
    eapply (IH _ _ (msgs1 ++ [_])).
    + apply new_round_collecting. congruence.
    + rewrite bind_app, bind_singleton, <- Hsent1. exact Hsent2.
    + apply Forall_app. split; [done|]. constructor; [|constructor].
      right; right. apply result_msg_prefix.
  - destruct Hc as (Hover & Hq & Hr & Hsc & Hmv).
    destruct (Hw3.poll n ready (seq 0 n) g r) as [g1 r1] eqn:E.
    pose proof (poll_reset_sent _ _ _ _ _ _ _ E Hr) as Hpoll.
    apply poll_frame in E as (Hsc1 & Hmv1 & Hflags).
    assert (∃ msgs1, Hw3.sent g1 = msgs1 ≫= Hw3.broadcast n
                     ∧ Forall protocol_message msgs1) as (msgs1 & Hsent1 & Hmsgs1).
    { destruct Hpoll as [[_ ->]|[_ ->]]; [eauto|].
      exists (msgs ++ ["RESET"]). rewrite bind_app, bind_singleton, Hsent.
      split; [done|]. apply Forall_app. split; [done|].
      constructor; [by left|constructor]. }
    destruct (bool_decide (Hw3.moves_received r1 < n) && negb (Hw3.round_over r1)) eqn:Hgo.
    { apply andb_true_iff in Hgo as [_ Hgo%negb_true_iff].
      destruct (Hflags Hgo). eapply IH; [|done..]. repeat split; congruence. }
    clear Hgo Hflags.
    assert (collecting n g1 (Hw3.new_round n)) as Hnew
      by (apply new_round_collecting; congruence).
    destruct (Hw3.someone_quit r1).
    { case_bool_decide as Hk; cbn [game_of]; intros [= <-].
      - destruct (Hcut (Hw3.send_all n "QUIT" g1) msgs1 "QUIT" k)
          as (m & l & c & ? & ? & ? & ? & ?); [done|right; by left| |done|].
        { cbn. by rewrite Hsent1. }
        exists m, l, c. repeat split; [done..| |]; [done|].
        intros Hno. by destruct (Hno _ eq_refl).
      - destruct (Hwhole (Hw3.printf ("[Server] Game session ended." +:+ CLib.nl)
                            (Hw3.send_all n "QUIT" g1)) (msgs1 ++ ["QUIT"]))
          as (m & l & c & ? & ? & ? & ? & ?).
        { cbn. by rewrite bind_app, bind_singleton, Hsent1. }
        { apply Forall_app. split; [done|]. constructor; [right; by left|constructor]. }
        exists m, l, c. by repeat split. }
    destruct (Hw3.someone_reset r1) eqn:Hreset1.
    { case_bool_decide as Hk; [|by eapply IH].
      cbn [game_of]. intros [= <-].
      destruct Hpoll as [[? _]|[_ Hs1]]; [congruence|].
      destruct (Hcut g1 msgs "RESET" k) as (m & l & c & ? & ? & ? & ? & ?);
        [done|by left|by rewrite Hs1, Hsent|done|].
      exists m, l, c. repeat split; [done..| |]; [done|].
      intros Hno. by destruct (Hno _ eq_refl). }
    destruct (bool_decide (Hw3.moves_received r1 = n)); [|by eapply IH].
    destruct (Hw3.resolve n g1 r1) as [g2|] eqn:Hres; [|done].
    pose proof (resolve_length _ _ _ _ Hres) as Hlen2.
    apply resolve_sent in Hres as (winners & _ & Hsent2).
    case_bool_decide as Hk.
    + cbn [game_of]. intros [= <-].
      destruct (Hcut g2 msgs1
                  (CLib.cstr (Hw3.result_msg n winners (Hw3.moves r1) (Hw3.scores g2))) k)
        as (m & l & c & ? & ? & ? & ? & ?);
        [done|right; right; apply result_msg_prefix|by rewrite <- Hsent1|done|].
      exists m, l, c. repeat split; [done..| |]; [done|].
      intros Hno. by destruct (Hno _ eq_refl).
    + eapply (IH _ _ (msgs1 ++ [_])).
      * apply new_round_collecting. congruence.
      * rewrite bind_app, bind_singleton, <- Hsent1. exact Hsent2.
      * apply Forall_app. split; [done|]. constructor; [|constructor].
        right; right. apply result_msg_prefix.
Qed.

(** X7. Whatever the input, the server never addresses a participant
    alone: what it sends is a sequence [msgs] of messages, each RESET,
    QUIT or a RESULT: line, and each sent to every participant in index
    order.  Every participant therefore receives the same messages in
    the same order, with one exception: when SIGPIPE terminates the
    server inside a [send] loop, the message [last] of that loop has
    reached the participants before the failing call [cut] and nobody
    else. *)
Theorem every_player_gets_the_same (numPlayers : nat)
    (trace : list Hw3.SelectResult) (g : Hw3.Game) :
  game_of (Hw3.handle_game numPlayers trace) = Some g →
  ∃ msgs last cut,
    Forall protocol_message (msgs ++ last)
    ∧ length last ≤ 1
    ∧ (last ≠ [] → cut < numPlayers)
    ∧ Hw3.sent g
      = (msgs ≫= λ m, (λ k, (k, m)) <$> seq 0 numPlayers)
          ++ (last ≫= λ m, (λ k, (k, m)) <$> seq 0 cut)
    ∧ (∀ k, k < numPlayers →
         inbox k (Hw3.sent g) = msgs ++ (if bool_decide (k < cut) then last else []))
    ∧ (last = [] ↔ ∀ g', Hw3.handle_game numPlayers trace ≠ Hw3.Killed g').
Proof.
  unfold Hw3.handle_game. do 2 (case_bool_decide; [done|]). intros Hg.
  destruct (rounds_broadcasts numPlayers trace Hw3.initial_game
              (Hw3.new_round numPlayers) g [])
    as (msgs & last & cut & Hmsgs & Hlen & Hcut & Hsent & Hlast);
    [by apply new_round_collecting|done|constructor|done|].
  exists msgs, last, cut. do 4 (split; [done|]). split; [|done].
  intros k Hk. rewrite Hsent, inbox_app. f_equal.
  - clear -Hk. induction msgs as [|msg msgs IH]; [done|].
    rewrite bind_cons, inbox_app, IH. by rewrite inbox_broadcast.
  - destruct last as [|msg [|]]; [by destruct (bool_decide _)| |cbn in Hlen; lia].
    rewrite bind_singleton, inbox_fmap_seq.
    case_bool_decide; [by rewrite bool_decide_eq_true_2 by lia|].
    by rewrite bool_decide_eq_false_2 by lia.
Qed.

Lemma every_player_gets_the_same_witness :
  ∃ msgs last cut,
    Forall protocol_message (msgs ++ last)
    ∧ length last ≤ 1
    ∧ (last ≠ [] → cut < 3)
    ∧ Hw3.sent
        (game_at_end 3
           [Hw3.SelectReady [Some (Hw3.RecvData "MOVE:R"); Some (Hw3.RecvData "MOVE:R");
                             Some (Hw3.RecvData "MOVE:S")];
            Hw3.SelectReadyPipe [None; Some Hw3.RecvFail; None] 1])
      = (msgs ≫= λ m, (λ k, (k, m)) <$> seq 0 3)
          ++ (last ≫= λ m, (λ k, (k, m)) <$> seq 0 cut)
    ∧ (∀ k, k < 3 →
         inbox k
           (Hw3.sent
              (game_at_end 3
                 [Hw3.SelectReady [Some (Hw3.RecvData "MOVE:R"); Some (Hw3.RecvData "MOVE:R");
                                   Some (Hw3.RecvData "MOVE:S")];
                  Hw3.SelectReadyPipe [None; Some Hw3.RecvFail; None] 1]))
         = msgs ++ (if bool_decide (k < cut) then last else []))
    ∧ (last = []
       ↔ ∀ g',
           Hw3.handle_game 3
             [Hw3.SelectReady [Some (Hw3.RecvData "MOVE:R"); Some (Hw3.RecvData "MOVE:R");
                               Some (Hw3.RecvData "MOVE:S")];
              Hw3.SelectReadyPipe [None; Some Hw3.RecvFail; None] 1]
           ≠ Hw3.Killed g').
Proof.
  apply (every_player_gets_the_same 3
           [Hw3.SelectReady [Some (Hw3.RecvData "MOVE:R"); Some (Hw3.RecvData "MOVE:R");
                             Some (Hw3.RecvData "MOVE:S")];
            Hw3.SelectReadyPipe [None; Some Hw3.RecvFail; None] 1]).
  vm_compute. reflexivity.
Defined.

(** ** Failure of select, and noise *)

(** X8. When [select] fails, [handle_game] returns at once: the session
    is over, no QUIT (nor anything else) is sent to the participants,
    the scores stay as they were and later input is not read. *)
Theorem select_failure_ends_silently (numPlayers : nat)
    (before after : list Hw3.SelectResult) (g : Hw3.Game) (r : Hw3.Round) :
  Hw3.handle_game numPlayers before = Hw3.Waiting g r →
  Hw3.handle_game numPlayers (before ++ Hw3.SelectError :: after) = Hw3.Returned g.
Proof. intros Hrun. by rewrite (handle_game_app _ _ _ _ _ Hrun). Qed.

Lemma select_failure_ends_silently_witness :
  Hw3.handle_game 2
    ([Hw3.SelectReady [Some (Hw3.RecvData "MOVE:L"); None]]
       ++ Hw3.SelectError :: [Hw3.SelectReady [None; Some (Hw3.RecvData "MOVE:K")]])
  = Hw3.Returned (game_after 2 [Hw3.SelectReady [Some (Hw3.RecvData "MOVE:L"); None]]).
Proof.
  apply (select_failure_ends_silently 2 _ _ _
           (round_after 2 [Hw3.SelectReady [Some (Hw3.RecvData "MOVE:L"); None]])).
  vm_compute. reflexivity.
Defined.

Lemma serve_noise n i res g r :
  is_noise res →
  ∃ g',
    Hw3.serve_player n i res g r = (g', r, Hw3.round_over r)
    ∧ Hw3.scores g' = Hw3.scores g ∧ Hw3.sent g' = Hw3.sent g.
Proof.
  destruct res as [|b]; cbn [is_noise Hw3.serve_player]; [done|].
  intros (Hq & Hr & Hm). rewrite strncmp_QUIT, strncmp_RESET, strncmp_MOVE, Hq, Hr, Hm.
  by eexists.
Qed.

Lemma poll_noise n ready todo g r :
  Hw3.round_over r = false →
  (∀ i res, ready !! i = Some (Some res) → is_noise res) →
  ∃ g',
    Hw3.poll n ready todo g r = (g', r)
    ∧ Hw3.scores g' = Hw3.scores g ∧ Hw3.sent g' = Hw3.sent g.
Proof.
  intros Hover Hnoise. revert g.
  induction todo as [|i todo IH]; intros g; cbn [Hw3.poll]; [by eexists|].
  destruct (ready !! i) as [[res|]|] eqn:Hi; [|by apply IH..].
  destruct (serve_noise n i res g r (Hnoise _ _ Hi)) as (g1 & -> & Hsc & Hs).
  rewrite Hover. destruct (IH g1) as (g' & -> & Hsc' & Hs').
  exists g'. split; [done|]. split; congruence.
Qed.

(** X9. Input that is no command does not disturb a round: after a pass
    in which every readable channel carries bytes that start with
    neither QUIT, RESET nor MOVE:, the session waits in the same round
    with the same moves, count, scores and nothing sent. *)
Theorem noise_leaves_round_alone (numPlayers : nat)
    (before : list Hw3.SelectResult) (ready : list (option Hw3.RecvResult))
    (g : Hw3.Game) (r : Hw3.Round) :
  Hw3.handle_game numPlayers before = Hw3.Waiting g r →
  (∀ i res, ready !! i = Some (Some res) → is_noise res) →
  ∃ g',
    Hw3.handle_game numPlayers (before ++ [Hw3.SelectReady ready]) = Hw3.Waiting g' r
    ∧ Hw3.scores g' = Hw3.scores g ∧ Hw3.sent g' = Hw3.sent g.
Proof.
  intros Hrun Hnoise.
  destruct (handle_game_collecting _ _ _ _ Hrun) as [(Hover & _) _].
  destruct (waiting_count_aux numPlayers before g r Hrun) as [_ Hlt].
  rewrite (handle_game_app _ _ _ _ _ Hrun). cbn [Hw3.rounds].
  destruct (poll_noise numPlayers ready (seq 0 numPlayers) g r Hover Hnoise)
    as (g' & -> & Hsc & Hs).
  rewrite Hover, bool_decide_eq_true_2 by done. by exists g'.
Qed.

Lemma noise_leaves_round_alone_witness :
  ∃ g',
    Hw3.handle_game 2
      ([Hw3.SelectReady [Some (Hw3.RecvData "MOVE:R"); None]]
         ++ [Hw3.SelectReady [Some (Hw3.RecvData "hello"); Some (Hw3.RecvData "move:p")]])
    = Hw3.Waiting g'
        (round_after 2 [Hw3.SelectReady [Some (Hw3.RecvData "MOVE:R"); None]])
    ∧ Hw3.scores g'
      = Hw3.scores (game_after 2 [Hw3.SelectReady [Some (Hw3.RecvData "MOVE:R"); None]])
    ∧ Hw3.sent g'
      = Hw3.sent (game_after 2 [Hw3.SelectReady [Some (Hw3.RecvData "MOVE:R"); None]]).
Proof.
  apply (noise_leaves_round_alone 2
           [Hw3.SelectReady [Some (Hw3.RecvData "MOVE:R"); None]]
           [Some (Hw3.RecvData "hello"); Some (Hw3.RecvData "move:p")]).
  - vm_compute. reflexivity.
  - intros i res Hi. destruct i as [|[|i]]; vm_compute in Hi; [| |done];
      injection Hi as <-; vm_compute; auto.
Defined.

(** ** Setting up a session *)

Lemma accept_loop_done numPlayers missing results client_fds out client_fds' out' :
  Hw3.accept_loop numPlayers missing results client_fds out
  = (Hw3.AcceptDone, client_fds', out') →
  client_fds' = client_fds ++ take missing results
  ∧ missing ≤ length results
  ∧ Forall (λ fd, (0 ≤ fd)%Z) (take missing results).
Proof.
  revert results client_fds out.
  induction missing as [|missing IH]; intros results client_fds out; cbn [Hw3.accept_loop].
  - intros [= <- <-]. rewrite take_0, app_nil_r. repeat split; [lia|constructor].
  - destruct results as [|cfd results]; [done|].
    destruct (cfd <? 0)%Z eqn:Hneg; [done|]. apply Z.ltb_ge in Hneg.
    intros (-> & Hlen & Hall)%IH. cbn [take length].
    rewrite <- app_assoc. repeat split; [lia|by constructor].
Qed.

(** X10. [main] starts a session only after [accept] has returned
    [numPlayers] descriptors, none of them negative: the session's
    players are the first [numPlayers] connections, in the order in which
    they were accepted, and the session runs [handle_game] for the number
    of players given on the command line. *)
Theorem session_after_all_accepted (atoi : string → Z) (argv : list string)
    (env : Hw3.Env) (numPlayers : Z) (outcome : Hw3.Outcome) :
  Hw3.session (Hw3.main atoi argv env) = Some (numPlayers, outcome) →
  numPlayers = atoi (argv !!! 2%nat)
  ∧ Hw3.accepted (Hw3.main atoi argv env)
    = take (Z.to_nat numPlayers) (Hw3.accept_results env)
  ∧ length (Hw3.accepted (Hw3.main atoi argv env)) = Z.to_nat numPlayers
  ∧ Forall (λ fd, (0 ≤ fd)%Z) (Hw3.accepted (Hw3.main atoi argv env))
  ∧ outcome = Hw3.handle_game (Z.to_nat numPlayers) (Hw3.game_input env).
Proof.
  unfold Hw3.main. case_bool_decide as Hargc; cbn [negb]; [|done].
  destruct (_ || _); [done|]. destruct (_ <? 0)%Z; [done|].
  destruct (Hw3.accept_loop _ _ _ _ _) as [[[] fds] out] eqn:Hacc; [done..|].
  cbn. intros [= <- <-].
  apply accept_loop_done in Hacc as (-> & Hlen & Hall). cbn [app].
  repeat split; [|done]. rewrite length_take. lia.
Qed.

Lemma session_after_all_accepted_witness :
  2%Z = (λ s, if String.eqb s "2" then 2%Z else 5555%Z)
          (["spock_server"; "5555"; "2"] !!! 2%nat)
  ∧ Hw3.accepted
      (Hw3.main (λ s, if String.eqb s "2" then 2%Z else 5555%Z)
         ["spock_server"; "5555"; "2"] (Hw3.mkEnv (λ _, 3%Z) [4%Z; 5%Z; 6%Z] []))
    = take (Z.to_nat 2) [4%Z; 5%Z; 6%Z]
  ∧ length
      (Hw3.accepted
         (Hw3.main (λ s, if String.eqb s "2" then 2%Z else 5555%Z)
            ["spock_server"; "5555"; "2"] (Hw3.mkEnv (λ _, 3%Z) [4%Z; 5%Z; 6%Z] [])))
    = Z.to_nat 2
  ∧ Forall (λ fd, (0 ≤ fd)%Z)
      (Hw3.accepted
         (Hw3.main (λ s, if String.eqb s "2" then 2%Z else 5555%Z)
            ["spock_server"; "5555"; "2"] (Hw3.mkEnv (λ _, 3%Z) [4%Z; 5%Z; 6%Z] [])))
  ∧ Hw3.handle_game 2 [] = Hw3.handle_game (Z.to_nat 2) [].
Proof.
  apply (session_after_all_accepted (λ s, if String.eqb s "2" then 2%Z else 5555%Z)
           ["spock_server"; "5555"; "2"] (Hw3.mkEnv (λ _, 3%Z) [4%Z; 5%Z; 6%Z] [])
           2%Z (Hw3.handle_game 2 [])).
  reflexivity.
Defined.

(** X11. The exit status of [main] tells how far the server got: it is
    0 exactly when a session was run and [handle_game] came back (the
    QUIT loop ran to its end, or [select] failed); a session in which
    SIGPIPE terminates the process inside a [send] loop, as after a
    disconnection by reset, leaves no exit status at all; the status is
    1 only when no session was started (bad arguments, or [start_server]
    or [accept] failed); [main] itself produces no other status. *)
Theorem exit_status_of_main (atoi : string → Z) (argv : list string) (env : Hw3.Env) :
  (Hw3.exit_status (Hw3.main atoi argv env) = Some 0%Z
   ↔ ∃ numPlayers g,
       Hw3.session (Hw3.main atoi argv env) = Some (numPlayers, Hw3.Returned g)
       ∨ Hw3.session (Hw3.main atoi argv env) = Some (numPlayers, Hw3.Ended g))
  ∧ (∀ numPlayers g,
       Hw3.session (Hw3.main atoi argv env) = Some (numPlayers, Hw3.Killed g) →
       Hw3.exit_status (Hw3.main atoi argv env) = None)
  ∧ (Hw3.exit_status (Hw3.main atoi argv env) = Some 1%Z →
     Hw3.session (Hw3.main atoi argv env) = None)
  ∧ (Hw3.exit_status (Hw3.main atoi argv env) = None
     ∨ Hw3.exit_status (Hw3.main atoi argv env) = Some 0%Z
     ∨ Hw3.exit_status (Hw3.main atoi argv env) = Some 1%Z)
  ∧ ((Hw3.start_server_result env (atoi (argv !!! 1%nat)) < 0)%Z →
     Hw3.exit_status (Hw3.main atoi argv env) = Some 1%Z
     ∧ Hw3.accepted (Hw3.main atoi argv env) = []).
Proof.
  unfold Hw3.main. case_bool_decide as Hargc; cbn [negb].
  2:{ cbn. split; [split; [done|intros (? & ? & [|]); done]|].
      split; [done|]. auto. }
  destruct (_ || _).
  { cbn. split; [split; [done|intros (? & ? & [|]); done]|].
    split; [done|]. auto. }
  destruct (_ <? 0)%Z eqn:Hfd.
  { cbn. split; [split; [done|intros (? & ? & [|]); done]|].
    split; [done|]. auto. }
  apply Z.ltb_ge in Hfd.
  destruct (Hw3.accept_loop _ _ _ _ _) as [[[] fds] out]; cbn.
  - split; [split; [done|intros (? & ? & [|]); done]|].
    split; [done|]. split; [done|]. split; [auto|lia].
  - split; [split; [done|intros (? & ? & [|]); done]|].
    split; [done|]. split; [done|]. split; [auto|lia].
  - destruct (Hw3.handle_game _ _) as [g r|g|g|g| |]; cbn;
      (split; [split; [try done; eauto|intros (? & ? & [|]); done]|]);
      (split; [done|]); (split; [done|]); (split; [auto|lia]).
Qed.

Lemma exit_status_of_main_witness :
  Hw3.session
    (Hw3.main (λ s, if String.eqb s "3" then 3%Z else 5555%Z)
       ["spock_server"; "5555"; "3"]
       (Hw3.mkEnv (λ _, 3%Z) [4%Z; 5%Z; 6%Z]
          [Hw3.SelectReady [Some (Hw3.RecvData "MOVE:R"); Some (Hw3.RecvData "MOVE:R");
                            Some (Hw3.RecvData "MOVE:S")];
           Hw3.SelectReadyPipe [Some Hw3.RecvFail; None; None] 0]))
  = Some (3%Z,
          Hw3.Killed
            (game_at_end 3
               [Hw3.SelectReady [Some (Hw3.RecvData "MOVE:R"); Some (Hw3.RecvData "MOVE:R");
                                 Some (Hw3.RecvData "MOVE:S")];
                Hw3.SelectReadyPipe [Some Hw3.RecvFail; None; None] 0]))
  ∧ Hw3.exit_status
      (Hw3.main (λ s, if String.eqb s "3" then 3%Z else 5555%Z)
         ["spock_server"; "5555"; "3"]
         (Hw3.mkEnv (λ _, 3%Z) [4%Z; 5%Z; 6%Z]
            [Hw3.SelectReady [Some (Hw3.RecvData "MOVE:R"); Some (Hw3.RecvData "MOVE:R");
                              Some (Hw3.RecvData "MOVE:S")];
             Hw3.SelectReadyPipe [Some Hw3.RecvFail; None; None] 0]))
    = None.
Proof.
  assert (Hw3.session
            (Hw3.main (λ s, if String.eqb s "3" then 3%Z else 5555%Z)
               ["spock_server"; "5555"; "3"]
               (Hw3.mkEnv (λ _, 3%Z) [4%Z; 5%Z; 6%Z]
                  [Hw3.SelectReady [Some (Hw3.RecvData "MOVE:R"); Some (Hw3.RecvData "MOVE:R");
                                    Some (Hw3.RecvData "MOVE:S")];
                   Hw3.SelectReadyPipe [Some Hw3.RecvFail; None; None] 0]))
          = Some (3%Z,
                  Hw3.Killed
                    (game_at_end 3
                       [Hw3.SelectReady [Some (Hw3.RecvData "MOVE:R");
                                         Some (Hw3.RecvData "MOVE:R");
                                         Some (Hw3.RecvData "MOVE:S")];
                        Hw3.SelectReadyPipe [Some Hw3.RecvFail; None; None] 0])))
    as Hsession by (vm_compute; reflexivity).
  split; [exact Hsession|].
  destruct (exit_status_of_main (λ s, if String.eqb s "3" then 3%Z else 5555%Z)
              ["spock_server"; "5555"; "3"]
              (Hw3.mkEnv (λ _, 3%Z) [4%Z; 5%Z; 6%Z]
                 [Hw3.SelectReady [Some (Hw3.RecvData "MOVE:R"); Some (Hw3.RecvData "MOVE:R");
                                   Some (Hw3.RecvData "MOVE:S")];
                  Hw3.SelectReadyPipe [Some Hw3.RecvFail; None; None] 0]))
    as (_ & Hkilled & _).
  exact (Hkilled _ _ Hsession).
Defined.

(** ** The two-player server *)

Lemma hw5_move_not_command c :
  Hw5.char_to_move c ≠ MOVE_INVALID → Ascii.eqb c "Q" = false ∧ Ascii.eqb c "T" = false.
Proof.
  intros Hm. split; apply Ascii.eqb_neq; intros ->; by apply Hm.
Qed.

Lemma hw5_beats_total a b :
  a ≠ MOVE_INVALID → b ≠ MOVE_INVALID → a ≠ b → Hw5.beats a b = negb (Hw5.beats b a).
Proof. destruct a, b; intros; try done. Qed.

(** X12. A round of the two-player server: when the local player types
    a move letter and the client answers MOVE: with a move letter, the
    round is resolved at once: nobody scores on equal moves, otherwise
    exactly the player whose move beats the other's gains one point; the
    RESULT line with both letters and the new scores is the last thing
    sent, and the round number advances by one. *)
Theorem two_player_round (st : Hw5.State) (client_ready : bool) (c : ascii)
    (buf : string) (s0 s1 : Z) :
  Hw5.scores st = [s0; s1] →
  Hw5.char_to_move c ≠ MOVE_INVALID →
  String.prefix "MOVE:" buf = true →
  Hw5.char_to_move (CLib.char_at buf 5) ≠ MOVE_INVALID →
  ∃ st',
    Hw5.loop_body (Hw5.mkIter (Hw5.SelectReady true client_ready) c (Hw5.RecvData buf)) st
    = (st', true)
    ∧ Hw5.scores st'
      = (if decide (Hw5.char_to_move c = Hw5.char_to_move (CLib.char_at buf 5))
         then [s0; s1]
         else if Hw5.beats (Hw5.char_to_move c) (Hw5.char_to_move (CLib.char_at buf 5))
              then [CLib.wrap_int (s0 + 1); s1]
              else [s0; CLib.wrap_int (s1 + 1)])
    ∧ Hw5.round st' = CLib.wrap_int (Hw5.round st + 1)
    ∧ last (Hw5.sent st')
      = Some (CLib.cstr
                (Hw5.result_info (Hw5.char_to_move c)
                   (Hw5.char_to_move (CLib.char_at buf 5)) (Hw5.scores st'))).
Proof.
  intros Hsc Hm1 Hmove Hm2.
  destruct (hw5_move_not_command c Hm1) as [HQ HT].
  cbn [Hw5.loop_body Hw5.wake Hw5.typed Hw5.reply]. rewrite HQ, HT.
  assert (move_eqb (Hw5.char_to_move c) MOVE_INVALID = false) as ->
    by (by apply bool_decide_eq_false).
  rewrite strncmp_QUIT, strncmp_RESET, strncmp_MOVE.
  rewrite (move_not_quit _ Hmove), (move_not_reset _ Hmove), Hmove.
  assert (move_eqb (Hw5.char_to_move (CLib.char_at buf 5)) MOVE_INVALID = false) as ->
    by (by apply bool_decide_eq_false).
  eexists. split; [reflexivity|]. cbn. rewrite Hsc.
  split; [|split; [done|by rewrite last_snoc]].
  set (m1 := Hw5.char_to_move c) in *.
  set (m2 := Hw5.char_to_move (CLib.char_at buf 5)) in *.
  unfold Hw5.award. destruct (decide (m1 = m2)) as [->|Hne].
  - destruct (Hw5.beats m2 m2); done.
  - rewrite (hw5_beats_total m1 m2) by done.
    by destruct (Hw5.beats m2 m1).
Qed.

Lemma two_player_round_witness :
  ∃ st',
    Hw5.loop_body (Hw5.mkIter (Hw5.SelectReady true false) "l" (Hw5.RecvData "MOVE:K"))
      Hw5.initial_state
    = (st', true)
    ∧ Hw5.scores st'
      = (if decide (Hw5.char_to_move "l" = Hw5.char_to_move (CLib.char_at "MOVE:K" 5))
         then [0%Z; 0%Z]
         else if Hw5.beats (Hw5.char_to_move "l") (Hw5.char_to_move (CLib.char_at "MOVE:K" 5))
              then [CLib.wrap_int (0 + 1); 0%Z]
              else [0%Z; CLib.wrap_int (0 + 1)])
    ∧ Hw5.round st' = CLib.wrap_int (Hw5.round Hw5.initial_state + 1)
    ∧ last (Hw5.sent st')
      = Some (CLib.cstr
                (Hw5.result_info (Hw5.char_to_move "l")
                   (Hw5.char_to_move (CLib.char_at "MOVE:K" 5)) (Hw5.scores st'))).
Proof.
  apply (two_player_round Hw5.initial_state false "l" "MOVE:K" 0 0);
    [reflexivity|vm_compute; discriminate|reflexivity|vm_compute; discriminate].
Defined.

(** X13. Either side can reset the two-player game: T typed on the
    server, or RESET sent by the client after the local player has moved,
    sets both scores to zero, keeps the round number and lets the loop go
    on.  The local reset is announced to the client with RESET; the
    client's own reset is not echoed, and the local player's move is
    dropped with it. *)
Theorem two_player_reset (st : Hw5.State) (client_ready : bool) (s0 s1 : Z)
    (c : ascii) (rep : Hw5.RecvResult) (buf : string) :
  Hw5.scores st = [s0; s1] →
  (∃ st',
     Hw5.loop_body (Hw5.mkIter (Hw5.SelectReady true client_ready) "T" rep) st = (st', true)
     ∧ Hw5.scores st' = [0%Z; 0%Z] ∧ Hw5.round st' = Hw5.round st
     ∧ last (Hw5.sent st') = Some "RESET")
  ∧ (Hw5.char_to_move c ≠ MOVE_INVALID →
     String.prefix "RESET" buf = true →
     ∃ st',
       Hw5.loop_body (Hw5.mkIter (Hw5.SelectReady true client_ready) c (Hw5.RecvData buf)) st
       = (st', true)
       ∧ Hw5.scores st' = [0%Z; 0%Z] ∧ Hw5.round st' = Hw5.round st
       ∧ "RESET" ∉ drop (length (Hw5.sent st)) (Hw5.sent st')).
Proof.
  intros Hsc. split.
  - cbn [Hw5.loop_body Hw5.wake Hw5.typed Hw5.reply]. cbn [Ascii.eqb Bool.eqb].
    eexists. split; [reflexivity|]. cbn. rewrite Hsc.
    split; [done|]. split; [done|]. by rewrite last_snoc.
  - intros Hm1 Hreset.
    destruct (hw5_move_not_command c Hm1) as [HQ HT].
    cbn [Hw5.loop_body Hw5.wake Hw5.typed Hw5.reply]. rewrite HQ, HT.
    assert (move_eqb (Hw5.char_to_move c) MOVE_INVALID = false) as ->
      by (by apply bool_decide_eq_false).
    rewrite strncmp_QUIT, strncmp_RESET, Hreset.
    destruct (String.prefix "QUIT" buf) eqn:Hq.
    { apply quit_not_reset in Hq. congruence. }
    eexists. split; [reflexivity|]. cbn. rewrite Hsc.
    split; [done|]. split; [done|].
    rewrite <- app_assoc, drop_app_length.
    intros [Hin|[Hin|Hin%elem_of_nil]%elem_of_cons]%elem_of_cons; [|done|done].
    revert Hin. generalize (CLib.fmt_d (Hw5.round st)). intros d.
    change ("INFO:Starting Round " +:+ ?x) with (String "I" ("NFO:Starting Round " +:+ x)).
    unfold CLib.snprintf. change (Hw5.BUF_SIZE - 1) with (S 1022).
    cbn [substring CLib.cstr Ascii.eqb Bool.eqb CLib.NUL Ascii.zero]. done.
Qed.

Lemma two_player_reset_witness :
  (∃ st',
     Hw5.loop_body (Hw5.mkIter (Hw5.SelectReady true false) "T" Hw5.RecvFail)
       (Hw5.mkState [3%Z; 1%Z] 5 [] [])
     = (st', true)
     ∧ Hw5.scores st' = [0%Z; 0%Z] ∧ Hw5.round st' = 5%Z
     ∧ last (Hw5.sent st') = Some "RESET")
  ∧ (Hw5.char_to_move "s" ≠ MOVE_INVALID →
     String.prefix "RESET" "RESET" = true →
     ∃ st',
       Hw5.loop_body (Hw5.mkIter (Hw5.SelectReady true false) "s" (Hw5.RecvData "RESET"))
         (Hw5.mkState [3%Z; 1%Z] 5 [] [])
       = (st', true)
       ∧ Hw5.scores st' = [0%Z; 0%Z] ∧ Hw5.round st' = 5%Z
       ∧ "RESET" ∉ drop (length (Hw5.sent (Hw5.mkState [3%Z; 1%Z] 5 [] []))) (Hw5.sent st')).
Proof.
  apply (two_player_reset (Hw5.mkState [3%Z; 1%Z] 5 [] []) false 3 1 "s" Hw5.RecvFail "RESET").
  reflexivity.
Defined.

Lemma hw5_letter_iff c :
  Hw5.char_to_move c ≠ MOVE_INVALID ↔ is_move_letter c = true.
Proof.
  destruct c as [[] [] [] [] [] [] [] []]; vm_compute; split; intros H; congruence.
Qed.

(** X14. On the console of the two-player server only the capital
    letters Q and T are commands: any other character that is not one of
    the ten move letters (so also q and t) is answered with
    "Invalid input", and the iteration changes neither the scores nor the
    round number, reads nothing from the client and sends it nothing but
    the round announcement. *)
Theorem server_console_invalid_input (st : Hw5.State) (client_ready : bool)
    (c : ascii) (rep : Hw5.RecvResult) :
  c ≠ "Q"%char → c ≠ "T"%char → is_move_letter c = false →
  ∃ info,
    Hw5.loop_body (Hw5.mkIter (Hw5.SelectReady true client_ready) c rep) st
    = (Hw5.mkState (Hw5.scores st) (Hw5.round st) (Hw5.sent st ++ [info])
         (Hw5.console st
            ++ ["Enter move (R/P/S/L/K), T=reset, Q=quit: ";
                "Invalid input. Try again." +:+ CLib.nl +:+ CLib.nl]),
       true)
    ∧ String.prefix "INFO:Starting Round " info = true.
Proof.
  intros HQ%Ascii.eqb_neq HT%Ascii.eqb_neq Hletter.
  cbn [Hw5.loop_body Hw5.wake Hw5.typed Hw5.reply]. rewrite HQ, HT.
  assert (move_eqb (Hw5.char_to_move c) MOVE_INVALID = true) as ->.
  { apply bool_decide_eq_true.
    destruct (decide (Hw5.char_to_move c = MOVE_INVALID)) as [|Hne]; [done|].
    apply hw5_letter_iff in Hne. congruence. }
  eexists. split.
  - unfold Hw5.printf, Hw5.send. cbn [Hw5.scores Hw5.round Hw5.sent Hw5.console].
    by rewrite <- app_assoc.
  - apply cstr_snprintf_prefix; [done|]. unfold Hw5.BUF_SIZE. cbn. lia.
Qed.

Lemma server_console_invalid_input_witness :
  ∃ info,
    Hw5.loop_body (Hw5.mkIter (Hw5.SelectReady true true) "q" (Hw5.RecvData "MOVE:R"))
      Hw5.initial_state
    = (Hw5.mkState (Hw5.scores Hw5.initial_state) (Hw5.round Hw5.initial_state)
         (Hw5.sent Hw5.initial_state ++ [info])
         (Hw5.console Hw5.initial_state
            ++ ["Enter move (R/P/S/L/K), T=reset, Q=quit: ";
                "Invalid input. Try again." +:+ CLib.nl +:+ CLib.nl]),
       true)
    ∧ String.prefix "INFO:Starting Round " info = true.
Proof.
  apply (server_console_invalid_input Hw5.initial_state true "q" (Hw5.RecvData "MOVE:R"));
    [discriminate|discriminate|reflexivity].
Defined.

(** ** The multi-player client *)

Lemma strncmp_RESULT b :
  (CLib.strncmp b "RESULT:" 7 =? 0)%Z = String.prefix "RESULT:" b.
Proof. exact (strncmp_prefix "RESULT:" b eq_refl). Qed.

Lemma strncmp_INFO b :
  (CLib.strncmp b "INFO:" 5 =? 0)%Z = String.prefix "INFO:" b.
Proof. exact (strncmp_prefix "INFO:" b eq_refl). Qed.

Lemma prefix_inv lit s : String.prefix lit s = true → ∃ rest, s = lit +:+ rest.
Proof.
  revert s. induction lit as [|a lit IH]; intros s; [by exists s|].
  destruct s as [|c s]; [done|]. cbn [String.prefix].
  destruct (ascii_dec a c) as [->|]; [|done].
  intros [rest ->]%IH. by exists rest.
Qed.

Lemma result_not_quit_reset b :
  String.prefix "RESULT:" b = true →
  String.prefix "QUIT" b = false ∧ String.prefix "RESET" b = false.
Proof. intros [rest ->]%prefix_inv. by split. Qed.

Lemma hw3_client_body_score it st :
  Hw3Client.local_score st = 0%Z →
  Hw3Client.local_score (Hw3Client.loop_body it st).1 = 0%Z.
Proof.
  intros Hsc. unfold Hw3Client.loop_body.
  set (st0 := if Hw3Client.prompt_needed st then _ else st).
  assert (Hw3Client.local_score st0 = 0%Z) as Hsc0
    by (unfold st0; by destruct (Hw3Client.prompt_needed st)).
  clearbody st0. destruct (Hw3Client.wake it) as [|sock_ready stdin_ready]; [done|].
  assert (∀ st1, Hw3Client.local_score st1 = 0%Z →
                 Hw3Client.local_score
                   (if stdin_ready then Hw3Client.on_keyboard (Hw3Client.line it) st1
                    else (st1, true)).1 = 0%Z) as Hkey.
  { intros st1 Hsc1. destruct stdin_ready; [|done].
    unfold Hw3Client.on_keyboard. destruct (Hw3Client.line it) as [typed|]; [|done].
    case_bool_decide; [done|]. repeat (destruct (_ || _); [done|]). done. }
  destruct sock_ready; [|by apply Hkey].
  unfold Hw3Client.on_server. destruct (Hw3Client.reply it) as [|buffer]; [done|].
  destruct (_ =? _)%Z; [done|].
  destruct (_ =? _)%Z; [by apply Hkey|].
  destruct (_ =? _)%Z; by apply Hkey.
Qed.

(** X15. The local score of the multi-player client is never counted:
    whatever the server and the user send, it stays 0, so the M command
    always shows "Local Score = 0". *)
Theorem client_local_score_stays_zero (input : list Hw3Client.Iter) :
  Hw3Client.local_score (Hw3Client.client_loop input Hw3Client.initial_state).1 = 0%Z
  ∧ ∀ typed,
      String.length (CLib.cut_at CLib.LF (CLib.cstr typed)) ≠ 0 →
      typed_command typed = "M"%char ∨ typed_command typed = "m"%char →
      Hw3Client.on_keyboard (Some typed)
        (Hw3Client.client_loop input Hw3Client.initial_state).1
      = (Hw3Client.printf ("[Client] Local Score = 0 (not official)" +:+ CLib.nl)
           (Hw3Client.client_loop input Hw3Client.initial_state).1,
         true).
Proof.
  assert (∀ st, Hw3Client.local_score st = 0%Z →
                Hw3Client.local_score (Hw3Client.client_loop input st).1 = 0%Z) as Hloop.
  { induction input as [|it input IH]; intros st Hsc; cbn [Hw3Client.client_loop]; [done|].
    pose proof (hw3_client_body_score it st Hsc) as Hstep.
    destruct (Hw3Client.loop_body it st) as [st' go_on].
    destruct go_on; [by apply IH|done]. }
  specialize (Hloop Hw3Client.initial_state eq_refl). split; [done|].
  intros typed Hlen Hcmd. unfold Hw3Client.on_keyboard, typed_command in *.
  rewrite bool_decide_eq_false_2 by done. rewrite Hloop.
  by destruct Hcmd as [-> | ->].
Qed.

Lemma client_local_score_stays_zero_witness :
  Hw3Client.on_keyboard (Some ("m" +:+ CLib.nl))
    (Hw3Client.client_loop
       [Hw3Client.mkIter (Hw3Client.SelectReady true false)
          (Hw3Client.RecvData "RESULT:1:Rock,Scissors:1,0") None]
       Hw3Client.initial_state).1
  = (Hw3Client.printf ("[Client] Local Score = 0 (not official)" +:+ CLib.nl)
       (Hw3Client.client_loop
          [Hw3Client.mkIter (Hw3Client.SelectReady true false)
             (Hw3Client.RecvData "RESULT:1:Rock,Scissors:1,0") None]
          Hw3Client.initial_state).1,
     true).
Proof.
  destruct (client_local_score_stays_zero
              [Hw3Client.mkIter (Hw3Client.SelectReady true false)
                 (Hw3Client.RecvData "RESULT:1:Rock,Scissors:1,0") None])
    as [_ Hshow].
  apply (Hshow ("m" +:+ CLib.nl)); [discriminate|right; reflexivity].
Defined.

Lemma typed_command_not_nul typed :
  String.length (CLib.cut_at CLib.LF (CLib.cstr typed)) ≠ 0 →
  typed_command typed ≠ CLib.NUL.
Proof.
  unfold typed_command. destruct typed as [|c typed]; [done|].
  cbn [CLib.cstr]. destruct (Ascii.eqb_spec c CLib.NUL) as [|Hnul]; [done|].
  cbn [CLib.cut_at]. destruct (Ascii.eqb c CLib.LF); [done|]. by cbn.
Qed.

(** X16. What the multi-player client types reaches the server as the
    matching command.  A line that starts with another character than
    Q, T or M (either case) is sent as MOVE: followed by that character;
    the server records the move for a participant whose slot is free
    when the character is a move letter, and otherwise leaves the round
    as it is, while the client stops prompting in both cases. *)
Theorem client_move_reaches_server (typed : string) (st : Hw3Client.State)
    (numPlayers i : nat) (g : Hw3.Game) (r : Hw3.Round) :
  String.length (CLib.cut_at CLib.LF (CLib.cstr typed)) ≠ 0 →
  typed_command typed ∉ list_ascii_of_string "QqTtMm" →
  Hw3.moves r !!! i = MOVE_INVALID →
  ∃ msg,
    msg = "MOVE:" +:+ String (typed_command typed) ""
    ∧ Hw3Client.on_keyboard (Some typed) st
      = (Hw3Client.mkState false (Hw3Client.local_score st)
           (Hw3Client.sent st ++ [msg]) (Hw3Client.console st),
         true)
    ∧ (Hw3.serve_player numPlayers i (Hw3.RecvData msg) g r).1.2
      = (if decide (Hw3.char_to_move (typed_command typed) = MOVE_INVALID) then r
         else Hw3.mkRound (<[i := Hw3.char_to_move (typed_command typed)]> (Hw3.moves r))
                (S (Hw3.moves_received r)) (Hw3.round_over r)
                (Hw3.someone_quit r) (Hw3.someone_reset r))
    ∧ Hw3.sent (Hw3.serve_player numPlayers i (Hw3.RecvData msg) g r).1.1 = Hw3.sent g.
Proof.
  intros Hlen Hcmd Hfree. pose proof (typed_command_not_nul typed Hlen) as Hnul.
  eexists. split; [reflexivity|].
  unfold Hw3Client.on_keyboard. fold (typed_command typed).
  rewrite bool_decide_eq_false_2 by done.
  set (cmd := typed_command typed) in *.
  assert (Ascii.eqb cmd "Q" || Ascii.eqb cmd "q" = false
          ∧ Ascii.eqb cmd "T" || Ascii.eqb cmd "t" = false
          ∧ Ascii.eqb cmd "M" || Ascii.eqb cmd "m" = false) as (-> & -> & ->).
  { repeat split; apply orb_false_iff; split; apply Ascii.eqb_neq; intros Heq;
      apply Hcmd, list_elem_of_In; rewrite Heq; cbn; auto 10. }
  apply Ascii.eqb_neq in Hnul.
  split.
  - unfold CLib.snprintf.
    change ("MOVE:" +:+ String cmd "") with
      (String "M" (String "O" (String "V" (String "E" (String ":" (String cmd "")))))).
    change (Hw3Client.BUF_SIZE - 1) with (S (S (S (S (S (S 1017)))))).
    cbn [substring CLib.cstr Ascii.eqb Bool.eqb CLib.NUL Ascii.zero].
    cbn [CLib.NUL Ascii.zero] in Hnul. rewrite Hnul.
    by destruct cmd.
  - change ("MOVE:" +:+ String cmd "") with
      (String "M" (String "O" (String "V" (String "E" (String ":" (String cmd "")))))).
    cbn [Hw3.serve_player]. rewrite strncmp_QUIT, strncmp_RESET, strncmp_MOVE.
    cbn [String.prefix]. cbn. rewrite Hfree.
    unfold move_eqb. destruct (decide (Hw3.char_to_move cmd = MOVE_INVALID)) as [Heq|Hne].
    + rewrite Heq. cbn. by destruct r.
    + rewrite bool_decide_eq_false_2 by done. cbn. done.
Qed.

Lemma client_move_reaches_server_witness :
  ∃ msg,
    msg = "MOVE:" +:+ String (typed_command ("k" +:+ CLib.nl)) ""
    ∧ Hw3Client.on_keyboard (Some ("k" +:+ CLib.nl)) Hw3Client.initial_state
      = (Hw3Client.mkState false (Hw3Client.local_score Hw3Client.initial_state)
           (Hw3Client.sent Hw3Client.initial_state ++ [msg])
           (Hw3Client.console Hw3Client.initial_state),
         true)
    ∧ (Hw3.serve_player 2 1 (Hw3.RecvData msg) Hw3.initial_game (Hw3.new_round 2)).1.2
      = (if decide (Hw3.char_to_move (typed_command ("k" +:+ CLib.nl)) = MOVE_INVALID)
         then Hw3.new_round 2
         else Hw3.mkRound
                (<[1 := Hw3.char_to_move (typed_command ("k" +:+ CLib.nl))]>
                   (Hw3.moves (Hw3.new_round 2)))
                (S (Hw3.moves_received (Hw3.new_round 2)))
                (Hw3.round_over (Hw3.new_round 2))
                (Hw3.someone_quit (Hw3.new_round 2))
                (Hw3.someone_reset (Hw3.new_round 2)))
    ∧ Hw3.sent (Hw3.serve_player 2 1 (Hw3.RecvData msg) Hw3.initial_game
                  (Hw3.new_round 2)).1.1
      = Hw3.sent Hw3.initial_game.
Proof.
  apply (client_move_reaches_server ("k" +:+ CLib.nl) Hw3Client.initial_state 2 1
           Hw3.initial_game (Hw3.new_round 2)).
  - discriminate.
  - intros Hin%list_elem_of_In. vm_compute in Hin.
    repeat (destruct Hin as [Hin|Hin]; [discriminate|]). done.
  - reflexivity.
Defined.

(** X17. Every message of the multi-player protocol is understood by
    the multi-player client: QUIT makes it leave the loop, RESET and a
    RESULT: line make it prompt again (the RESULT line is shown without
    its tag), and it never answers a server message by sending
    something. *)
Theorem client_understands_server (msg : string) (st : Hw3Client.State) :
  protocol_message msg →
  ∃ st',
    Hw3Client.on_server (Hw3Client.RecvData msg) st
    = (st', negb (bool_decide (msg = "QUIT")))
    ∧ Hw3Client.sent st' = Hw3Client.sent st
    ∧ (msg ≠ "QUIT" → Hw3Client.prompt_needed st' = true)
    ∧ (String.prefix "RESULT:" msg = true →
       Hw3Client.console st'
       = Hw3Client.console st
           ++ ["[Client] Round Result => " +:+ CLib.cstr (CLib.str_drop 7 msg) +:+ CLib.nl]).
Proof.
  intros [->|[->|Hres]].
  - eexists. split; [reflexivity|]. by repeat split.
  - eexists. split; [reflexivity|]. by repeat split.
  - destruct (result_not_quit_reset msg Hres) as [Hq Hr].
    cbn [Hw3Client.on_server]. rewrite strncmp_QUIT, strncmp_RESET, strncmp_RESULT.
    rewrite Hq, Hr, Hres. eexists. split.
    + f_equal. rewrite bool_decide_eq_false_2; [done|]. by intros ->.
    + by repeat split.
Qed.

Lemma client_understands_server_witness :
  ∃ st',
    Hw3Client.on_server (Hw3Client.RecvData "RESULT:1,2:Rock,Rock,Scissors:1,1,0")
      (Hw3Client.mkState false 0 ["MOVE:R"] [])
    = (st', negb (bool_decide ("RESULT:1,2:Rock,Rock,Scissors:1,1,0" = "QUIT")))
    ∧ Hw3Client.sent st' = Hw3Client.sent (Hw3Client.mkState false 0 ["MOVE:R"] [])
    ∧ ("RESULT:1,2:Rock,Rock,Scissors:1,1,0" ≠ "QUIT" → Hw3Client.prompt_needed st' = true)
    ∧ (String.prefix "RESULT:" "RESULT:1,2:Rock,Rock,Scissors:1,1,0" = true →
       Hw3Client.console st'
       = Hw3Client.console (Hw3Client.mkState false 0 ["MOVE:R"] [])
           ++ ["[Client] Round Result => "
                 +:+ CLib.cstr (CLib.str_drop 7 "RESULT:1,2:Rock,Rock,Scissors:1,1,0")
                 +:+ CLib.nl]).
Proof.
  apply (client_understands_server "RESULT:1,2:Rock,Rock,Scissors:1,1,0"
           (Hw3Client.mkState false 0 ["MOVE:R"] [])).
  right; right. reflexivity.
Defined.

(** ** The two-player client *)

Lemma hw5_client_move_text cmd :
  is_move_letter cmd = true →
  CLib.cstr (CLib.snprintf Hw5Client.BUF_SIZE ("MOVE:" +:+ String (CLib.toupper cmd) ""))
  = "MOVE:" +:+ String (CLib.toupper cmd) ""
  ∧ CLib.strchr "RrPpSsLlKk" cmd = true
  ∧ Ascii.eqb cmd "Q" || Ascii.eqb cmd "q" = false
  ∧ Ascii.eqb cmd "T" || Ascii.eqb cmd "t" = false
  ∧ Hw5.char_to_move (CLib.toupper cmd) = Hw5.char_to_move cmd
  ∧ Hw5.char_to_move cmd ≠ MOVE_INVALID
  ∧ Hw3.char_to_move (CLib.toupper cmd) ≠ MOVE_INVALID
  ∧ is_move_letter (CLib.toupper cmd) = true.
Proof.
  destruct cmd as [[] [] [] [] [] [] [] []]; vm_compute; intros H; try discriminate H;
    repeat split; discriminate.
Qed.

Lemma hw5_client_other_text cmd :
  cmd ≠ CLib.NUL → is_move_letter cmd = false → CLib.strchr "RrPpSsLlKk" cmd = false.
Proof.
  destruct cmd as [[] [] [] [] [] [] [] []]; vm_compute; intros Hnul H;
    try discriminate H; try reflexivity.
  by destruct Hnul.
Qed.

(** X18. The two-player client sends a MOVE only for one of the ten
    move letters, as MOVE: followed by the capital letter, which both
    servers read as that move; it then stops asking for input.  For any
    other character (except the NUL byte, which [strchr] finds in every
    string) nothing is sent unless it is the QUIT or RESET command. *)
Theorem client_sends_valid_moves (cmd : ascii) (st : Hw5Client.State) :
  cmd ≠ CLib.NUL →
  (is_move_letter cmd = true →
   Hw5Client.on_keyboard cmd st
   = (Hw5Client.mkState false
        (Hw5Client.sent st ++ ["MOVE:" +:+ String (CLib.toupper cmd) ""])
        (Hw5Client.console st),
      true)
   ∧ is_move_letter (CLib.toupper cmd) = true
   ∧ Hw5.char_to_move (CLib.char_at ("MOVE:" +:+ String (CLib.toupper cmd) "") 5)
     = Hw5.char_to_move cmd
   ∧ Hw5.char_to_move cmd ≠ MOVE_INVALID
   ∧ Hw3.char_to_move (CLib.char_at ("MOVE:" +:+ String (CLib.toupper cmd) "") 5)
     ≠ MOVE_INVALID)
  ∧ (is_move_letter cmd = false →
     Hw5Client.prompt_needed (Hw5Client.on_keyboard cmd st).1 = Hw5Client.prompt_needed st
     ∧ (Hw5Client.sent (Hw5Client.on_keyboard cmd st).1 = Hw5Client.sent st
        ∨ Hw5Client.sent (Hw5Client.on_keyboard cmd st).1 = Hw5Client.sent st ++ ["QUIT"]
        ∨ Hw5Client.sent (Hw5Client.on_keyboard cmd st).1 = Hw5Client.sent st ++ ["RESET"])).
Proof.
  intros Hnul. split; intros Hletter.
  - destruct (hw5_client_move_text cmd Hletter)
      as (Htext & Hchr & HQ & HT & Hup & Hm5 & Hm3 & Hupl).
    unfold Hw5Client.on_keyboard. rewrite HQ, HT, Hchr, Htext.
    split; [done|]. split; [done|].
    change (CLib.char_at ("MOVE:" +:+ String (CLib.toupper cmd) "") 5)
      with (CLib.toupper cmd).
    by rewrite Hup.
  - unfold Hw5Client.on_keyboard.
    destruct (_ || _); [cbn; auto|]. destruct (_ || _); [cbn; auto|].
    rewrite (hw5_client_other_text cmd Hnul Hletter). cbn. auto.
Qed.

Lemma client_sends_valid_moves_witness :
  Hw5Client.on_keyboard "p" Hw5Client.initial_state
  = (Hw5Client.mkState false
       (Hw5Client.sent Hw5Client.initial_state ++ ["MOVE:" +:+ String (CLib.toupper "p") ""])
       (Hw5Client.console Hw5Client.initial_state),
     true)
  ∧ is_move_letter (CLib.toupper "p") = true
  ∧ Hw5.char_to_move (CLib.char_at ("MOVE:" +:+ String (CLib.toupper "p") "") 5)
    = Hw5.char_to_move "p"
  ∧ Hw5.char_to_move "p" ≠ MOVE_INVALID
  ∧ Hw3.char_to_move (CLib.char_at ("MOVE:" +:+ String (CLib.toupper "p") "") 5)
    ≠ MOVE_INVALID.
Proof.
  destruct (client_sends_valid_moves "p" Hw5Client.initial_state) as [Hmove _];
    [discriminate|].
  apply Hmove. reflexivity.
Defined.

(** ** The two-player server and its client *)

Lemma known_info_round x :
  known_to_hw5_client
    (CLib.cstr (CLib.snprintf Hw5.BUF_SIZE ("INFO:Starting Round " +:+ x))).
Proof.
  do 3 right.
  change ("INFO:Starting Round " +:+ x) with ("INFO:" +:+ ("Starting Round " +:+ x)).
  apply cstr_snprintf_prefix; [done|]. unfold Hw5.BUF_SIZE. cbn. lia.
Qed.

Lemma known_result m1 m2 sc : known_to_hw5_client (CLib.cstr (Hw5.result_info m1 m2 sc)).
Proof.
  do 2 right. left. unfold Hw5.result_info.
  apply cstr_snprintf_prefix; [done|]. unfold Hw5.BUF_SIZE. cbn. lia.
Qed.

Lemma send_known msg st :
  Forall known_to_hw5_client (Hw5.sent st) →
  known_to_hw5_client (CLib.cstr msg) →
  Forall known_to_hw5_client (Hw5.sent (Hw5.send msg st)).
Proof.
  intros Hall Hmsg. cbn. apply Forall_app. split; [done|]. by constructor.
Qed.

Lemma loop_body_known it st :
  Forall known_to_hw5_client (Hw5.sent st) →
  Forall known_to_hw5_client (Hw5.sent (Hw5.loop_body it st).1).
Proof.
  intros Hall. unfold Hw5.loop_body.
  set (st0 := Hw5.printf _ (Hw5.send _ st)).
  assert (Forall known_to_hw5_client (Hw5.sent st0)) as Hall0.
  { unfold st0. cbn [Hw5.printf Hw5.sent]. apply send_known; [done|].
    apply known_info_round. }
  clearbody st0. destruct (Hw5.wake it) as [|stdin_ready client_ready]; [done|].
  destruct stdin_ready; [|done].
  destruct (Ascii.eqb (Hw5.typed it) "Q").
  { cbn [fst Hw5.printf Hw5.sent]. apply send_known; [done|]. left. reflexivity. }
  destruct (Ascii.eqb (Hw5.typed it) "T").
  { cbn [fst Hw5.printf Hw5.sent]. apply send_known; [done|]. right; left. reflexivity. }
  destruct (move_eqb (Hw5.char_to_move (Hw5.typed it)) MOVE_INVALID); [done|].
  set (st1 := Hw5.send _ st0).
  assert (Forall known_to_hw5_client (Hw5.sent st1)) as Hall1.
  { unfold st1. apply send_known; [done|]. do 3 right. vm_compute. reflexivity. }
  clearbody st1. destruct (Hw5.reply it) as [|buf]; [done|].
  destruct (_ =? _)%Z; [done|]. destruct (_ =? _)%Z; [done|].
  destruct (move_eqb _ MOVE_INVALID); [done|].
  cbn [fst Hw5.next_round Hw5.printf Hw5.sent].
  apply send_known; [done|]. apply known_result.
Qed.

Lemma known_client_reaction msg cst :
  known_to_hw5_client msg →
  ∃ cst',
    Hw5Client.on_server (Hw5Client.RecvData msg) cst
    = (cst', negb (String.prefix "QUIT" msg))
    ∧ (String.prefix "QUIT" msg = false → Hw5Client.prompt_needed cst' = true)
    ∧ Hw5Client.sent cst' = Hw5Client.sent cst.
Proof.
  intros Hknown. cbn [Hw5Client.on_server].
  rewrite strncmp_QUIT, strncmp_RESET, strncmp_RESULT, strncmp_INFO.
  destruct (String.prefix "QUIT" msg) eqn:E1; [by eexists|].
  destruct (String.prefix "RESET" msg) eqn:E2; [by eexists|].
  destruct (String.prefix "RESULT:" msg) eqn:E3; [by eexists|].
  destruct (String.prefix "INFO:" msg) eqn:E4; [by eexists|].
  destruct Hknown as [|[|[|]]]; congruence.
Qed.

(** X19. Everything the two-player server sends during the game is a
    message its client knows (QUIT, RESET, RESULT: or INFO:), and the
    client reacts to each of them without sending anything: it leaves on
    QUIT and asks for the next move on all the others; it never meets an
    unknown message. *)
Theorem hw5_client_knows_server (input : list Hw5.Iter) (msg : string)
    (cst : Hw5Client.State) :
  msg ∈ Hw5.sent (Hw5.game_loop input Hw5.initial_state).1 →
  known_to_hw5_client msg
  ∧ ∃ cst',
      Hw5Client.on_server (Hw5Client.RecvData msg) cst
      = (cst', negb (String.prefix "QUIT" msg))
      ∧ (String.prefix "QUIT" msg = false → Hw5Client.prompt_needed cst' = true)
      ∧ Hw5Client.sent cst' = Hw5Client.sent cst.
Proof.
  assert (∀ st, Forall known_to_hw5_client (Hw5.sent st) →
                Forall known_to_hw5_client (Hw5.sent (Hw5.game_loop input st).1)) as Hloop.
  { induction input as [|it input' IH]; intros st Hall; cbn [Hw5.game_loop]; [done|].
    pose proof (loop_body_known it st Hall) as Hstep.
    destruct (Hw5.loop_body it st) as [st' go_on]. cbn [fst] in Hstep.
    destruct go_on; [by apply IH|exact Hstep]. }
  intros Hin. specialize (Hloop Hw5.initial_state (Forall_nil_2 _)).
  rewrite Forall_forall in Hloop. specialize (Hloop msg Hin).
  split; [done|]. by apply known_client_reaction.
Qed.

Lemma hw5_client_knows_server_witness :
  known_to_hw5_client "RESULT:R:S:1:0"
  ∧ ∃ cst',
      Hw5Client.on_server (Hw5Client.RecvData "RESULT:R:S:1:0")
        (Hw5Client.mkState false ["MOVE:S"] [])
      = (cst', negb (String.prefix "QUIT" "RESULT:R:S:1:0"))
      ∧ (String.prefix "QUIT" "RESULT:R:S:1:0" = false → Hw5Client.prompt_needed cst' = true)
      ∧ Hw5Client.sent cst' = Hw5Client.sent (Hw5Client.mkState false ["MOVE:S"] []).
Proof.
  apply (hw5_client_knows_server
           [Hw5.mkIter (Hw5.SelectReady true false) "R" (Hw5.RecvData "MOVE:S")]).
  apply list_elem_of_In. vm_compute. auto.
Defined.

(** ** What a RESULT message reports *)

Lemma broadcast_sound n msg (sent : list (nat * string)) :
  Forall (λ km, sound_message n km.2) sent →
  sound_message n msg →
  Forall (λ km, sound_message n km.2) (sent ++ Hw3.broadcast n msg).
Proof.
  intros Hall Hmsg. apply Forall_app. split; [done|].
  unfold Hw3.broadcast. apply Forall_fmap, Forall_forall. by intros k _.
Qed.

Lemma rounds_sound n trace g r g' :
  collecting n g r →
  Hw3.moves_received r = length (filled (Hw3.moves r)) →
  Forall (λ km, sound_message n km.2) (Hw3.sent g) →
  game_of (Hw3.rounds n trace g r) = Some g' →
  Forall (λ km, sound_message n km.2) (Hw3.sent g').
Proof.
  revert g r. induction trace as [|[|ready|ready k] trace IH]; intros g r Hc Hcount Hsound;
    cbn [Hw3.rounds game_of].
  - by intros [= <-].
  - by intros [= <-].
  - destruct Hc as (Hover & Hq & Hr & Hsc & Hmv).
    pose proof (poll_counted n ready (seq 0 n) g r) as Hcount1.
    rewrite Hmv in Hcount1. specialize (Hcount1 (seq_below n) Hcount).
    pose proof (poll_sent n ready (seq 0 n) g r) as Hsent1.
    destruct (Hw3.poll n ready (seq 0 n) g r) as [g1 r1] eqn:E.
    apply poll_frame in E as (Hsc1 & Hmv1 & Hflags). cbn [fst snd] in *.
    assert (Forall (λ km, sound_message n km.2) (Hw3.sent g1)) as Hsound1.
    { destruct Hsent1 as [->| ->]; [done|]. apply broadcast_sound; [done|by left]. }
    assert (∀ g2, length (Hw3.scores g2) = Hw3.MAX_PLAYERS →
                  Forall (λ km, sound_message n km.2) (Hw3.sent g2) →
                  game_of (Hw3.rounds n trace g2 (Hw3.new_round n)) = Some g' →
                  Forall (λ km, sound_message n km.2) (Hw3.sent g')) as Hnew.
    { intros g2 Hg2 Hs2. apply IH; [by apply new_round_collecting| |done].
      cbn. by rewrite filled_replicate. }
    destruct (bool_decide (Hw3.moves_received r1 < n) && negb (Hw3.round_over r1)) eqn:Hgo.
    { apply andb_true_iff in Hgo as [_ Hgo%negb_true_iff].
      destruct (Hflags Hgo). apply IH; [|done..]. repeat split; congruence. }
    clear Hgo Hflags.
    destruct (Hw3.someone_quit r1).
    { cbn [game_of]. intros [= <-]. cbn. apply broadcast_sound; [done|]. right; by left. }
    destruct (Hw3.someone_reset r1); [apply Hnew; [congruence|done]|].
    case_bool_decide as Hfull; [|apply Hnew; [congruence|done]].
    destruct (Hw3.resolve n g1 r1) as [g2|] eqn:Hres; [|done].
    pose proof (resolve_length _ _ _ _ Hres) as Hlen2.
    apply resolve_sent in Hres as (winners & Hwin & Hsent2).
    apply Hnew; [congruence|]. rewrite Hsent2. apply broadcast_sound; [done|].
    right; right. exists winners, (Hw3.moves r1), (Hw3.scores g2).
    split; [done|]. split; [congruence|]. split; [|done].
    apply filled_all. congruence.
  - destruct Hc as (Hover & Hq & Hr & Hsc & Hmv).
    pose proof (poll_counted n ready (seq 0 n) g r) as Hcount1.
    rewrite Hmv in Hcount1. specialize (Hcount1 (seq_below n) Hcount).
    pose proof (poll_sent n ready (seq 0 n) g r) as Hsent1.
    destruct (Hw3.poll n ready (seq 0 n) g r) as [g1 r1] eqn:E.
    apply poll_frame in E as (Hsc1 & Hmv1 & Hflags). cbn [fst snd] in *.
    assert (Forall (λ km, sound_message n km.2) (Hw3.sent g1)) as Hsound1.
    { destruct Hsent1 as [->| ->]; [done|]. apply broadcast_sound; [done|by left]. }
    assert (∀ g2, length (Hw3.scores g2) = Hw3.MAX_PLAYERS →
                  Forall (λ km, sound_message n km.2) (Hw3.sent g2) →
                  game_of (Hw3.rounds n trace g2 (Hw3.new_round n)) = Some g' →
                  Forall (λ km, sound_message n km.2) (Hw3.sent g')) as Hnew.
    { intros g2 Hg2 Hs2. apply IH; [by apply new_round_collecting| |done].
      cbn. by rewrite filled_replicate. }
    destruct (bool_decide (Hw3.moves_received r1 < n) && negb (Hw3.round_over r1)) eqn:Hgo.
    { apply andb_true_iff in Hgo as [_ Hgo%negb_true_iff].
      destruct (Hflags Hgo). apply IH; [|done..]. repeat split; congruence. }
    clear Hgo Hflags.
    destruct (Hw3.someone_quit r1).
    { assert (Forall (λ km, sound_message n km.2)
                (Hw3.sent (Hw3.send_all n "QUIT" g1))) as Hquit.
      { cbn. apply broadcast_sound; [done|]. right; by left. }
      destruct (bool_decide (k < n)); cbn [game_of]; intros [= <-]; [|done].
      cbn [Hw3.killed_at Hw3.sent]. by apply Forall_take. }
    destruct (Hw3.someone_reset r1).
    { destruct (bool_decide (k < n)); [|apply Hnew; [congruence|done]].
      cbn [game_of]. intros [= <-]. cbn [Hw3.killed_at Hw3.sent]. by apply Forall_take. }
    case_bool_decide as Hfull; [|apply Hnew; [congruence|done]].
    destruct (Hw3.resolve n g1 r1) as [g2|] eqn:Hres; [|done].
    pose proof (resolve_length _ _ _ _ Hres) as Hlen2.
    apply resolve_sent in Hres as (winners & Hwin & Hsent2).
    assert (Forall (λ km, sound_message n km.2) (Hw3.sent g2)) as Hsound2.
    { rewrite Hsent2. apply broadcast_sound; [done|].
      right; right. exists winners, (Hw3.moves r1), (Hw3.scores g2).
      split; [done|]. split; [congruence|]. split; [|done].
      apply filled_all. congruence. }
    destruct (bool_decide (k < n)); [|apply Hnew; [congruence|done]].
    cbn [game_of]. intros [= <-]. cbn [Hw3.killed_at Hw3.sent]. by apply Forall_take.
Qed.

(** X20. A RESULT message always reports a complete round: whatever the
    input, each message the server sends is RESET, QUIT, or the RESULT
    line built from [numPlayers] playable moves (no slot is ever
    reported as Invalid) and from the winners the engine finds for
    exactly those moves. *)
Theorem results_report_full_rounds (numPlayers : nat)
    (trace : list Hw3.SelectResult) (g : Hw3.Game) (k : nat) (msg : string) :
  game_of (Hw3.handle_game numPlayers trace) = Some g →
  (k, msg) ∈ Hw3.sent g →
  sound_message numPlayers msg.
Proof.
  unfold Hw3.handle_game. do 2 (case_bool_decide; [done|]). intros Hg Hin.
  assert (Forall (λ km, sound_message numPlayers km.2) (Hw3.sent g)) as Hsound.
  { apply (rounds_sound numPlayers trace Hw3.initial_game (Hw3.new_round numPlayers) g);
      [by apply new_round_collecting| |by constructor|done].
    cbn. by rewrite filled_replicate. }
  rewrite Forall_forall in Hsound. apply (Hsound _ Hin).
Qed.

Lemma results_report_full_rounds_witness :
  sound_message 2 "RESULT:2:Rock,Paper:0,1".
Proof.
  apply (results_report_full_rounds 2
           [Hw3.SelectReady [Some (Hw3.RecvData "MOVE:R"); Some (Hw3.RecvData "MOVE:P")]]
           (game_after 2
              [Hw3.SelectReady [Some (Hw3.RecvData "MOVE:R"); Some (Hw3.RecvData "MOVE:P")]])
           1 "RESULT:2:Rock,Paper:0,1").
  - vm_compute. reflexivity.
  - apply list_elem_of_In. vm_compute. auto.
Defined.

(** ** The fields of a RESULT message *)

Lemma str_app_assoc (a b c : string) : (a +:+ b) +:+ c = a +:+ (b +:+ c).
Proof.
  induction a as [|x a IH]; [done|].
  change (String x a +:+ b) with (String x (a +:+ b)).
  change (String x (a +:+ b) +:+ c) with (String x ((a +:+ b) +:+ c)).
  change (String x a +:+ (b +:+ c)) with (String x (a +:+ (b +:+ c))).
  by rewrite IH.
Qed.

Lemma concat_snoc sep (l : list string) x :
  l ≠ [] → String.concat sep (l ++ [x]) = String.concat sep l +:+ sep +:+ x.
Proof.
  induction l as [|a l IH]; [done|]. intros _.
  destruct l as [|b l]; [done|].
  change (String.concat sep ((a :: b :: l) ++ [x]))
    with (a +:+ sep +:+ String.concat sep ((b :: l) ++ [x])).
  rewrite IH by done.
  change (String.concat sep (a :: b :: l)) with (a +:+ sep +:+ String.concat sep (b :: l)).
  by rewrite !str_app_assoc.
Qed.

(** The joining loop yields the comma-separated list when no entry is
    cut by its scratch buffer. *)
Lemma join_part_concat size count (field : nat → string) :
  (∀ i, i < count →
     CLib.snprintf size ((if bool_decide (i = 0) then "" else ",") +:+ field i)
     = (if bool_decide (i = 0) then "" else ",") +:+ field i) →
  Hw3.join_part size count field = String.concat "," (field <$> seq 0 count).
Proof.
  unfold Hw3.join_part. induction count as [|count IH]; intros Hfit; [done|].
  rewrite seq_S, foldl_snoc, fmap_snoc, IH by (intros; apply Hfit; lia).
  cbn [Nat.add]. rewrite Hfit by lia. destruct count as [|count]; [done|].
  rewrite bool_decide_eq_false_2 by done.
  rewrite concat_snoc; [done|]. rewrite seq_S, fmap_snoc.
  intros Heq. symmetry in Heq. by apply app_cons_not_nil in Heq.
Qed.

Lemma fmap_lookup_total_seq {A B} `{!Inhabited A} (f : A → B) (l : list A) n :
  n ≤ length l → (λ i, f (l !!! i)) <$> seq 0 n = f <$> take n l.
Proof.
  induction n as [|n IH]; intros Hn; [done|].
  destruct (lookup_lt_is_Some_2 l n ltac:(lia)) as [x Hx].
  rewrite seq_S, fmap_app, IH by lia. cbn [Nat.add fmap list_fmap].
  rewrite (take_S_r _ _ _ Hx), fmap_app.
  by rewrite (list_lookup_total_correct _ _ _ Hx).
Qed.

(** X21. In a RESULT message the winners and the moves are plain
    comma-separated lists: the 1-based numbers of the winners, and the
    names of the moves in participant order.  The 16- and 32-byte scratch
    buffers of the formatting loops never cut a winner or a move name. *)
Theorem result_fields_are_comma_lists (numPlayers : nat) (winners : list nat)
    (mv : list Move) (sc : list Z) :
  numPlayers ≤ length mv →
  Forall (λ w, w < Hw3.MAX_PLAYERS) winners →
  Hw3.result_msg numPlayers winners mv sc
  = CLib.snprintf Hw3.BUF_SIZE
      ("RESULT:"
         +:+ String.concat "," ((λ w, CLib.fmt_d (Z.of_nat w + 1)) <$> winners)
         +:+ ":"
         +:+ String.concat "," (Hw3.move_to_string <$> take numPlayers mv)
         +:+ ":"
         +:+ Hw3.join_part 32 numPlayers (λ i, CLib.fmt_d (sc !!! i))).
Proof.
  intros Hlen Hwin. unfold Hw3.result_msg. cbv zeta.
  assert (Hw3.join_part 16 (length winners)
            (λ i, CLib.fmt_d (Z.of_nat (winners !!! i) + 1))
          = String.concat "," ((λ w, CLib.fmt_d (Z.of_nat w + 1)) <$> winners)) as ->.
  { rewrite join_part_concat.
    - rewrite (fmap_lookup_total_seq (λ w, CLib.fmt_d (Z.of_nat w + 1))) by done.
      by rewrite firstn_all.
    - intros i Hi. destruct (lookup_lt_is_Some_2 winners i Hi) as [w Hw].
      rewrite (list_lookup_total_correct _ _ _ Hw).
      rewrite Forall_forall in Hwin.
      assert (w < Hw3.MAX_PLAYERS) as Hcap
        by (apply Hwin; by eapply list_elem_of_lookup_2).
      unfold Hw3.MAX_PLAYERS in Hcap.
      destruct (bool_decide (i = 0)); destruct w as [|[|[|[|[|w]]]]];
        try lia; reflexivity. }
  assert (Hw3.join_part 32 numPlayers (λ i, Hw3.move_to_string (mv !!! i))
          = String.concat "," (Hw3.move_to_string <$> take numPlayers mv)) as ->.
  { rewrite join_part_concat.
    - by rewrite (fmap_lookup_total_seq Hw3.move_to_string).
    - intros i Hi. destruct (bool_decide (i = 0)); by destruct (mv !!! i). }
  done.
Qed.

Lemma result_fields_are_comma_lists_witness :
  Hw3.result_msg 3 [0; 1] [MOVE_ROCK; MOVE_ROCK; MOVE_SCISSORS] [1; 1; 0; 0; 0]%Z
  = CLib.snprintf Hw3.BUF_SIZE
      ("RESULT:"
         +:+ String.concat "," ((λ w, CLib.fmt_d (Z.of_nat w + 1)) <$> [0; 1])
         +:+ ":"
         +:+ String.concat ","
               (Hw3.move_to_string <$> take 3 [MOVE_ROCK; MOVE_ROCK; MOVE_SCISSORS])
         +:+ ":"
         +:+ Hw3.join_part 32 3 (λ i, CLib.fmt_d ([1; 1; 0; 0; 0]%Z !!! i))).
Proof.
  apply (result_fields_are_comma_lists 3 [0; 1] [MOVE_ROCK; MOVE_ROCK; MOVE_SCISSORS]
           [1; 1; 0; 0; 0]%Z).
  - cbn. lia.
  - repeat constructor; unfold Hw3.MAX_PLAYERS; lia.
Defined.

(** ** Leaving the two-player game *)

(** X22. The two-player game ends without touching the scores or the
    round number: Q typed on the server sends QUIT to the client and
    leaves the loop; after a local move, a client that disconnects or
    sends QUIT makes the server leave the loop without a RESULT for that
    move and without a QUIT in return. *)
Theorem two_player_quit (st : Hw5.State) (client_ready : bool)
    (c : ascii) (rep rep' : Hw5.RecvResult) :
  (∃ st',
     Hw5.loop_body (Hw5.mkIter (Hw5.SelectReady true client_ready) "Q" rep') st = (st', false)
     ∧ Hw5.scores st' = Hw5.scores st ∧ Hw5.round st' = Hw5.round st
     ∧ last (Hw5.sent st') = Some "QUIT")
  ∧ (Hw5.char_to_move c ≠ MOVE_INVALID →
     rep = Hw5.RecvFail ∨ (∃ buf, rep = Hw5.RecvData buf ∧ String.prefix "QUIT" buf = true) →
     ∃ st' info,
       Hw5.loop_body (Hw5.mkIter (Hw5.SelectReady true client_ready) c rep) st = (st', false)
       ∧ Hw5.scores st' = Hw5.scores st ∧ Hw5.round st' = Hw5.round st
       ∧ Hw5.sent st'
         = Hw5.sent st
             ++ [info; "INFO:Player1 has made a choice. Your turn." +:+ CLib.nl]
       ∧ String.prefix "INFO:Starting Round " info = true).
Proof.
  split.
  - eexists. split; [reflexivity|]. cbn. by rewrite last_snoc.
  - intros Hm1 Hrep. destruct (hw5_move_not_command c Hm1) as [HQ HT].
    cbn [Hw5.loop_body Hw5.wake Hw5.typed Hw5.reply]. rewrite HQ, HT.
    assert (move_eqb (Hw5.char_to_move c) MOVE_INVALID = false) as ->
      by (by apply bool_decide_eq_false).
    assert (String.prefix "INFO:Starting Round "
              (CLib.cstr
                 (CLib.snprintf Hw5.BUF_SIZE
                    ("INFO:Starting Round " +:+ CLib.fmt_d (Hw5.round st) +:+ ". Score P1:"
                       +:+ CLib.fmt_d (Hw5.scores st !!! 0) +:+ " P2:"
                       +:+ CLib.fmt_d (Hw5.scores st !!! 1) +:+ CLib.nl +:+ CLib.nl)))
            = true) as Hinfo.
    { apply cstr_snprintf_prefix; [done|]. unfold Hw5.BUF_SIZE. cbn. lia. }
    destruct Hrep as [->|(buf & -> & Hq)].
    + do 2 eexists. split; [reflexivity|]. cbn [Hw5.printf Hw5.send Hw5.scores Hw5.round
        Hw5.sent]. repeat split; [|exact Hinfo]. by rewrite <- app_assoc.
    + rewrite strncmp_QUIT, Hq.
      do 2 eexists. split; [reflexivity|]. cbn [Hw5.printf Hw5.send Hw5.scores Hw5.round
        Hw5.sent]. repeat split; [|exact Hinfo]. by rewrite <- app_assoc.
Qed.

Lemma two_player_quit_witness :
  ∃ st' info,
    Hw5.loop_body (Hw5.mkIter (Hw5.SelectReady true true) "k" Hw5.RecvFail)
      (Hw5.mkState [2%Z; 3%Z] 6 [] [])
    = (st', false)
    ∧ Hw5.scores st' = Hw5.scores (Hw5.mkState [2%Z; 3%Z] 6 [] [])
    ∧ Hw5.round st' = Hw5.round (Hw5.mkState [2%Z; 3%Z] 6 [] [])
    ∧ Hw5.sent st'
      = Hw5.sent (Hw5.mkState [2%Z; 3%Z] 6 [] [])
          ++ [info; "INFO:Player1 has made a choice. Your turn." +:+ CLib.nl]
    ∧ String.prefix "INFO:Starting Round " info = true.
Proof.
  destruct (two_player_quit (Hw5.mkState [2%Z; 3%Z] 6 [] []) true "k" Hw5.RecvFail
              Hw5.RecvFail) as [_ Hclient].
  apply Hclient; [vm_compute; discriminate|by left].
Defined.
